(** * firewatch: the [Job] object of [src/objects/job.py]

    A shallow embedding of the failure-discovery pipeline: artifact
    addressing, step discovery, the two download passes, pod and test
    scanning, and the per-step classification of failures.  Python
    library calls ([str.split], [os.path], [os.walk], [open], [json.load],
    [junitparser]) are modelled by the executable definitions of the first
    modules; the methods of [Job] follow in module [Job], statement by
    statement. *)

From Stdlib Require Import ZArith Ascii String DecimalString DecimalNat Lia.
From stdpp Require Import base option list gmap strings.

Set Warnings "-register-all".
Local Open Scope Z_scope.

(** ** Python strings and lists *)

Module Py.

(** [s.split(sep)] for a one-character separator: never the empty list. *)
Fixpoint split (sep : ascii) (s : string) : list string :=
  match s with
  | EmptyString => [EmptyString]
  | String c r =>
      if Ascii.eqb c sep then EmptyString :: split sep r
      else match split sep r with
           | [] => [String c EmptyString]
           | h :: t => String c h :: t
           end
  end.

(** [l[i]], with Python's negative indices; [None] stands for IndexError. *)
Definition index {A} (l : list A) (i : Z) : option A :=
  let n := Z.of_nat (length l) in
  if i <? 0 then (if n + i <? 0 then None else l !! Z.to_nat (n + i))
  else l !! Z.to_nat i.

(** [s.startswith(p)] *)
Definition startswith (s p : string) : bool := String.prefix p s.

(** [sub in s] *)
Fixpoint contains (sub s : string) : bool :=
  String.prefix sub s ||
  match s with
  | EmptyString => false
  | String _ r => contains sub r
  end.

(** [s.replace(old, new)] for one-character [old] and [new]. *)
Fixpoint replace (old new : ascii) (s : string) : string :=
  match s with
  | EmptyString => EmptyString
  | String c r => String (if Ascii.eqb c old then new else c) (replace old new r)
  end.

(** [str(n)] for a non-negative integer. *)
Definition str (n : nat) : string := NilZero.string_of_uint (Nat.to_uint n).

(** Truthiness of an optional string: [None] and [""] are falsy. *)
Definition truthy (o : option string) : bool :=
  match o with
  | Some (String _ _) => true
  | _ => false
  end.

(** [a or b] on optional strings. *)
Definition or_else (a b : option string) : option string :=
  if truthy a then a else b.

(** [s.rfind(c)]: the index of the last [c], or [-1]. *)
Fixpoint rfind (c : ascii) (s : string) : Z :=
  match s with
  | EmptyString => -1
  | String a r =>
      let i := rfind c r in
      if 0 <=? i then i + 1 else if Ascii.eqb a c then 0 else -1
  end.

(** [s[:n]] and [s[n:]] for [n >= 0]. *)
Fixpoint take (n : nat) (s : string) : string :=
  match n, s with
  | S m, String c r => String c (take m r)
  | _, _ => EmptyString
  end.

Fixpoint drop (n : nat) (s : string) : string :=
  match n, s with
  | S m, String _ r => drop m r
  | _, _ => s
  end.

(** [s.rstrip(c)] *)
Fixpoint rstrip (c : ascii) (s : string) : string :=
  match s with
  | EmptyString => EmptyString
  | String a r =>
      match rstrip c r with
      | EmptyString => if Ascii.eqb a c then EmptyString else String a EmptyString
      | r' => String a r'
      end
  end.

(** [c * n] *)
Fixpoint repeat (c : ascii) (n : nat) : string :=
  match n with
  | O => EmptyString
  | S m => String c (repeat c m)
  end.

(** [s[n]] of a string, [None] past the end. *)
Fixpoint char_at (n : nat) (s : string) : option ascii :=
  match s, n with
  | EmptyString, _ => None
  | String c _, O => Some c
  | String _ r, S m => char_at m r
  end.

End Py.

(** ** [os.path] (posixpath) *)

Module OsPath.

Definition sep : ascii := "/"%char.

(** [os.path.join(a, b)] *)
Definition join (a b : string) : string :=
  if Py.startswith b "/" then b
  else if bool_decide (a = "") || Ascii.eqb (default sep (Py.char_at (String.length a - 1) a)) sep
       then a +:+ b
       else a +:+ "/" +:+ b.

(** [os.path.basename(p)]: [p[p.rfind('/') + 1:]] *)
Definition basename (p : string) : string :=
  Py.drop (Z.to_nat (Py.rfind sep p + 1)) p.

(** [os.path.dirname(p)]: the head up to the last slash, trailing slashes
    stripped unless the head is made of slashes only. *)
Definition dirname (p : string) : string :=
  let i := Z.to_nat (Py.rfind sep p + 1) in
  let head := Py.take i p in
  if negb (bool_decide (head = "")) && negb (bool_decide (head = Py.repeat sep (String.length head)))
  then Py.rstrip sep head
  else head.

(** The scan of [genericpath._splitext] for the first character of the
    file name that is not a dot. *)
Fixpoint splitext_scan (p : string) (filenameIndex dotIndex : nat) (fuel : nat)
  : option (string * string) :=
  match fuel with
  | O => None
  | S fuel' =>
      if (filenameIndex <? dotIndex)%nat then
        if negb (bool_decide (Py.char_at filenameIndex p = Some "."%char))
        then Some (Py.take dotIndex p, Py.drop dotIndex p)
        else splitext_scan p (S filenameIndex) dotIndex fuel'
      else None
  end.

(** [os.path.splitext(p)] *)
Definition splitext (p : string) : string * string :=
  let sepIndex := Py.rfind sep p in
  let dotIndex := Py.rfind "."%char p in
  if sepIndex <? dotIndex then
    match splitext_scan p (Z.to_nat (sepIndex + 1)) (Z.to_nat dotIndex)
            (S (String.length p)) with
    | Some r => r
    | None => (p, "")
    end
  else (p, "").

End OsPath.

(** ** Documents: what [json.load] and [junitparser] make of a file *)

Module Json.

(** A parsed JSON value.  An object keeps its members in document order;
    as in a Python [dict] built by [json.load], the last member of a name
    is the one a lookup finds. *)
Inductive t :=
  | Null
  | Bool (b : bool)
  | Num (n : Z)
  | Str (s : string)
  | Arr (items : list t)
  | Obj (members : list (string * t)).

Fixpoint lookup (k : string) (members : list (string * t)) : option t :=
  match members with
  | [] => None
  | (k', v) :: r =>
      match lookup k r with
      | Some v' => Some v'
      | None => if bool_decide (k' = k) then Some v else None
      end
  end.

(** [d.get(k, dflt)] *)
Definition get (k : string) (dflt : t) (members : list (string * t)) : t :=
  default dflt (lookup k members).

(** [v is False] *)
Definition is_False (v : t) : bool :=
  match v with
  | Bool false => true
  | _ => false
  end.

End Json.

Module JUnit.

(** The result elements junitparser distinguishes. *)
Inductive result := Failure | Error | Skipped | SystemOut | SystemErr.

(** [isinstance(r, (junitparser.Failure, junitparser.Error))] *)
Definition is_failure_or_error (r : result) : bool :=
  match r with
  | Failure | Error => true
  | _ => false
  end.

(** What iterating a suite yields: a test case, which has a [name] (absent
    when the element has no such attribute) and a [result] list, or, when
    the document's root is a single suite and the object iterated is itself
    a case, a bare result element, which has no [result] attribute. *)
Inductive item :=
  | Case (name : option string) (results : list result)
  | Bare (r : result).

(** [hasattr(case, "result") and case.result] on the [result] list of a
    case: a list is true when it is not empty. *)
Definition nonempty (results : list result) : bool :=
  match results with
  | [] => false
  | _ :: _ => true
  end.

(** What iterating the parsed document yields. *)
Record suite := Suite { suite_name : option string; suite_items : list item }.

Definition doc := list suite.

End JUnit.

(** The content of a file or of a stored object, by what the two parsers
    make of it. *)
Inductive payload :=
  | JsonDoc (j : Json.t)
  | JUnitDoc (d : JUnit.doc)
  | Opaque (raw : string).

(** ** Exceptions, outcomes, and the state monad of the analysis *)

Inductive exn :=
  | IndexError
  | AttributeError
  | FileExistsError
  | FileNotFoundError
  | NotADirectoryError
  | IsADirectoryError
  | JSONDecodeError.

(** A call returns, raises, ends the process ([exit(code)]), or loops for
    ever. *)
Inductive outcome (A : Type) :=
  | Ok (a : A)
  | Raise (e : exn)
  | Exit (code : Z)
  | Diverge.
Arguments Ok {A} a.
Arguments Raise {A} e.
Arguments Exit {A} code.
Arguments Diverge {A}.

(** ** The local file system *)

Module Fs.

(** A directory keeps its entries in listing order (the order [os.scandir]
    reports them, here the order of creation).  The tree holds plain files
    and directories: symbolic links are outside the model, and [.] and [..]
    are names like any other, so that what is proved of a path is proved
    for paths without them. *)
Inductive node :=
  | File (data : payload)
  | Dir (entries : list (string * node)).

(** The components of a path, from the root; empty components (doubled
    or trailing slashes) do not count. *)
Definition segments (p : string) : list string :=
  filter (fun s => s <> EmptyString) (Py.split OsPath.sep p).

Fixpoint entry (name : string) (es : list (string * node)) : option node :=
  match es with
  | [] => None
  | (n, c) :: r => if bool_decide (n = name) then Some c else entry name r
  end.

Fixpoint resolve (segs : list string) (n : node) : option node :=
  match segs with
  | [] => Some n
  | s :: r =>
      match n with
      | Dir es => match entry s es with Some c => resolve r c | None => None end
      | File _ => None
      end
  end.

Fixpoint set_entry (name : string) (c : node) (es : list (string * node))
  : list (string * node) :=
  match es with
  | [] => []
  | (n, c') :: r =>
      if bool_decide (n = name) then (n, c) :: r else (n, c') :: set_entry name c r
  end.

(** Create [name] with content [new] in the directory at [segs]. *)
Fixpoint create (segs : list string) (name : string) (new : node) (n : node)
  : outcome node :=
  match n with
  | File _ => Raise NotADirectoryError
  | Dir es =>
      match segs with
      | [] =>
          match entry name es with
          | Some _ => Raise FileExistsError
          | None => Ok (Dir (es ++ [(name, new)]))
          end
      | s :: r =>
          match entry s es with
          | None => Raise FileNotFoundError
          | Some c =>
              match create r name new c with
              | Ok c' => Ok (Dir (set_entry s c' es))
              | Raise e => Raise e
              | Exit k => Exit k
              | Diverge => Diverge
              end
          end
      end
  end.

(** [os.path.exists(p)] *)
Definition exists_ (p : string) (root : node) : bool :=
  bool_decide (is_Some (resolve (segments p) root)).

(** Creating the entry a path names: [os.mkdir(p)] for a directory and
    [open(p, "xb")] followed by the write for a file. *)
Definition create_path (p : string) (new : node) (root : node) : outcome node :=
  match segments p with
  | [] => Raise FileExistsError
  | s :: r => create (removelast (s :: r)) (List.last (s :: r) s) new root
  end.

Definition dirnames (es : list (string * node)) : list string :=
  omap (fun e => match e.2 with Dir _ => Some e.1 | File _ => None end) es.

Definition filenames (es : list (string * node)) : list string :=
  omap (fun e => match e.2 with File _ => Some e.1 | Dir _ => None end) es.

(** [os.walk(top)], top-down, on the directory [n] that [top] names. *)
Fixpoint walk_dir (top : string) (n : node) {struct n}
  : list (string * list string * list string) :=
  match n with
  | File _ => []
  | Dir es =>
      (top, dirnames es, filenames es) ::
      (fix below (l : list (string * node)) :=
         match l with
         | [] => []
         | (name, c) :: r =>
             match c with
             | Dir _ => walk_dir (OsPath.join top name) c
             | File _ => []
             end ++ below r
         end) es
  end.

Definition walk (top : string) (root : node) : list (string * list string * list string) :=
  match resolve (segments top) root with
  | Some n => walk_dir top n
  | None => []
  end.

End Fs.

(** ** The world of one analysis run *)

(** An object of the bucket: its key and its content. *)
Module Blob.
Record t := { name : string; data : payload }.
End Blob.

(** The storage backend: the objects of each bucket, in listing order. *)
Definition Storage := string -> list Blob.t.

(** [storage_client.list_blobs(bucket, prefix=prefix)] *)
Definition list_blobs (st : Storage) (bucket prefix : string) : list Blob.t :=
  filter (fun b => Is_true (Py.startswith (Blob.name b) prefix)) (st bucket).

Inductive level := DEBUG | INFO | WARNING | ERROR.

(** What a call can change: the file system and the log. *)
Record World := { fs : Fs.node; log : list (level * string) }.

Definition M (A : Type) : Type := World -> outcome A * World.

Definition ret {A} (a : A) : M A := fun w => (Ok a, w).

Definition bind {A B} (m : M A) (k : A -> M B) : M B :=
  fun w =>
    match m w with
    | (Ok a, w') => k a w'
    | (Raise e, w') => (Raise e, w')
    | (Exit c, w') => (Exit c, w')
    | (Diverge, w') => (Diverge, w')
    end.

Notation "'let*' x ':=' m 'in' k" := (bind m (fun x => k))
  (at level 10, x pattern, m at level 100, k at level 200).
Notation "'run' m 'in' k" := (bind m (fun _ => k))
  (at level 10, m at level 100, k at level 200).

Definition raise {A} (e : exn) : M A := fun w => (Raise e, w).
Definition exit {A} (code : Z) : M A := fun w => (Exit code, w).
Definition diverge {A} : M A := fun w => (Diverge, w).

(** [x] when the optional value is there, the exception otherwise. *)
Definition or_raise {A} (e : exn) (o : option A) : M A :=
  match o with
  | Some a => ret a
  | None => raise e
  end.

(** [for x in l: acc = body(acc, x)] *)
Fixpoint for_each {A S} (l : list A) (body : S -> A -> M S) (acc : S) : M S :=
  match l with
  | [] => ret acc
  | x :: r => let* acc' := body acc x in for_each r body acc'
  end.

(** [if c: body] *)
Definition when (c : bool) (body : M unit) : M unit :=
  if c then body else ret tt.

Definition logger (l : level) (msg : string) : M unit :=
  fun w => (Ok tt, {| fs := fs w; log := log w ++ [(l, msg)] |}).

Definition path_exists (p : string) : M bool :=
  fun w => (Ok (Fs.exists_ p (fs w)), w).

Definition lift_fs (f : Fs.node -> outcome Fs.node) : M unit :=
  fun w =>
    match f (fs w) with
    | Ok root => (Ok tt, {| fs := root; log := log w |})
    | Raise e => (Raise e, w)
    | Exit c => (Exit c, w)
    | Diverge => (Diverge, w)
    end.

(** [os.mkdir(p)] *)
Definition mkdir (p : string) : M unit := lift_fs (Fs.create_path p (Fs.Dir [])).

(** [with open(p, "xb") as target: blob.download_to_file(target)], for a
    download that succeeds: the file is new and holds the content of the
    object.  A download that fails after the file was opened, which leaves
    an empty or partial file behind, is outside the model. *)
Definition download_to_new_file (p : string) (b : Blob.t) : M unit :=
  lift_fs (Fs.create_path p (Fs.File (Blob.data b))).

(** [open(p)] for reading, and the whole content. *)
Definition read_file (p : string) : M payload :=
  fun w =>
    match Fs.resolve (Fs.segments p) (fs w) with
    | Some (Fs.File d) => (Ok d, w)
    | Some (Fs.Dir _) => (Raise IsADirectoryError, w)
    | None => (Raise FileNotFoundError, w)
    end.

(** [os.walk(top)] *)
Definition os_walk (top : string) : M (list (string * list string * list string)) :=
  fun w => (Ok (Fs.walk top (fs w)), w).

(** [f"{x}"] of an optional string: [None] prints as [None]. *)
Definition fmt (o : option string) : string := default "None" o.

(** ** The collaborators of [Job] *)

(** Modelled from the spec: the [Failure] record of [src.objects.failure],
    which is not part of the sources at hand.  A step name, a failure kind
    (the strings ["pod_failure"] and ["test_failure"] the callers pass), an
    optional failed-test name, an optional path of the report document, and
    the ignore flag, false until the classifier sets it. *)
Record Failure := mkFailure {
  step : string;
  failure_type : string;
  failed_test_name : option string;
  failed_test_junit_path : option string;
  ignore : bool
}.

(** [Failure(failed_step=..., failure_type=..., ...)] *)
Definition new_Failure (failed_step failure_type : string)
    (failed_test_name failed_test_junit_path : option string) : Failure :=
  mkFailure failed_step failure_type failed_test_name failed_test_junit_path false.

(** [failure.ignore = b] *)
Definition set_ignore (b : bool) (f : Failure) : Failure :=
  mkFailure (step f) (failure_type f) (failed_test_name f) (failed_test_junit_path f) b.

#[global] Instance Failure_eq_dec : EqDecision Failure.
Proof. solve_decision. Defined.

(** Modelled from the spec: a rule of the configuration, a predicate on
    failures ([rule.matches_failure(failure)]) and an ignore directive
    ([rule.ignore]). *)
Record FailureRule := {
  matches_failure : Failure -> bool;
  rule_ignore : bool
}.

(** Modelled from the spec: the [Configuration] collaborator, the ordered
    failure rules and the verbose test failure reporting flag. *)
Record Configuration := {
  failure_rules : list FailureRule;
  verbose_test_failure_reporting : bool
}.

(** The dictionary [_find_test_failures] builds for a failure before it is
    turned into a [Failure]; two are equal when their four values are. *)
Record failure_dict := mkDict {
  d_step : string;
  d_failure_type : string;
  d_failed_test_name : option string;
  d_failed_test_junit_path : option string
}.

#[global] Instance failure_dict_eq_dec : EqDecision failure_dict.
Proof. solve_decision. Defined.

(** ** [class Job] *)

Module Job.

Record t := {
  name : option string;
  name_safe : option string;
  build_id : option string;
  is_rehearsal : bool;
  pr_id : string;
  firewatch_config : Configuration;
  gcs_bucket : string;
  steps : list string;
  download_path : string;
  logs_dir : string;
  junit_dir : string;
  failures : option (list Failure);
  has_test_failures : bool;
  has_pod_failures : bool;
  has_failures : bool
}.

(** [Job._check_is_rehearsal] *)
Definition _check_is_rehearsal (job_name build_id : option string) : M bool :=
  let* n := or_raise AttributeError job_name in
  if Py.startswith n "rehearse" then
    run logger INFO ("Run #" +:+ fmt build_id +:+ " is a rehearsal job.") in
    ret true
  else ret false.

(** The pull-request id of a rehearsal job, lines 63-70 of [__init__]:
    [pr_id or os.getenv("PULL_NUMBER") or self.name.split("-")[1]], with
    the IndexError of a missing second token caught. *)
Definition derive_pr_id (getenv : string -> option string)
    (name : string) (pr_id : option string) : M string :=
  let* pr :=
    match Py.or_else (Py.or_else pr_id (getenv "PULL_NUMBER"))
            (Py.index (Py.split "-" name) 1) with
    | Some p => ret p
    | None =>
        run logger WARNING
          ("Pull number for job " +:+ name +:+
           " not obtained, reporting may not be complete.") in
        ret "1"
    end in
  run logger INFO ("PR ID: " +:+ pr) in
  ret pr.

(** The key prefix both download passes list, by rehearsal status. *)
Definition artifact_prefix (is_rehearsal : bool)
    (job_name build_id job_name_safe : option string) (pr_id : string) : string :=
  if is_rehearsal then
    "pr-logs/pull/openshift_release/" +:+ pr_id +:+ "/" +:+ fmt job_name +:+ "/" +:+
    fmt build_id +:+ "/artifacts/" +:+ fmt job_name_safe
  else
    "logs/" +:+ fmt job_name +:+ "/" +:+ fmt build_id +:+ "/artifacts/" +:+
    fmt job_name_safe.

(** The [while os.path.exists(file_path)] loop of [_download_junit]; the
    fuel bounds the number of tests of the condition. *)
Fixpoint free_path (fuel : nat) (dir filename extension : string)
    (file_path : string) (file_counter : nat) : M string :=
  match fuel with
  | O => diverge
  | S fuel' =>
      let* taken := path_exists file_path in
      if taken then
        run logger INFO ("File " +:+ file_path +:+ " already exists...") in
        free_path fuel' dir filename extension
          (dir +:+ "/" +:+ filename +:+ "_" +:+ Py.str file_counter +:+ extension)
          (S file_counter)
      else ret file_path
  end.

(** The number of entries of a tree: no directory has more. *)
Fixpoint entries_count (n : Fs.node) : nat :=
  match n with
  | Fs.File _ => O
  | Fs.Dir es =>
      (fix sum (l : list (string * Fs.node)) : nat :=
         match l with
         | [] => O
         | (_, c) :: r => S (entries_count c + sum r)
         end) es
  end.

(** [Job._download_junit] *)
Definition _download_junit (is_rehearsal : bool) (downloads_directory : string)
    (storage_client : Storage) (gcs_bucket : string)
    (job_name build_id job_name_safe : option string) (pr_id : string) : M string :=
  run logger INFO "Downloading JUnit files..." in
  let path := downloads_directory +:+ "/artifacts" in
  let* there := path_exists path in
  run when (negb there) (mkdir path) in
  let blobs := list_blobs storage_client gcs_bucket
                 (artifact_prefix is_rehearsal job_name build_id job_name_safe pr_id) in
  run for_each blobs (fun (_ : unit) blob =>
    let* blob_name := or_raise IndexError (Py.index (Py.split "/" (Blob.name blob)) (-1)) in
    if Py.contains "junit" blob_name then
      let* blob_step := or_raise IndexError (Py.index (Py.split "/" (Blob.name blob)) 5) in
      let* there := path_exists (path +:+ "/" +:+ blob_step) in
      run when (negb there) (mkdir (path +:+ "/" +:+ blob_step)) in
      let '(filename, extension) := OsPath.splitext blob_name in
      let* file_path :=
        (fun w => free_path (S (S (entries_count (fs w)))) (path +:+ "/" +:+ blob_step)
                    filename extension
                    (path +:+ "/" +:+ blob_step +:+ "/" +:+ filename +:+ extension) 1 w) in
      run download_to_new_file file_path blob in
      logger DEBUG (file_path +:+ " downloaded successfully...")
    else ret tt) tt in
  ret path.

(** [Job._download_logs] *)
Definition _download_logs (is_rehearsal : bool) (downloads_directory : string)
    (storage_client : Storage) (gcs_bucket : string)
    (job_name build_id job_name_safe : option string) (pr_id : string) : M string :=
  run logger INFO "Downloading log files..." in
  let files_to_download := ["finished.json"; "build-log.txt"] in
  let path := downloads_directory +:+ "/logs" in
  let* there := path_exists path in
  run when (negb there) (mkdir path) in
  let blobs := list_blobs storage_client gcs_bucket
                 (artifact_prefix is_rehearsal job_name build_id job_name_safe pr_id) in
  run for_each blobs (fun (_ : unit) blob =>
    let* blob_name := or_raise IndexError (Py.index (Py.split "/" (Blob.name blob)) (-1)) in
    let* blob_step := or_raise IndexError (Py.index (Py.split "/" (Blob.name blob)) (-2)) in
    if bool_decide (blob_name ∈ files_to_download) then
      let* there := path_exists (path +:+ "/" +:+ blob_step) in
      run when (negb there) (mkdir (path +:+ "/" +:+ blob_step)) in
      let file := path +:+ "/" +:+ blob_step +:+ "/" +:+ blob_name in
      run download_to_new_file file blob in
      logger DEBUG (file +:+ " downloaded successfully...")
    else ret tt) tt in
  ret path.

(** [Job._get_steps] *)
Definition _get_steps (is_rehearsal : bool) (job_name job_name_safe build_id : option string)
    (storage_client : Storage) (gcs_bucket : string) : M (list string) :=
  let blobs := list_blobs storage_client gcs_bucket
                 ("logs/" +:+ fmt job_name +:+ "/" +:+ fmt build_id +:+ "/artifacts/" +:+
                  fmt job_name_safe) in
  let* steps := for_each blobs (fun steps blob =>
    let* blob_step := or_raise IndexError (Py.index (Py.split "/" (Blob.name blob)) (-2)) in
    ret (steps ++ [blob_step])) [] in
  if (0 <? length steps)%nat || is_rehearsal then ret steps
  else
    run logger ERROR ("No steps found for job " +:+ fmt job_name) in
    exit 1.

(** [Job._get_download_path] *)
Definition _get_download_path (build_id : option string) : M string :=
  let download_path := "/tmp/" +:+ fmt build_id in
  let* there := path_exists download_path in
  run when (negb there)
    (run logger INFO ("Download path " +:+ download_path +:+
                      " does not exist, creating directory.") in
     mkdir download_path) in
  ret download_path.

(** [json.load(file)] on the content read. *)
Definition json_load (d : payload) : M Json.t :=
  match d with
  | JsonDoc j => ret j
  | _ => raise JSONDecodeError
  end.

(** [data.get("passed", False)]; only an object has [get]. *)
Definition get_passed (data : Json.t) : M Json.t :=
  match data with
  | Json.Obj members => ret (Json.get "passed" (Json.Bool false) members)
  | _ => raise AttributeError
  end.

(** The body of the loop over the files of [root] in [_find_pod_failures]
    (lines 387-397). *)
Definition scan_finished_json (root : string) (failures : list Failure)
    (file_name : string) : M (list Failure) :=
  if bool_decide (file_name = "finished.json") then
    let file_path := OsPath.join root file_name in
    let* file := read_file file_path in
    let* data := json_load file in
    let* passed := get_passed data in
    if Json.is_False passed then
      let step := OsPath.basename (OsPath.dirname file_path) in
      run logger INFO ("Found pod failure in step: " +:+ step) in
      ret (failures ++ [new_Failure step "pod_failure" None None])
    else ret failures
  else ret failures.

(** [Job._find_pod_failures] *)
Definition _find_pod_failures (logs_dir : string) : M (list Failure) :=
  let* tree := os_walk logs_dir in
  for_each tree (fun failures '(root, dirs, files) =>
    for_each files (scan_finished_json root) failures) [].

(** [x.replace(" ", "_") if verbose else None]; a name that is [None] has
    no [replace]. *)
Definition reported_name (verbose : bool) (name : option string) : M (option string) :=
  if verbose then
    let* n := or_raise AttributeError name in
    ret (Some (Py.replace " " "_" n))
  else ret None.

(** The dictionary of one test failure, and its recording unless an equal
    one is in the list (lines 437-455 and 457-475). *)
Definition record_test_failure (verbose : bool) (step file_path : string)
    (name : option string) (failures_list : list failure_dict) : M (list failure_dict) :=
  let* failed_test_name := reported_name verbose name in
  let failure :=
    mkDict step "test_failure" failed_test_name
      (if verbose then Some file_path else None) in
  if bool_decide (failure ∉ failures_list) then
    run logger INFO ("Found test failure in step " +:+ step +:+ " " +:+
                     (if verbose then "for test " +:+ fmt name else "")) in
    ret (failures_list ++ [failure])
  else ret failures_list.

(** [Job._find_test_failures] *)
Definition _find_test_failures (config : Configuration) (junit_dir : string)
  : M (list Failure) :=
  let verbose := verbose_test_failure_reporting config in
  let* tree := os_walk junit_dir in
  let* failures_list :=
    for_each tree (fun failures_list '(root, _, files) =>
      let junit_files :=
        filter (fun file => Is_true (Py.contains "junit" file && Py.contains "xml" file))
          files in
      for_each junit_files (fun failures_list file =>
        let file_path := OsPath.join root file in
        let* content := read_file file_path in
        match content with
        | JUnitDoc junit_xml =>
            let step := OsPath.basename (OsPath.dirname file_path) in
            for_each junit_xml (fun failures_list suite =>
              for_each (JUnit.suite_items suite) (fun failures_list case =>
                match case with
                | JUnit.Case case_name results =>
                    if JUnit.nonempty results then
                      for_each results (fun failures_list result =>
                        if JUnit.is_failure_or_error result then
                          record_test_failure verbose step file_path case_name failures_list
                        else ret failures_list) failures_list
                    else ret failures_list
                | JUnit.Bare r =>
                    if JUnit.is_failure_or_error r then
                      record_test_failure verbose step file_path
                        (JUnit.suite_name suite) failures_list
                    else ret failures_list
                end) failures_list) failures_list
        | _ =>
            run logger WARNING
              ("Attempted to parse " +:+ file_path +:+
               ", but it doesn't seem to be a JUnit results file.") in
            ret failures_list
        end) failures_list) [] in
  for_each failures_list (fun failures failure =>
    ret (failures ++
         [new_Failure (d_step failure) (d_failure_type failure)
            (d_failed_test_name failure) (d_failed_test_junit_path failure)])) [].

(** The rule loop of [_find_failures] (lines 361-363): every rule, in
    order, assigns the flag. *)
Definition apply_rules (rules : list FailureRule) (failure : Failure) : Failure :=
  match rules with
  | [] => failure
  | _ =>
      fold_left (fun failure rule =>
                   set_ignore (matches_failure rule failure && rule_ignore rule) failure)
        rules failure
  end.

(** The loop that combines the two lists (lines 354-364): the state is
    [failures_list] and [unique_steps_with_failures]. *)
Definition combine (rules : list FailureRule) (all : list Failure)
  : list Failure * gset string :=
  fold_left (fun '(failures_list, unique_steps_with_failures) failure =>
               if bool_decide (step failure ∉ unique_steps_with_failures) then
                 (failures_list ++ [apply_rules rules failure],
                  unique_steps_with_failures ∪ {[step failure]})
               else (failures_list, unique_steps_with_failures))
    all ([], ∅).

(** [Job._find_failures] *)
Definition _find_failures (config : Configuration) (logs_dir junit_dir : string)
  : M (option (list Failure)) :=
  let* pod_failures := _find_pod_failures logs_dir in
  let* test_failures := _find_test_failures config junit_dir in
  let failures_list := (combine (failure_rules config) (test_failures ++ pod_failures)).1 in
  if (0 <? length failures_list)%nat then ret (Some failures_list) else ret None.

(** [any(failure.failure_type == kind for failure in failures or [])] *)
Definition any_of_type (kind : string) (failures : option (list Failure)) : bool :=
  existsb (fun failure => bool_decide (failure_type failure = kind)) (default [] failures).

(** [Job.__init__]; [getenv] and [storage_client] are the environment and
    the storage backend of the run. *)
Definition __init__ (getenv : string -> option string) (storage_client : Storage)
    (name name_safe : string) (build_id : option string) (gcs_bucket : string)
    (firewatch_config : Configuration) (pr_id : option string) : M t :=
  let self_name := Py.or_else (Some name) (getenv "JOB_NAME") in
  let self_name_safe := Py.or_else (Some name_safe) (getenv "JOB_NAME_SAFE") in
  let self_build_id := Py.or_else build_id (getenv "BUILD_ID") in
  let* self_is_rehearsal := _check_is_rehearsal self_name self_build_id in
  let* self_pr_id :=
    if self_is_rehearsal then derive_pr_id getenv (fmt self_name) pr_id
    else ret "" in
  let* self_steps :=
    _get_steps self_is_rehearsal self_name self_name_safe self_build_id
      storage_client gcs_bucket in
  let* self_download_path := _get_download_path self_build_id in
  let* self_logs_dir :=
    _download_logs self_is_rehearsal self_download_path storage_client gcs_bucket
      self_name self_build_id self_name_safe self_pr_id in
  let* self_junit_dir :=
    _download_junit self_is_rehearsal self_download_path storage_client gcs_bucket
      self_name self_build_id self_name_safe self_pr_id in
  let* self_failures := _find_failures firewatch_config self_logs_dir self_junit_dir in
  ret {| name := self_name;
         name_safe := self_name_safe;
         build_id := self_build_id;
         is_rehearsal := self_is_rehearsal;
         pr_id := self_pr_id;
         firewatch_config := firewatch_config;
         gcs_bucket := gcs_bucket;
         steps := self_steps;
         download_path := self_download_path;
         logs_dir := self_logs_dir;
         junit_dir := self_junit_dir;
         failures := self_failures;
         has_test_failures := any_of_type "test_failure" self_failures;
         has_pod_failures := any_of_type "pod_failure" self_failures;
         has_failures := bool_decide (is_Some self_failures) |}.

End Job.

(** * Specification vocabulary

    The notions the statements below are phrased with. *)

Module Spec.

(** The last rule, in configured order, that matches the failure. *)
Definition last_matching (rules : list FailureRule) (f : Failure) : option FailureRule :=
  last (filter (fun r => Is_true (matches_failure r f)) rules).

(** A rule for one step, as a configuration would state it. *)
Definition rule_for_step (s : string) (ign : bool) : FailureRule :=
  {| matches_failure := fun f => bool_decide (step f = s); rule_ignore := ign |}.

(** The failures of a list that are first of their step, given the steps
    [seen] so far. *)
Fixpoint first_of_step (seen : gset string) (l : list Failure) : list Failure :=
  match l with
  | [] => []
  | f :: r =>
      if bool_decide (step f ∉ seen) then f :: first_of_step (seen ∪ {[step f]}) r
      else first_of_step seen r
  end.

(** The world after one more record in the log. *)
Definition logged (w : World) (l : level) (msg : string) : World :=
  {| fs := fs w; log := log w ++ [(l, msg)] |}.

(** A computation that never ends the process. *)
Definition never_exits {A} (m : M A) : Prop :=
  forall w code, (m w).1 <> Exit code.

(** The key prefix step discovery lists. *)
Definition steps_prefix (job_name build_id job_name_safe : option string) : string :=
  "logs/" +:+ fmt job_name +:+ "/" +:+ fmt build_id +:+ "/artifacts/" +:+ fmt job_name_safe.

(** The second-to-last path segment of an object key. *)
Definition second_to_last_segment (key : string) : option string :=
  Py.index (Py.split "/" key) (-2).

(** The values [__init__] keeps as [self.name], [self.name_safe] and
    [self.build_id]: the argument, or the environment's when it is empty. *)
Definition resolved_name (getenv : string -> option string) (name : string) : option string :=
  Py.or_else (Some name) (getenv "JOB_NAME").

Definition resolved_name_safe (getenv : string -> option string) (name_safe : string)
  : option string :=
  Py.or_else (Some name_safe) (getenv "JOB_NAME_SAFE").

Definition resolved_build_id (getenv : string -> option string) (build_id : option string)
  : option string :=
  Py.or_else build_id (getenv "BUILD_ID").


(** The [Failure] a dictionary of [_find_test_failures] becomes. *)
Definition to_Failure (d : failure_dict) : Failure :=
  new_Failure (d_step d) (d_failure_type d) (d_failed_test_name d)
    (d_failed_test_junit_path d).

(** The tuple that identifies a failure: step, kind, test name, report path. *)
Definition failure_key (f : Failure) : string * string * option string * option string :=
  (step f, failure_type f, failed_test_name f, failed_test_junit_path f).

(** [c] occurs in [s]. *)
Fixpoint has_char (c : ascii) (s : string) : bool :=
  match s with
  | EmptyString => false
  | String a r => Ascii.eqb a c || has_char c r
  end.

(** The document reports a failure or an error under [name]: the name of
    a case with a failure or error among its results, or the name of the
    suite for a bare failure or error element. *)
Definition reported_in (doc : JUnit.doc) (name : option string) : Prop :=
  exists suite, suite ∈ doc /\
    ((exists results r, JUnit.Case name results ∈ JUnit.suite_items suite /\
        r ∈ results /\ JUnit.is_failure_or_error r = true) \/
     (exists r, JUnit.Bare r ∈ JUnit.suite_items suite /\
        JUnit.is_failure_or_error r = true /\ name = JUnit.suite_name suite)).

(** [path] names a file the walk from [top] reaches, holding the test
    report [doc]. *)
Definition report_at (top : string) (root : Fs.node) (path : string) (doc : JUnit.doc)
  : Prop :=
  exists r dirs files file,
    (r, dirs, files) ∈ Fs.walk top root /\ file ∈ files /\
    path = OsPath.join r file /\
    Fs.resolve (Fs.segments path) root = Some (Fs.File (JUnitDoc doc)).

(** A name a directory entry can have: not empty, no slash. *)
Definition valid_name (s : string) : bool :=
  negb (bool_decide (s = "")) && negb (has_char "/" s).

(** A well-formed directory tree: entry names are valid and no two
    entries of a directory share a name. *)
Fixpoint wf (n : Fs.node) : bool :=
  match n with
  | Fs.File _ => true
  | Fs.Dir es =>
      bool_decide (NoDup (map fst es)) && forallb valid_name (map fst es) &&
      (fix all (l : list (string * Fs.node)) : bool :=
         match l with
         | [] => true
         | (_, c) :: r => wf c && all r
         end) es
  end.

(** The files of a tree, each with the name of the directory that holds it
    ([parent] for the files at the top), in the order of the walk: the files
    of a directory, then its subdirectories in turn. *)
Fixpoint files_below (parent : string) (n : Fs.node) : list (string * string * payload) :=
  match n with
  | Fs.File _ => []
  | Fs.Dir es =>
      omap (fun e => match e.2 with
                     | Fs.File d => Some (parent, e.1, d)
                     | Fs.Dir _ => None
                     end) es ++
      (fix below (l : list (string * Fs.node)) :=
         match l with
         | [] => []
         | (name, c) :: r =>
             match c with
             | Fs.Dir _ => files_below name c
             | Fs.File _ => []
             end ++ below r
         end) es
  end.

(** What a job-result record asks for: a pod failure of the step when
    [passed] is absent or false, nothing otherwise. *)
Definition emitted (parent : string) (members : list (string * Json.t)) : list Failure :=
  match Json.lookup "passed" members with
  | None | Some (Json.Bool false) => [new_Failure parent "pod_failure" None None]
  | Some _ => []
  end.

(** What one file of the logs tree contributes: nothing unless it is a
    [finished.json] holding a record. *)
Definition pod_verdict (file : string * string * payload) : list Failure :=
  let '(dir, name, d) := file in
  if bool_decide (name = "finished.json") then
    match d with
    | JsonDoc (Json.Obj members) => emitted dir members
    | _ => []
    end
  else [].

(** The pod failures of a logs tree: those of its [finished.json] files. *)
Definition pod_failures_of (parent : string) (n : Fs.node) : list Failure :=
  flat_map pod_verdict (files_below parent n).

(** Every [finished.json] of the tree holds a record. *)
Definition finished_are_records (parent : string) (n : Fs.node) : Prop :=
  Forall (fun '(dir, name, d) =>
            name = "finished.json" -> exists members, d = JsonDoc (Json.Obj members))
    (files_below parent n).

(** The first path segment of a key below a prefix. *)
Definition first_segment_below (prefix key : string) : option string :=
  if Py.startswith key (prefix +:+ "/") then
    head (Py.split "/" (Py.drop (String.length prefix + 1) key))
  else None.

(** The node a path names on a disk. *)
Definition at_path (p : string) (w : World) : option Fs.node :=
  Fs.resolve (Fs.segments p) (fs w).

(** The name the suffix loop of [_download_junit] tries at its [n]-th
    round. *)
Definition suffixed (filename extension : string) (n : nat) : string :=
  filename +:+ "_" +:+ Py.str n +:+ extension.

(** A computation that leaves every file of the disk in place, with its
    content, however it ends. *)
Definition keeps_files {A} (m : M A) : Prop :=
  forall w q d,
    Fs.resolve q (fs w) = Some (Fs.File d) ->
    Fs.resolve q (fs (m w).2) = Some (Fs.File d).

(** An end of a call that is not a loop that goes on for ever. *)
Definition ends {A} (r : outcome A * World) : Prop := r.1 <> Diverge.

(** A computation that adds no file to the disk but such as [Q] allows,
    by their path segments and content. *)
Definition adds_only (Q : list string -> payload -> Prop) {A} (m : M A) : Prop :=
  forall w q d,
    Fs.resolve q (fs (m w).2) = Some (Fs.File d) ->
    Fs.resolve q (fs w) = Some (Fs.File d) \/ Q q d.

(** The files the log pass may write: a listed object whose last key
    segment is on the allow-list, at its step and name under the logs
    directory. *)
Definition log_file_of (blobs : list Blob.t) (logs_dir : string)
    (q : list string) (d : payload) : Prop :=
  exists blob bname bstep,
    blob ∈ blobs /\
    Py.index (Py.split "/" (Blob.name blob)) (-1) = Some bname /\
    Py.index (Py.split "/" (Blob.name blob)) (-2) = Some bstep /\
    bname ∈ ["finished.json"; "build-log.txt"] /\
    q = Fs.segments (logs_dir +:+ "/" +:+ bstep +:+ "/" +:+ bname) /\
    d = Blob.data blob.

(** The files the report pass may write: a listed object whose last key
    segment holds [junit], somewhere under the segment of index 5 of its
    key in the artifacts directory. *)
Definition report_file_of (blobs : list Blob.t) (junit_dir : string)
    (q : list string) (d : payload) : Prop :=
  exists blob bname bstep leaf,
    blob ∈ blobs /\
    Py.index (Py.split "/" (Blob.name blob)) (-1) = Some bname /\
    Py.contains "junit" bname = true /\
    Py.index (Py.split "/" (Blob.name blob)) 5 = Some bstep /\
    q = Fs.segments ((junit_dir +:+ "/" +:+ bstep) +:+ "/" +:+ leaf) /\
    d = Blob.data blob.

(** A round of the test scan, started on the disk of [w], leaves the disk
    as it is and drops nothing from the list. *)
Definition grows (w : World) (round : list failure_dict -> M (list failure_dict)) : Prop :=
  forall acc w1 acc' w1',
    fs w1 = fs w -> round acc w1 = (Ok acc', w1') -> fs w1' = fs w /\ acc ⊆ acc'.

(** A round of the test scan after which [d] is in the list. *)
Definition records (w : World) (d : failure_dict)
    (round : list failure_dict -> M (list failure_dict)) : Prop :=
  forall acc w1 acc' w1',
    fs w1 = fs w -> round acc w1 = (Ok acc', w1') -> d ∈ acc'.

(** The dictionary the test scan builds for a failure of the case or
    suite [name] reported by the document at [path] of step [s]. *)
Definition expected_dict (verbose : bool) (s path : string) (name : option string)
  : failure_dict :=
  mkDict s "test_failure"
    (if verbose then Py.replace " " "_" <$> name else None)
    (if verbose then Some path else None).

(** A computation whose every run, however it ends, takes the disk to one
    that [R] relates to the disk it started on. *)
Definition evolves (R : relation Fs.node) {A} (m : M A) : Prop :=
  forall w, R (fs w) (fs (m w).2).

(** Every path that names something on [n] names something on [n']. *)
Definition paths_kept (n n' : Fs.node) : Prop :=
  forall q, is_Some (Fs.resolve q n) -> is_Some (Fs.resolve q n').

End Spec.

(** * Sample worlds

    Concrete storage contents, configurations and file systems the
    statements are evaluated on. *)

Module Sample.

(** A pod failure of step [build], and two rules: the first matches it and
    directs ignore, the second is for another step. *)
Definition pod_build : Failure := new_Failure "build" "pod_failure" None None.

Definition rules_build_then_deploy : list FailureRule :=
  [Spec.rule_for_step "build" true; Spec.rule_for_step "deploy" false].

(** An environment with no variable set, and a scratch disk holding [/tmp]. *)
Definition no_env : string -> option string := fun _ => None.

Definition empty_disk : World := {| fs := Fs.Dir [("tmp", Fs.Dir [])]; log := [] |}.

Definition no_rules : Configuration :=
  {| failure_rules := []; verbose_test_failure_reporting := true |}.

(** A bucket with nothing in it. *)
Definition empty_storage : Storage := fun _ => [].

(** A periodic job with two objects under the step [build]. *)
Definition periodic_storage : Storage := fun bucket =>
  if bool_decide (bucket = "origin-ci-test") then
    [ {| Blob.name := "logs/periodic-ci-foo/77/artifacts/foo/build/finished.json";
         Blob.data := JsonDoc (Json.Obj [("passed", Json.Bool false)]) |};
      {| Blob.name := "logs/periodic-ci-foo/77/artifacts/foo/build/build-log.txt";
         Blob.data := Opaque "error: build failed" |} ]
  else [].


(** A scratch disk holding one downloaded report with a case that failed
    twice and a case whose name has spaces. *)
Definition report_disk : World :=
  {| fs := Fs.Dir [("tmp", Fs.Dir [("77", Fs.Dir [("artifacts", Fs.Dir [("build", Fs.Dir
             [("junit_a.xml",
               Fs.File (JUnitDoc
                 [JUnit.Suite (Some "suite")
                    [JUnit.Case (Some "test x") [JUnit.Failure; JUnit.Failure];
                     JUnit.Case (Some "test x") [JUnit.Error];
                     JUnit.Case (Some "passes") []]]))])])])])];
     log := [] |}.

(** A downloaded logs tree: the step [build] failed, [test] has no
    [passed] field, [deploy] passed. *)
Definition logs_disk : World :=
  {| fs := Fs.Dir [("tmp", Fs.Dir [("77", Fs.Dir [("logs", Fs.Dir
             [("build", Fs.Dir
                 [("finished.json",
                   Fs.File (JsonDoc (Json.Obj [("passed", Json.Bool false)])));
                  ("build-log.txt", Fs.File (Opaque "error: build failed"))]);
              ("test", Fs.Dir
                 [("finished.json",
                   Fs.File (JsonDoc (Json.Obj [("result", Json.Str "FAILURE")])))]);
              ("deploy", Fs.Dir
                 [("finished.json",
                   Fs.File (JsonDoc (Json.Obj [("passed", Json.Bool true)])))])])])])];
     log := [] |}.

(** The directory [/tmp/77/logs] of that disk. *)
Definition logs_tree : Fs.node :=
  default (Fs.Dir []) (Fs.resolve ["tmp"; "77"; "logs"] (fs logs_disk)).

(** A scratch disk holding the download root of build [99]. *)
Definition disk_99 : World :=
  {| fs := Fs.Dir [("tmp", Fs.Dir [("99", Fs.Dir [])])]; log := [] |}.

Definition one_failing_report : payload :=
  JUnitDoc [JUnit.Suite (Some "suite") [JUnit.Case (Some "test x") [JUnit.Failure]]].

(** The key of a report of step [step1] of a rehearsal job. *)
Definition rehearsal_report_key : string :=
  "pr-logs/pull/openshift_release/123/rehearse-123-foo/99/artifacts/foo/step1/artifacts/junit_report.xml".

Definition rehearsal_storage : Storage := fun bucket =>
  if bool_decide (bucket = "origin-ci-test") then
    [ {| Blob.name := rehearsal_report_key; Blob.data := one_failing_report |} ]
  else [].

(** A periodic job whose step [build] holds a [finished.json], and so
    does a directory [build] further down; the same for a report. *)
Definition nested_storage : Storage := fun bucket =>
  if bool_decide (bucket = "origin-ci-test") then
    [ {| Blob.name := "logs/periodic-ci-foo/99/artifacts/foo/build/artifacts/junit_a.xml";
         Blob.data := one_failing_report |};
      {| Blob.name := "logs/periodic-ci-foo/99/artifacts/foo/build/finished.json";
         Blob.data := JsonDoc (Json.Obj [("passed", Json.Bool false)]) |};
      {| Blob.name := "logs/periodic-ci-foo/99/artifacts/foo/build/retry/build/finished.json";
         Blob.data := JsonDoc (Json.Obj [("passed", Json.Bool true)]) |};
      {| Blob.name := "logs/periodic-ci-foo/99/artifacts/foo/build/retry/junit_a.xml";
         Blob.data := one_failing_report |} ]
  else [].

(** A configuration with no rules and plain (not verbose) reporting. *)
Definition plain_reporting : Configuration :=
  {| failure_rules := []; verbose_test_failure_reporting := false |}.

(** A configuration with the two rules above and plain reporting. *)
Definition two_rules : Configuration :=
  {| failure_rules := rules_build_then_deploy; verbose_test_failure_reporting := false |}.

(** A scratch disk holding both a failed [finished.json] and a report with
    a failing case for the step [build]. *)
Definition mixed_disk : World :=
  {| fs := Fs.Dir [("tmp", Fs.Dir [("77", Fs.Dir
             [("logs", Fs.Dir [("build", Fs.Dir
                 [("finished.json",
                   Fs.File (JsonDoc (Json.Obj [("passed", Json.Bool false)])))])]);
              ("artifacts", Fs.Dir [("build", Fs.Dir
                 [("junit_a.xml", Fs.File one_failing_report)])])])])];
     log := [] |}.

End Sample.

(** * Verification *)

(** ** Classification and the per-step slot ([_find_failures]) *)

Module Classify.

Import Job Spec.

(** The flag setting leaves the other fields alone. *)
Lemma step_set_ignore b f : step (set_ignore b f) = step f.
Proof. reflexivity. Qed.

Lemma rule_loop_fields (rules : list FailureRule) : forall f,
  let g := fold_left (fun failure rule =>
             set_ignore (matches_failure rule failure && rule_ignore rule) failure)
             rules f in
  step g = step f /\ failure_type g = failure_type f /\
  failed_test_name g = failed_test_name f /\
  failed_test_junit_path g = failed_test_junit_path f.
Proof.
  induction rules as [|r rules IH]; intros f; cbn; [tauto|].
  destruct (IH (set_ignore (matches_failure r f && rule_ignore r) f)) as (H1 & H2 & H3 & H4).
  cbn in *. rewrite H1, H2, H3, H4. tauto.
Qed.

Lemma apply_rules_fields rules f :
  step (apply_rules rules f) = step f /\
  failure_type (apply_rules rules f) = failure_type f /\
  failed_test_name (apply_rules rules f) = failed_test_name f /\
  failed_test_junit_path (apply_rules rules f) = failed_test_junit_path f.
Proof.
  unfold apply_rules. destruct rules as [|r rules]; [tauto|].
  apply (rule_loop_fields (r :: rules) f).
Qed.

Lemma step_apply_rules rules f : step (apply_rules rules f) = step f.
Proof. apply apply_rules_fields. Qed.

(** With no rule configured the failure is left as it is. *)
Lemma apply_rules_nil f : apply_rules [] f = f.
Proof. reflexivity. Qed.

(** What the rule loop computes: the flag is the verdict of the rule
    configured last, whatever the rules before it said. *)
Lemma apply_rules_snoc rules r f :
  apply_rules (rules ++ [r]) f =
  set_ignore (matches_failure r (apply_rules rules f) && rule_ignore r)
    (apply_rules rules f).
Proof.
  unfold apply_rules.
  destruct (rules ++ [r]) as [|x l] eqn:E.
  - destruct rules; discriminate.
  - rewrite <- E, fold_left_app. cbn. destruct rules; reflexivity.
Qed.

Lemma combine_loop rules l : forall acc seen,
  (fold_left (fun '(failures_list, unique_steps_with_failures) failure =>
               if bool_decide (step failure ∉ unique_steps_with_failures) then
                 (failures_list ++ [apply_rules rules failure],
                  unique_steps_with_failures ∪ {[step failure]})
               else (failures_list, unique_steps_with_failures))
     l (acc, seen)).1 = acc ++ map (apply_rules rules) (first_of_step seen l).
Proof.
  induction l as [|f l IH]; intros acc seen; cbn.
  - by rewrite app_nil_r.
  - destruct (bool_decide (step f ∉ seen)); cbn.
    + by rewrite IH, <- app_assoc.
    + apply IH.
Qed.

Lemma combine_first_of_step rules l :
  (combine rules l).1 = map (apply_rules rules) (first_of_step ∅ l).
Proof. unfold combine. by rewrite combine_loop. Qed.

Lemma first_of_step_fresh l : forall seen f,
  f ∈ first_of_step seen l -> step f ∉ seen.
Proof.
  induction l as [|x l IH]; intros seen f; cbn; [by intros ?%elem_of_nil|].
  case_bool_decide as Hx.
  - intros [->|Hf]%elem_of_cons; [done|]. apply IH in Hf. set_solver.
  - apply IH.
Qed.

Lemma first_of_step_NoDup l : forall seen, NoDup (map step (first_of_step seen l)).
Proof.
  induction l as [|x l IH]; intros seen; cbn; [constructor|].
  case_bool_decide as Hx; [|apply IH].
  cbn. constructor; [|apply IH].
  intros (g & Hg & Hin)%list_elem_of_fmap.
  apply first_of_step_fresh in Hin. set_solver.
Qed.

Lemma first_of_step_covers l : forall seen f,
  f ∈ l -> step f ∈ seen \/ step f ∈ map step (first_of_step seen l).
Proof.
  induction l as [|x l IH]; intros seen f; [by intros ?%elem_of_nil|].
  intros [->|Hf]%elem_of_cons; cbn.
  - case_bool_decide as Hx.
    + right. cbn. apply elem_of_cons. by left.
    + left. by destruct (decide (step x ∈ seen)).
  - case_bool_decide as Hx.
    + destruct (IH (seen ∪ {[step x]}) f Hf) as [Hs|Hs].
      * apply elem_of_union in Hs as [Hs|Hs]; [by left|].
        right. cbn. apply elem_of_cons. left. set_solver.
      * right. cbn. apply elem_of_cons. by right.
    + by apply IH.
Qed.

Lemma first_of_step_first l : forall seen g,
  g ∈ first_of_step seen l ->
  exists i, l !! i = Some g /\
    forall j f, (j < i)%nat -> l !! j = Some f -> step f <> step g.
Proof.
  induction l as [|x l IH]; intros seen g; cbn; [by intros ?%elem_of_nil|].
  case_bool_decide as Hx.
  - intros [->|Hg]%elem_of_cons.
    + exists O. split; [done|]. intros j f Hj. lia.
    + pose proof (first_of_step_fresh _ _ _ Hg) as Hfresh.
      destruct (IH _ _ Hg) as (i & Hi & Hlt).
      exists (S i). split; [done|].
      intros [|j] f Hj Hf; cbn in Hf.
      * injection Hf as <-. set_solver.
      * apply (Hlt j); [lia|done].
  - intros Hg. pose proof (first_of_step_fresh _ _ _ Hg) as Hfresh.
    destruct (IH _ _ Hg) as (i & Hi & Hlt).
    exists (S i). split; [done|].
    intros [|j] f Hj Hf; cbn in Hf.
    + injection Hf as <-. intros E. rewrite E in Hx. by destruct (decide (step g ∈ seen)).
    + apply (Hlt j); [lia|done].
Qed.

(** The combined list is what [_find_failures] returns, [None] standing
    for the empty one. *)
Lemma _find_failures_combines config logs_dir junit_dir w pods w1 tests w2 :
  _find_pod_failures logs_dir w = (Ok pods, w1) ->
  _find_test_failures config junit_dir w1 = (Ok tests, w2) ->
  _find_failures config logs_dir junit_dir w =
  (Ok (match (combine (failure_rules config) (tests ++ pods)).1 with
       | [] => None
       | out => Some out
       end), w2).
Proof.
  intros Hp Ht. unfold _find_failures, bind. rewrite Hp, Ht.
  by destruct (combine (failure_rules config) (tests ++ pods)).1.
Qed.

(** C1, evaluated on the code: with the rules [build: ignore] then
    [deploy: do not ignore], the last rule that matches a failure of step
    [build] is the first one and directs ignore, yet the failure leaves the
    classifier with its flag off: the rule for [deploy], which does not match,
    has assigned the flag last. *)
Theorem non_matching_last_rule_resets_flag :
  rule_ignore <$> last_matching Sample.rules_build_then_deploy Sample.pod_build = Some true /\
  ignore <$> (combine Sample.rules_build_then_deploy ([] ++ [Sample.pod_build])).1 = [false].
Proof. split; reflexivity. Qed.

(** The combining loop on the two lists, the first before the second: it
    keeps one failure per step, the first of that step in this order (with
    its flag set by the rules), and drops a later failure of a step already
    kept. *)
Lemma combine_first_wins rules (test_failures pod_failures : list Failure) :
  let all := test_failures ++ pod_failures in
  let out := (combine rules all).1 in
  NoDup (map step out) /\
  (forall f, f ∈ all -> step f ∈ map step out) /\
  (forall g, g ∈ out ->
     exists i f, all !! i = Some f /\ g = apply_rules rules f /\
       forall j f', (j < i)%nat -> all !! j = Some f' -> step f' <> step f) /\
  (forall t kind test_name path flag,
     (combine rules ([t] ++ [mkFailure (step t) kind test_name path flag])).1 =
     [apply_rules rules t]).
Proof.
  intros all out. subst out. rewrite combine_first_of_step.
  assert (Hsteps : map step (map (apply_rules rules) (first_of_step ∅ all)) =
                   map step (first_of_step ∅ all)).
  { rewrite map_map. apply map_ext. intros f. apply step_apply_rules. }
  repeat split.
  - rewrite Hsteps. apply first_of_step_NoDup.
  - intros f Hf. rewrite Hsteps.
    destruct (first_of_step_covers all ∅ f Hf) as [H|H]; [set_solver|done].
  - intros g (f & -> & Hf)%list_elem_of_fmap.
    destruct (first_of_step_first _ _ _ Hf) as (i & Hi & Hlt).
    exists i, f. repeat split; [done|]. intros j f' Hj Hf'. by apply (Hlt j).
  - intros t kind test_name path flag. rewrite combine_first_of_step. cbn.
    rewrite bool_decide_true by set_solver. cbn.
    rewrite bool_decide_false by set_solver. done.
Qed.

End Classify.

(** ** The monad: equations and invariants of loops *)

Module MonadFacts.

Import Spec.

Lemma bind_ok {A B} (m : M A) (k : A -> M B) w a w' :
  m w = (Ok a, w') -> bind m k w = k a w'.
Proof. intros H. unfold bind. by rewrite H. Qed.

Lemma bind_ok_inv {A B} (m : M A) (k : A -> M B) w b w' :
  bind m k w = (Ok b, w') -> exists a w1, m w = (Ok a, w1) /\ k a w1 = (Ok b, w').
Proof.
  unfold bind. destruct (m w) as [[a|e|c|] w1]; try discriminate. eauto.
Qed.

Lemma for_each_cons {A S} (x : A) (r : list A) (body : S -> A -> M S) acc :
  for_each (x :: r) body acc = bind (body acc x) (for_each r body).
Proof. reflexivity. Qed.

Lemma for_each_nil {A S} (body : S -> A -> M S) acc w :
  for_each [] body acc w = (Ok acc, w).
Proof. reflexivity. Qed.

Lemma for_each_app {A S} (l1 l2 : list A) (body : S -> A -> M S) acc w :
  for_each (l1 ++ l2) body acc w =
  bind (for_each l1 body acc) (for_each l2 body) w.
Proof.
  revert acc w. induction l1 as [|x l1 IH]; intros acc w; cbn; [done|].
  unfold bind in *. by destruct (body acc x w) as [[a|e|c|] w1].
Qed.

(** A property of the accumulator and the world that every round of a
    loop keeps holds when the loop returns. *)
Lemma for_each_inv {A S} (P : S -> World -> Prop) (l : list A) (body : S -> A -> M S) :
  (forall acc x w acc' w', x ∈ l -> P acc w -> body acc x w = (Ok acc', w') -> P acc' w') ->
  forall acc w acc' w', P acc w -> for_each l body acc w = (Ok acc', w') -> P acc' w'.
Proof.
  induction l as [|x l IH]; intros Hbody acc w acc' w' HP; cbn.
  - by intros [= <- <-].
  - intros (a & w1 & Hx & Hrest)%bind_ok_inv.
    eapply IH; [|eapply Hbody; [|done..]|done].
    + intros ? y ? ? ? Hy. apply Hbody. by apply elem_of_cons; right.
    + by apply elem_of_cons; left.
Qed.

Lemma never_exits_ret {A} (a : A) : never_exits (ret a).
Proof. by intros w c. Qed.

Lemma never_exits_raise {A} e : never_exits (@raise A e).
Proof. by intros w c. Qed.

Lemma never_exits_diverge {A} : never_exits (@diverge A).
Proof. by intros w c. Qed.

Lemma never_exits_bind {A B} (m : M A) (k : A -> M B) :
  never_exits m -> (forall a, never_exits (k a)) -> never_exits (bind m k).
Proof.
  intros Hm Hk w c. unfold bind. specialize (Hm w).
  destruct (m w) as [[a|e|c'|] w1]; cbn in *; try done.
  - apply Hk.
  - intros [= ->]. by apply (Hm c).
Qed.


Lemma never_exits_for_each {A S} (l : list A) (body : S -> A -> M S) :
  (forall acc x, never_exits (body acc x)) -> forall acc, never_exits (for_each l body acc).
Proof.
  intros Hbody. induction l as [|x l IH]; intros acc; cbn.
  - apply never_exits_ret.
  - by apply never_exits_bind.
Qed.

Lemma never_exits_or_raise {A} e (o : option A) : never_exits (or_raise e o).
Proof. destruct o; [apply never_exits_ret|apply never_exits_raise]. Qed.

Lemma never_exits_logger l msg : never_exits (logger l msg).
Proof. by intros w c. Qed.

Lemma never_exits_path_exists p : never_exits (path_exists p).
Proof. by intros w c. Qed.

Lemma never_exits_os_walk p : never_exits (os_walk p).
Proof. by intros w c. Qed.

Lemma never_exits_read_file p : never_exits (read_file p).
Proof.
  intros w c. unfold read_file.
  by destruct (Fs.resolve _ _) as [[]|].
Qed.

Lemma create_never_exits segs : forall name new n code,
  Fs.create segs name new n <> Exit code.
Proof.
  induction segs as [|s segs IH]; intros name new [d|es] code; cbn; try done.
  - by destruct (Fs.entry name es).
  - destruct (Fs.entry s es) as [c|]; [|done].
    specialize (IH name new c). by destruct (Fs.create segs name new c).
Qed.

Lemma never_exits_create_path p new : never_exits (lift_fs (Fs.create_path p new)).
Proof.
  intros w c. unfold lift_fs, Fs.create_path.
  destruct (Fs.segments p) as [|s r]; [done|].
  pose proof (create_never_exits (removelast (s :: r)) (List.last (s :: r) s) new (fs w)) as H.
  destruct (Fs.create _ _ _ _); try done. intros [= ->]. by apply (H c).
Qed.

Lemma never_exits_when c (body : M unit) : never_exits body -> never_exits (when c body).
Proof. intros H. destruct c; [done|apply never_exits_ret]. Qed.

Lemma never_exits_if {A} (c : bool) (m1 m2 : M A) :
  never_exits m1 -> never_exits m2 -> never_exits (if c then m1 else m2).
Proof. by destruct c. Qed.

Create HintDb never_exits.

#[export] Hint Resolve never_exits_ret never_exits_raise never_exits_diverge
  never_exits_or_raise never_exits_logger never_exits_path_exists never_exits_os_walk
  never_exits_read_file never_exits_create_path : never_exits.

(** Goals [never_exits m], by the structure of [m]. *)
Ltac no_exit :=
  repeat first
    [ solve [auto with never_exits]
    | apply never_exits_bind; [|intros ?]
    | apply never_exits_for_each; intros ? ?
    | apply never_exits_when
    | apply never_exits_if
    | match goal with
      | |- never_exits (match ?x with _ => _ end) => destruct x
      end ].

End MonadFacts.

(** ** Facts on strings and paths *)

Module StringFacts.

Lemma sapp_cons c (s t : string) : String c s +:+ t = String c (s +:+ t).
Proof. reflexivity. Qed.

Lemma sapp_nil_l (t : string) : "" +:+ t = t.
Proof. reflexivity. Qed.

Lemma split_cons sep c s :
  Py.split sep (String c s) =
  if Ascii.eqb c sep then "" :: Py.split sep s
  else match Py.split sep s with
       | [] => [String c ""]
       | h :: t => String c h :: t
       end.
Proof. reflexivity. Qed.

Lemma split_length_pos sep s : (1 <= length (Py.split sep s))%nat.
Proof.
  induction s as [|c s IH]; [cbn; lia|].
  rewrite split_cons. destruct (Ascii.eqb c sep); [cbn; lia|].
  destruct (Py.split sep s); cbn in *; lia.
Qed.

Lemma split_length_cons sep c s :
  length (Py.split sep (String c s)) =
  if Ascii.eqb c sep then S (length (Py.split sep s)) else length (Py.split sep s).
Proof.
  rewrite split_cons. destruct (Ascii.eqb c sep); [done|].
  pose proof (split_length_pos sep s). destruct (Py.split sep s); cbn in *; lia.
Qed.

(** A key has at least as many segments as any of its prefixes. *)
Lemma split_length_prefix sep p : forall k,
  String.prefix p k = true -> (length (Py.split sep p) <= length (Py.split sep k))%nat.
Proof.
  induction p as [|a p IH]; intros k Hk.
  - apply split_length_pos.
  - destruct k as [|b k]; [discriminate|]. cbn in Hk.
    destruct (ascii_dec a b) as [->|]; [|discriminate].
    rewrite !split_length_cons. specialize (IH k Hk).
    destruct (Ascii.eqb b sep); lia.
Qed.

Lemma index_second_to_last {A} (l : list A) :
  (2 <= length l)%nat -> is_Some (Py.index l (-2)).
Proof.
  intros Hl. unfold Py.index.
  replace (-2 <? 0) with true by done.
  destruct (Z.ltb_spec (Z.of_nat (length l) + -2) 0) as [|_]; [lia|].
  apply lookup_lt_is_Some. lia.
Qed.

End StringFacts.

(** ** Step discovery ([_get_steps]) and rehearsal jobs *)

Module Discovery.

Import Job Spec MonadFacts StringFacts.

(** Every key of the listing has a second-to-last segment: the prefix
    already has two segments. *)
Lemma listed_key_has_step st bucket job_name build_id job_name_safe b :
  b ∈ list_blobs st bucket (steps_prefix job_name build_id job_name_safe) ->
  is_Some (second_to_last_segment (Blob.name b)).
Proof.
  unfold list_blobs. intros [Hb _]%list_elem_of_filter.
  apply Is_true_true in Hb. unfold Py.startswith in Hb.
  apply index_second_to_last.
  etransitivity; [|apply (split_length_prefix _ _ _ Hb)].
  unfold steps_prefix. rewrite !sapp_cons, !split_length_cons. cbn.
  match goal with
  | |- (2 <= S (length (Py.split ?c ?s)))%nat => pose proof (split_length_pos c s)
  end. lia.
Qed.

Lemma steps_loop (blobs : list Blob.t) :
  Forall (fun b => is_Some (second_to_last_segment (Blob.name b))) blobs ->
  forall acc w, exists steps,
    Forall2 (fun b s => second_to_last_segment (Blob.name b) = Some s) blobs steps /\
    for_each blobs (fun steps blob =>
      let* blob_step := or_raise IndexError (Py.index (Py.split "/" (Blob.name blob)) (-2)) in
      ret (steps ++ [blob_step])) acc w = (Ok (acc ++ steps), w).
Proof.
  induction 1 as [|b blobs [s Hs] _ IH]; intros acc w.
  - exists []. split; [constructor|]. cbn. by rewrite app_nil_r.
  - destruct (IH (acc ++ [s]) w) as (steps & Hsteps & Hrun).
    exists (s :: steps). split; [by constructor|].
    unfold second_to_last_segment in Hs. rewrite for_each_cons.
    erewrite bind_ok; [|unfold bind; by rewrite Hs].
    by rewrite Hrun, <- app_assoc.
Qed.

(** What [_get_steps] returns: a step per listed key, in listing order. *)
Lemma get_steps_outcome is_rehearsal job_name job_name_safe build_id st bucket w :
  let blobs := list_blobs st bucket (steps_prefix job_name build_id job_name_safe) in
  exists steps,
    Forall2 (fun b s => second_to_last_segment (Blob.name b) = Some s) blobs steps /\
    _get_steps is_rehearsal job_name job_name_safe build_id st bucket w =
    if (0 <? length blobs)%nat || is_rehearsal then (Ok steps, w)
    else (Exit 1, logged w ERROR ("No steps found for job " +:+ fmt job_name)).
Proof.
  intros blobs.
  destruct (steps_loop blobs) with (acc := @nil string) (w := w) as (steps & Hsteps & Hrun).
  { apply Forall_forall. intros b Hb. by eapply listed_key_has_step. }
  exists steps. split; [done|].
  unfold _get_steps. fold (steps_prefix job_name build_id job_name_safe). fold blobs.
  unfold bind at 1. rewrite Hrun. cbn [app].
  rewrite <- (Forall2_length _ _ _ Hsteps).
  by destruct ((0 <? length blobs)%nat || is_rehearsal).
Qed.

Lemma check_is_rehearsal_outcome job_name build_id w a w' :
  _check_is_rehearsal job_name build_id w = (Ok a, w') ->
  exists n, job_name = Some n /\ a = Py.startswith n "rehearse".
Proof.
  unfold _check_is_rehearsal. destruct job_name as [n|]; [|discriminate].
  cbn. unfold bind, ret. cbn. intros H. exists n. split; [done|].
  destruct (Py.startswith n "rehearse"); cbn in H; congruence.
Qed.

Lemma check_is_rehearsal_never_exits job_name build_id :
  never_exits (_check_is_rehearsal job_name build_id).
Proof. unfold _check_is_rehearsal. no_exit. Qed.

Lemma derive_pr_id_never_exits getenv name pr_id :
  never_exits (derive_pr_id getenv name pr_id).
Proof. unfold derive_pr_id. no_exit. Qed.

Lemma get_steps_rehearsal_never_exits job_name job_name_safe build_id st bucket :
  never_exits (_get_steps true job_name job_name_safe build_id st bucket).
Proof.
  unfold _get_steps. apply never_exits_bind; [no_exit|]. intros steps.
  rewrite orb_true_r. no_exit.
Qed.

Lemma get_download_path_never_exits build_id : never_exits (_get_download_path build_id).
Proof. unfold _get_download_path, mkdir. no_exit. Qed.

Lemma free_path_never_exits fuel : forall dir filename extension file_path file_counter,
  never_exits (free_path fuel dir filename extension file_path file_counter).
Proof.
  induction fuel as [|fuel IH]; intros; cbn; [no_exit|].
  apply never_exits_bind; [no_exit|]. intros [|]; no_exit.
Qed.

Lemma download_logs_never_exits r dir st bucket job_name build_id job_name_safe pr :
  never_exits (_download_logs r dir st bucket job_name build_id job_name_safe pr).
Proof. unfold _download_logs, mkdir, download_to_new_file. no_exit. Qed.

Lemma download_junit_never_exits r dir st bucket job_name build_id job_name_safe pr :
  never_exits (_download_junit r dir st bucket job_name build_id job_name_safe pr).
Proof.
  unfold _download_junit, mkdir, download_to_new_file. no_exit.
  intros w c. apply free_path_never_exits.
Qed.

Lemma find_pod_failures_never_exits logs_dir : never_exits (_find_pod_failures logs_dir).
Proof. unfold _find_pod_failures, scan_finished_json, json_load, get_passed. no_exit. Qed.

Lemma find_test_failures_never_exits config junit_dir :
  never_exits (_find_test_failures config junit_dir).
Proof. unfold _find_test_failures, record_test_failure, reported_name. no_exit. Qed.

Lemma find_failures_never_exits config logs_dir junit_dir :
  never_exits (_find_failures config logs_dir junit_dir).
Proof.
  unfold _find_failures.
  apply never_exits_bind; [apply find_pod_failures_never_exits|]. intros pods.
  apply never_exits_bind; [apply find_test_failures_never_exits|]. intros tests.
  no_exit.
Qed.

(** The rehearsal status and the pull-request id of a constructed job. *)
Lemma init_pr_id getenv st name name_safe build_id bucket config pr_id w job w' :
  __init__ getenv st name name_safe build_id bucket config pr_id w = (Ok job, w') ->
  exists n w1 w2,
    resolved_name getenv name = Some n /\
    is_rehearsal job = Py.startswith n "rehearse" /\
    if is_rehearsal job then derive_pr_id getenv n pr_id w1 = (Ok (Job.pr_id job), w2)
    else Job.pr_id job = "".
Proof.
  unfold __init__. intros H.
  apply bind_ok_inv in H as (r & w1 & Hcheck & H).
  apply bind_ok_inv in H as (pr & w2 & Hpr & H).
  do 5 (apply bind_ok_inv in H as (? & ? & _ & H)).
  injection H as <- _.
  apply check_is_rehearsal_outcome in Hcheck as (n & Hn & ->).
  exists n, w1, w2. unfold resolved_name. cbn [is_rehearsal Job.pr_id].
  split; [done|]. split; [done|].
  destruct (Py.startswith n "rehearse").
  - by rewrite Hn in Hpr.
  - by injection Hpr as <-.
Qed.

(** C3, as amended: step discovery returns the second-to-last path segment
    of every key listed under the non-rehearsal prefix, one entry per key
    and in listing order, so that a step with several objects is listed
    several times; with no key and no rehearsal it ends the process. *)
Theorem get_steps_one_entry_per_key is_rehearsal job_name job_name_safe build_id st bucket w :
  let blobs := list_blobs st bucket (steps_prefix job_name build_id job_name_safe) in
  exists steps,
    Forall2 (fun b s => second_to_last_segment (Blob.name b) = Some s) blobs steps /\
    _get_steps is_rehearsal job_name job_name_safe build_id st bucket w =
    if (0 <? length blobs)%nat || is_rehearsal then (Ok steps, w)
    else (Exit 1, logged w ERROR ("No steps found for job " +:+ fmt job_name)).
Proof. apply get_steps_outcome. Qed.

(** C3, as stated, fails: a step holding two objects is returned twice. *)
Lemma get_steps_repeats_step_of_two_objects :
  exists steps,
    _get_steps false (Some "periodic-ci-foo") (Some "foo") (Some "77")
      Sample.periodic_storage "origin-ci-test" Sample.empty_disk =
    (Ok steps, Sample.empty_disk) /\ ~ NoDup steps.
Proof.
  exists ["build"; "build"]. split; [reflexivity|].
  intros H. apply NoDup_cons in H as [H _]. apply H. by apply elem_of_cons; left.
Qed.





End Discovery.

(** ** Test scanning ([_find_test_failures]) *)

Module TestScan.

Import Job Spec MonadFacts.

Lemma logger_run l msg w : logger l msg w = (Ok tt, logged w l msg).
Proof. reflexivity. Qed.

Lemma read_file_ok_inv p w d w' :
  read_file p w = (Ok d, w') ->
  w' = w /\ Fs.resolve (Fs.segments p) (fs w) = Some (Fs.File d).
Proof.
  unfold read_file. destruct (Fs.resolve _ _) as [[d0|es]|]; try discriminate.
  by intros [= -> ->].
Qed.

(** What one call of the recording step does when it returns: the
    dictionary it built is in the list, which is the old one when it was
    there before. *)
Lemma record_ok_inv verbose s path name l w l' w' :
  record_test_failure verbose s path name l w = (Ok l', w') ->
  exists reported,
    (if verbose then exists raw, name = Some raw /\ reported = Some (Py.replace " " "_" raw)
     else reported = None) /\
    let d := mkDict s "test_failure" reported (if verbose then Some path else None) in
    fs w' = fs w /\
    ((d ∈ l /\ l' = l /\ w' = w) \/ ((d ∉ l) /\ l' = l ++ [d])).
Proof.
  unfold record_test_failure, reported_name.
  intros (reported & w1 & Hname & Hrest)%bind_ok_inv.
  exists reported.
  assert (Hrep : (if verbose then exists raw, name = Some raw /\
                      reported = Some (Py.replace " " "_" raw)
                  else reported = None) /\ w1 = w).
  { destruct verbose.
    - destruct name as [raw|]; [|discriminate].
      injection Hname as <- <-. eauto.
    - by injection Hname as <- <-. }
  destruct Hrep as [Hrep ->]. split; [done|]. cbn zeta.
  case_bool_decide as Hin.
  - apply bind_ok_inv in Hrest as ([] & w2 & Hlog & Hret).
    rewrite logger_run in Hlog. injection Hlog as <-. injection Hret as <- <-.
    split; [done|]. by right.
  - injection Hrest as <- <-. split; [done|]. left.
    split; [|done]. by destruct (decide (mkDict s "test_failure" reported
      (if verbose then Some path else None) ∈ l)).
Qed.

Lemma materialize_loop (l : list failure_dict) : forall acc w,
  for_each l (fun failures failure =>
    ret (failures ++
         [new_Failure (d_step failure) (d_failure_type failure)
            (d_failed_test_name failure) (d_failed_test_junit_path failure)])) acc w =
  (Ok (acc ++ map to_Failure l), w).
Proof.
  induction l as [|d l IH]; intros acc w; cbn.
  - by rewrite app_nil_r.
  - unfold bind, ret at 1. rewrite IH. by rewrite <- app_assoc.
Qed.

(** A property of the list of dictionaries that every recording of a
    failure reported by a document of the tree keeps holds of the list the
    scan ends with; the scan leaves the file system as it is. *)
Lemma find_test_failures_inv config junit_dir (P : list failure_dict -> Prop)
    w failures w' :
  (forall path name doc l w1 l' w1',
     fs w1 = fs w -> report_at junit_dir (fs w) path doc -> reported_in doc name ->
     P l ->
     record_test_failure (verbose_test_failure_reporting config)
       (OsPath.basename (OsPath.dirname path)) path name l w1 = (Ok l', w1') ->
     P l') ->
  P [] ->
  _find_test_failures config junit_dir w = (Ok failures, w') ->
  exists failures_list,
    P failures_list /\ failures = map to_Failure failures_list /\ fs w' = fs w.
Proof.
  intros Hrecord Hnil. unfold _find_test_failures.
  intros (tree & w0 & Hwalk & Hrun)%bind_ok_inv.
  injection Hwalk as <- <-.
  apply bind_ok_inv in Hrun as (failures_list & w2 & Hscan & Hconv).
  rewrite materialize_loop in Hconv. injection Hconv as <- <-.
  set (Q := fun (acc : list failure_dict) (w1 : World) => P acc /\ fs w1 = fs w).
  assert (HQ : Q failures_list w2); [|by exists failures_list; destruct HQ].
  revert Hscan. apply (for_each_inv Q); [|done].
  intros acc [[root dirs] files] w1 acc1 w1' Htree HQ1.
  apply (for_each_inv Q); [|done].
  intros acc2 file w3 acc3 w3' [_ Hfile]%list_elem_of_filter HQ2.
  intros (content & w4 & [-> Hres]%read_file_ok_inv & Hdoc)%bind_ok_inv.
  destruct content as [j|doc|raw].
  1,3: apply bind_ok_inv in Hdoc as ([] & w5 & [= <-] & [= <- <-]);
       destruct HQ2; by split.
  assert (Hat : report_at junit_dir (fs w) (OsPath.join root file) doc).
  { exists root, dirs, files, file. destruct HQ2 as [_ Hfs]. rewrite Hfs in Hres.
    by repeat split. }
  revert Hdoc. apply (for_each_inv Q); [|done].
  intros acc4 suite w5 acc5 w5' Hsuite HQ4.
  apply (for_each_inv Q); [|done].
  intros acc6 case w6 acc7 w6' Hcase HQ6.
  assert (Hstep : forall name l w7 l' w7',
    reported_in doc name -> Q l w7 ->
    record_test_failure (verbose_test_failure_reporting config)
      (OsPath.basename (OsPath.dirname (OsPath.join root file)))
      (OsPath.join root file) name l w7 = (Ok l', w7') -> Q l' w7').
  { intros name l w7 l' w7' Hin [HP Hfs] Hrec. split.
    - by eapply Hrecord.
    - apply record_ok_inv in Hrec as (? & _ & Hfs' & _). congruence. }
  destruct case as [case_name results|r].
  - destruct (JUnit.nonempty results); [|by intros [= <- <-]].
    apply (for_each_inv Q); [|done].
    intros acc8 result w8 acc9 w8' Hresult HQ8.
    destruct (JUnit.is_failure_or_error result) eqn:Hfail; [|by intros [= <- <-]].
    apply Hstep; [|done]. exists suite. split; [done|]. left. eauto.
  - destruct (JUnit.is_failure_or_error r) eqn:Hfail; [|by intros [= <- <-]].
    apply Hstep; [|done]. exists suite. split; [done|]. right. eauto.
Qed.

(** A dictionary equal to the one built is in the list: nothing is done. *)
Lemma record_present (verbose : bool) s path (name reported : option string) l w :
  (if verbose then exists raw, name = Some raw /\ reported = Some (Py.replace " " "_" raw)
   else reported = None) ->
  mkDict s "test_failure" reported (if verbose then Some path else None) ∈ l ->
  record_test_failure verbose s path name l w = (Ok l, w).
Proof.
  intros Hrep Hin. unfold record_test_failure, reported_name.
  destruct verbose.
  - destruct Hrep as (raw & -> & ->). cbn. unfold bind, ret. cbn.
    by rewrite bool_decide_false by (intros Hn; by apply Hn).
  - subst reported. cbn. unfold bind, ret. cbn.
    by rewrite bool_decide_false by (intros Hn; by apply Hn).
Qed.

Lemma failure_key_to_Failure_inj : Inj (=) (=) (fun d => failure_key (to_Failure d)).
Proof. intros [a b c d] [a' b' c' d'] [= -> -> -> ->]. done. Qed.

Lemma replace_has_no_space s : has_char " " (Py.replace " " "_" s) = false.
Proof.
  induction s as [|c s IH]; [done|]. cbn.
  rewrite IH, orb_false_r. by destruct (Ascii.eqb c " ") eqn:E.
Qed.

(** The test failures the scan returns have pairwise distinct (step, kind,
    test name, report path) tuples, and a failure recorded is not recorded
    again. *)
Lemma scan_keys_distinct config junit_dir w failures w' :
  _find_test_failures config junit_dir w = (Ok failures, w') ->
  NoDup (map failure_key failures) /\
  (forall verbose s path name l w0 l1 w1,
     record_test_failure verbose s path name l w0 = (Ok l1, w1) ->
     record_test_failure verbose s path name l1 w1 = (Ok l1, w1)).
Proof.
  intros Hscan. split.
  - apply (find_test_failures_inv config junit_dir (fun l => NoDup l)) in Hscan
      as (fl & Hfl & -> & _).
    + pose proof failure_key_to_Failure_inj as Hinj. rewrite map_map.
      by apply (NoDup_fmap_2 (fun d => failure_key (to_Failure d))).
    + intros path name doc l w1 l' w1' _ _ _ Hl
        (reported & _ & _ & [(_ & -> & _)|(Hnew & ->)])%record_ok_inv; [done|].
      apply NoDup_app. split; [done|]. split; [|apply NoDup_singleton].
      intros d Hd ->%list_elem_of_singleton. done.
    + constructor.
  - intros verbose s path name l w0 l1 w1 Hrec.
    pose proof Hrec as (reported & Hrep & _ & Hcase)%record_ok_inv.
    apply (record_present _ _ _ _ reported); [done|].
    destruct Hcase as [(Hin & -> & _)|(_ & ->)]; [done|].
    apply elem_of_app. right. by apply list_elem_of_singleton.
Qed.

(** C10: with verbose reporting on, every test failure the scan returns
    is named after a failing case of a report of the tree (after the suite
    for a bare failure element), with every space of that name replaced by an
    underscore; the recorded name holds no space. *)
Theorem verbose_name_has_underscores_for_spaces config junit_dir w failures w' :
  verbose_test_failure_reporting config = true ->
  _find_test_failures config junit_dir w = (Ok failures, w') ->
  forall f, f ∈ failures ->
    failure_type f = "test_failure" /\
    exists raw path doc,
      failed_test_name f = Some (Py.replace " " "_" raw) /\
      has_char " " (Py.replace " " "_" raw) = false /\
      failed_test_junit_path f = Some path /\
      step f = OsPath.basename (OsPath.dirname path) /\
      report_at junit_dir (fs w) path doc /\
      reported_in doc (Some raw).
Proof.
  intros Hverbose Hscan.
  set (good := fun d : failure_dict =>
    d_failure_type d = "test_failure" /\
    exists raw path doc,
      d_failed_test_name d = Some (Py.replace " " "_" raw) /\
      has_char " " (Py.replace " " "_" raw) = false /\
      d_failed_test_junit_path d = Some path /\
      d_step d = OsPath.basename (OsPath.dirname path) /\
      report_at junit_dir (fs w) path doc /\
      reported_in doc (Some raw)).
  destruct (find_test_failures_inv config junit_dir (Forall good) w failures w')
    as (fl & Hfl & -> & _); [|constructor|exact Hscan|].
  - intros path name doc l w1 l' w1' _ Hat Hin Hl Hrec.
    rewrite Hverbose in Hrec.
    apply record_ok_inv in Hrec
      as (reported & (raw & -> & ->) & _ & [(_ & -> & _)|(_ & ->)]); [done|].
    apply Forall_app. split; [done|]. apply Forall_singleton.
    split; [done|]. exists raw, path, doc. cbn.
    repeat split; try done. apply replace_has_no_space.
  - intros f (d & -> & Hd)%list_elem_of_fmap.
    rewrite Forall_forall in Hfl. apply (Hfl d Hd).
Qed.

Lemma verbose_name_witness :
  let f := new_Failure "build" "test_failure" (Some "test_x")
             (Some "/tmp/77/artifacts/build/junit_a.xml") in
  failure_type f = "test_failure" /\
  exists raw path doc,
    failed_test_name f = Some (Py.replace " " "_" raw) /\
    has_char " " (Py.replace " " "_" raw) = false /\
    failed_test_junit_path f = Some path /\
    step f = OsPath.basename (OsPath.dirname path) /\
    report_at "/tmp/77/artifacts" (fs Sample.report_disk) path doc /\
    reported_in doc (Some raw).
Proof.
  intros f.
  apply (verbose_name_has_underscores_for_spaces Sample.no_rules "/tmp/77/artifacts"
           Sample.report_disk [f]
           ((_find_test_failures Sample.no_rules "/tmp/77/artifacts" Sample.report_disk).2)).
  - reflexivity.
  - reflexivity.
  - apply elem_of_cons. by left.
Defined.

End TestScan.

(** ** Paths: [split], [join], [dirname] and [basename] on well-formed names *)

Module PathFacts.

Import Spec StringFacts.

Lemma sapp_assoc (a b c : string) : (a +:+ b) +:+ c = a +:+ (b +:+ c).
Proof. induction a as [|x a IH]; [done|]. by rewrite !sapp_cons, IH. Qed.

Lemma sapp_length (a b : string) :
  String.length (a +:+ b) = (String.length a + String.length b)%nat.
Proof. induction a as [|x a IH]; [done|]. rewrite sapp_cons. cbn. by rewrite IH. Qed.

Lemma split_app_sep sep (a b : string) :
  Py.split sep (a +:+ String sep b) = Py.split sep a ++ Py.split sep b.
Proof.
  induction a as [|c a IH].
  - rewrite sapp_nil_l, split_cons. by rewrite Ascii.eqb_refl.
  - rewrite sapp_cons, !split_cons, IH.
    destruct (Ascii.eqb c sep); [done|].
    pose proof (split_length_pos sep a).
    destruct (Py.split sep a); [cbn in *; lia|done].
Qed.

Lemma split_no_sep sep (s : string) : has_char sep s = false -> Py.split sep s = [s].
Proof.
  induction s as [|c s IH]; [done|]. cbn [has_char].
  intros [Hc Hs]%orb_false_iff. rewrite split_cons, Hc, IH; done.
Qed.

Lemma valid_name_inv s :
  valid_name s = true -> s <> "" /\ has_char "/" s = false.
Proof.
  unfold valid_name. intros [H1 H2]%andb_true_iff.
  apply negb_true_iff in H1, H2. by apply bool_decide_eq_false in H1.
Qed.

Lemma segments_app_sep (a b : string) :
  Fs.segments (a +:+ "/" +:+ b) = Fs.segments a ++ Fs.segments b.
Proof.
  unfold Fs.segments. change ("/" +:+ b) with (String OsPath.sep b).
  by rewrite split_app_sep, filter_app.
Qed.

Lemma segments_valid_name s : valid_name s = true -> Fs.segments s = [s].
Proof.
  intros [Hne Hs]%valid_name_inv. unfold Fs.segments, OsPath.sep.
  rewrite (split_no_sep _ _ Hs). cbn. by rewrite decide_True.
Qed.

Lemma rfind_no_sep c s : has_char c s = false -> Py.rfind c s = -1.
Proof.
  induction s as [|a s IH]; [done|]. cbn [has_char].
  intros [Ha Hs]%orb_false_iff. cbn. by rewrite (IH Hs), Ha.
Qed.

Lemma rfind_app_sep c (a b : string) :
  has_char c b = false -> Py.rfind c (a +:+ String c b) = Z.of_nat (String.length a).
Proof.
  intros Hb. induction a as [|x a IH].
  - rewrite sapp_nil_l. cbn. by rewrite (rfind_no_sep _ _ Hb), Ascii.eqb_refl.
  - rewrite sapp_cons. cbn [Py.rfind String.length]. rewrite IH.
    destruct (Z.leb_spec 0 (Z.of_nat (String.length a))); lia.
Qed.

Lemma take_app (a t : string) k :
  Py.take (String.length a + k) (a +:+ t) = a +:+ Py.take k t.
Proof. induction a as [|x a IH]; [done|]. rewrite !sapp_cons. cbn. by rewrite IH. Qed.

Lemma drop_app (a t : string) k :
  Py.drop (String.length a + k) (a +:+ t) = Py.drop k t.
Proof. induction a as [|x a IH]; [done|]. rewrite !sapp_cons. cbn. by rewrite IH. Qed.

(** The last character of a string. *)
Lemma char_at_last_cons x (s : string) :
  s <> "" -> Py.char_at (String.length (String x s) - 1) (String x s) =
             Py.char_at (String.length s - 1) s.
Proof.
  destruct s as [|y s]; [done|]. intros _. cbn. by rewrite Nat.sub_0_r.
Qed.

Lemma char_at_last_app (a b : string) :
  b <> "" ->
  Py.char_at (String.length (a +:+ b) - 1) (a +:+ b) = Py.char_at (String.length b - 1) b.
Proof.
  intros Hb. induction a as [|x a IH]; [done|].
  rewrite sapp_cons, char_at_last_cons; [done|]. by destruct a, b.
Qed.

Lemma char_at_last_no_sep c (s : string) :
  has_char c s = false -> Py.char_at (String.length s - 1) s <> Some c.
Proof.
  induction s as [|x s IH]; [done|]. cbn [has_char].
  intros [Hx Hs]%orb_false_iff.
  destruct s as [|y s].
  - cbn. intros [= ->]. by rewrite Ascii.eqb_refl in Hx.
  - rewrite char_at_last_cons by done. by apply IH.
Qed.

Lemma rstrip_snoc c (s : string) : Py.rstrip c (s +:+ String c "") = Py.rstrip c s.
Proof.
  induction s as [|x s IH].
  - rewrite sapp_nil_l. cbn. by rewrite Ascii.eqb_refl.
  - rewrite sapp_cons. cbn [Py.rstrip]. by rewrite IH.
Qed.

Lemma rstrip_id c (s : string) :
  Py.char_at (String.length s - 1) s <> Some c -> Py.rstrip c s = s.
Proof.
  induction s as [|x s IH]; [done|].
  destruct s as [|y s].
  - cbn. intros Hx. destruct (Ascii.eqb_spec x c) as [->|]; done.
  - rewrite char_at_last_cons by done. intros Hs.
    cbn [Py.rstrip] in *. by rewrite (IH Hs).
Qed.

Lemma rstrip_repeat c n : Py.rstrip c (Py.repeat c n) = "".
Proof. induction n as [|n IH]; [done|]. cbn. by rewrite IH, Ascii.eqb_refl. Qed.

Lemma char_at_last_some (s : string) :
  s <> "" -> is_Some (Py.char_at (String.length s - 1) s).
Proof.
  induction s as [|x s IH]; [done|]. intros _.
  destruct s as [|y s]; [by eexists|].
  rewrite char_at_last_cons by done. by apply IH.
Qed.

Lemma startswith_sep_no_sep (s : string) :
  has_char "/" s = false -> Py.startswith s "/" = false.
Proof.
  destruct s as [|c s]; [done|]. cbn [has_char]. intros [Hc _]%orb_false_iff.
  unfold Py.startswith. cbn [String.prefix].
  destruct (ascii_dec "/" c) as [<-|]; [|done].
  by rewrite Ascii.eqb_refl in Hc.
Qed.

Section Rooted.

(** A directory path that ends in the name of the directory, and the name
    of one of its entries. *)
Variables (pre parent name : string).
Hypothesis Hparent : valid_name parent = true.
Hypothesis Hname : valid_name name = true.

Let root : string := pre +:+ "/" +:+ parent.

Lemma root_last_char : exists x,
  Py.char_at (String.length root - 1) root = Some x /\ x <> OsPath.sep.
Proof using Hparent.
  destruct (valid_name_inv _ Hparent) as [Hne Hs].
  assert (Hlast : Py.char_at (String.length root - 1) root =
                  Py.char_at (String.length parent - 1) parent).
  { unfold root. rewrite char_at_last_app by done.
    change ("/" +:+ parent) with (String "/" parent). by apply char_at_last_cons. }
  destruct (char_at_last_some parent Hne) as [x Hx].
  exists x. rewrite Hlast. split; [done|].
  intros ->. by apply (char_at_last_no_sep "/" parent Hs).
Qed.

Lemma join_rooted : OsPath.join root name = root +:+ "/" +:+ name.
Proof using Hparent Hname.
  destruct (valid_name_inv _ Hname) as [_ Hs].
  destruct root_last_char as (x & Hx & Hsep).
  unfold OsPath.join. rewrite (startswith_sep_no_sep _ Hs), Hx.
  rewrite bool_decide_false; [|unfold root; by destruct pre].
  cbn [default from_option id orb].
  destruct (Ascii.eqb_spec x OsPath.sep); done.
Qed.

Lemma segments_join : Fs.segments (OsPath.join root name) = Fs.segments root ++ [name].
Proof using Hparent Hname.
  by rewrite join_rooted, segments_app_sep, (segments_valid_name name).
Qed.

Lemma basename_rooted : OsPath.basename root = parent.
Proof using Hparent.
  destruct (valid_name_inv _ Hparent) as [_ Hs].
  unfold OsPath.basename, root. change ("/" +:+ parent) with (String OsPath.sep parent).
  rewrite (rfind_app_sep _ _ _ Hs).
  replace (Z.to_nat (Z.of_nat (String.length pre) + 1)) with (String.length pre + 1)%nat by lia.
  by rewrite drop_app.
Qed.

Lemma dirname_join : OsPath.dirname (OsPath.join root name) = root.
Proof using Hparent Hname.
  destruct (valid_name_inv _ Hname) as [_ Hs].
  destruct root_last_char as (x & Hx & Hsep).
  rewrite join_rooted. unfold OsPath.dirname.
  change ("/" +:+ name) with (String OsPath.sep name).
  rewrite (rfind_app_sep _ _ _ Hs).
  replace (Z.to_nat (Z.of_nat (String.length root) + 1))
    with (String.length root + 1)%nat by lia.
  rewrite take_app. cbn [Py.take].
  assert (Hstrip : Py.rstrip OsPath.sep (root +:+ String OsPath.sep "") = root).
  { rewrite rstrip_snoc. apply rstrip_id. rewrite Hx. by intros [= ->]. }
  rewrite Hstrip.
  rewrite bool_decide_false; [|unfold root; by destruct pre].
  rewrite bool_decide_false; [done|].
  intros Hall. rewrite Hall, rstrip_repeat in Hstrip.
  revert Hstrip. unfold root. by destruct pre.
Qed.

(** The step a file of the directory is attributed to is the directory's
    name. *)
Lemma step_of_file : OsPath.basename (OsPath.dirname (OsPath.join root name)) = parent.
Proof using Hparent Hname. by rewrite dirname_join, basename_rooted. Qed.

End Rooted.

End PathFacts.

(** ** Pod scanning ([_find_pod_failures]) *)

Module PodScan.

Import Job Spec MonadFacts StringFacts PathFacts.

(** Induction on trees, with the hypothesis for every entry of a directory. *)
Lemma node_ind' (P : Fs.node -> Prop) :
  (forall d, P (Fs.File d)) ->
  (forall es, Forall (fun e => P e.2) es -> P (Fs.Dir es)) ->
  forall n, P n.
Proof.
  intros HF HD. fix IH 1. intros [d|es]; [apply HF|].
  apply HD. induction es as [|[name c] es IHes]; constructor; [apply IH|apply IHes].
Qed.

Lemma entry_of_elem name c (es : list (string * Fs.node)) :
  NoDup (map fst es) -> (name, c) ∈ es -> Fs.entry name es = Some c.
Proof.
  induction es as [|[n c'] es IH]; [by intros _ ?%elem_of_nil|].
  cbn. intros [Hn Hes]%NoDup_cons [[= <- <-]|Hin]%elem_of_cons.
  - by rewrite bool_decide_true.
  - rewrite bool_decide_false; [by apply IH|].
    intros ->. apply Hn. apply list_elem_of_fmap. by exists (name, c).
Qed.

Lemma resolve_app (a b : list string) : forall n,
  Fs.resolve (a ++ b) n =
  match Fs.resolve a n with
  | Some m => Fs.resolve b m
  | None => None
  end.
Proof.
  induction a as [|s a IH]; intros n; [done|].
  cbn. destruct n as [d|es]; [done|]. destruct (Fs.entry s es); [apply IH|done].
Qed.

Lemma walk_dir_Dir top es :
  Fs.walk_dir top (Fs.Dir es) =
  (top, Fs.dirnames es, Fs.filenames es) ::
  flat_map (fun e => match e.2 with
                     | Fs.Dir _ => Fs.walk_dir (OsPath.join top e.1) e.2
                     | Fs.File _ => []
                     end) es.
Proof.
  cbn. f_equal. induction es as [|[name c] es IH]; [done|].
  cbn. rewrite IH. by destruct c.
Qed.

Lemma files_below_Dir parent es :
  files_below parent (Fs.Dir es) =
  omap (fun e => match e.2 with
                 | Fs.File d => Some (parent, e.1, d)
                 | Fs.Dir _ => None
                 end) es ++
  flat_map (fun e => match e.2 with
                     | Fs.Dir _ => files_below e.1 e.2
                     | Fs.File _ => []
                     end) es.
Proof.
  cbn. f_equal. induction es as [|[name c] es IH]; [done|].
  cbn. rewrite IH. by destruct c.
Qed.

Lemma wf_Dir es :
  wf (Fs.Dir es) = true ->
  NoDup (map fst es) /\
  Forall (fun e => valid_name e.1 = true) es /\
  Forall (fun e => wf e.2 = true) es.
Proof.
  cbn. intros [[Hnd Hnames]%andb_true_iff Hall]%andb_true_iff.
  apply bool_decide_eq_true in Hnd. split; [done|]. split.
  - clear -Hnames. induction es as [|[name c] es IH]; [constructor|].
    cbn in Hnames. apply andb_true_iff in Hnames as [H1 H2]. constructor; [done|by apply IH].
  - clear -Hall. induction es as [|[name c] es IH]; [constructor|].
    apply andb_true_iff in Hall as [H1 H2]. constructor; [done|by apply IH].
Qed.

Section Directory.

Variables (disk : Fs.node) (pre parent : string) (es : list (string * Fs.node)).
Hypothesis Hparent : valid_name parent = true.
Hypothesis Hdir : Fs.resolve (Fs.segments (pre +:+ "/" +:+ parent)) disk = Some (Fs.Dir es).
Hypothesis Hnodup : NoDup (map fst es).

Lemma resolve_entry name c :
  valid_name name = true -> (name, c) ∈ es ->
  Fs.resolve (Fs.segments (OsPath.join (pre +:+ "/" +:+ parent) name)) disk = Some c.
Proof using Hparent Hdir Hnodup.
  intros Hname Hin.
  rewrite (segments_join pre parent name Hparent Hname), resolve_app, Hdir.
  cbn. by rewrite (entry_of_elem name c es Hnodup Hin).
Qed.

(** One file of the directory: a [finished.json] holding a record adds
    what the record asks for, any other file nothing. *)
Lemma file_step name d failures w :
  valid_name name = true -> (name, Fs.File d) ∈ es ->
  (name = "finished.json" -> exists members, d = JsonDoc (Json.Obj members)) ->
  fs w = disk ->
  exists w',
    scan_finished_json (pre +:+ "/" +:+ parent) failures name w =
      (Ok (failures ++ pod_verdict (parent, name, d)), w') /\
    fs w' = disk.
Proof using Hparent Hdir Hnodup.
  intros Hname Hin Hrecord Hfs. unfold scan_finished_json, pod_verdict.
  case_bool_decide as Hfinished.
  2: { exists w. by rewrite app_nil_r. }
  destruct (Hrecord Hfinished) as [members ->].
  cbn zeta. rewrite (step_of_file pre parent name Hparent Hname).
  assert (Hread : read_file (OsPath.join (pre +:+ "/" +:+ parent) name) w =
                  (Ok (JsonDoc (Json.Obj members)), w)).
  { unfold read_file. rewrite Hfs. by rewrite (resolve_entry name _ Hname Hin). }
  rewrite (bind_ok _ _ _ _ _ Hread). cbn [json_load].
  unfold bind at 1. cbn [ret]. cbn [get_passed]. unfold bind at 1. cbn [ret].
  unfold emitted, Json.get.
  destruct (Json.lookup "passed" members) as [[|[|]| | | |]|]; cbn.
  all: try (exists w; by rewrite app_nil_r).
  all: by eexists.
Qed.

(** The files of the directory, in listing order. *)
Lemma files_loop (l : list (string * Fs.node)) :
  l ⊆ es ->
  Forall (fun e => valid_name e.1 = true) l ->
  Forall (fun e => forall d, e.2 = Fs.File d -> e.1 = "finished.json" ->
                   exists members, d = JsonDoc (Json.Obj members)) l ->
  forall failures w, fs w = disk ->
  exists w',
    for_each (Fs.filenames l) (scan_finished_json (pre +:+ "/" +:+ parent)) failures w =
      (Ok (failures ++
           flat_map pod_verdict
             (omap (fun e => match e.2 with
                             | Fs.File d => Some (parent, e.1, d)
                             | Fs.Dir _ => None
                             end) l)), w') /\
    fs w' = disk.
Proof using Hparent Hdir Hnodup.
  induction l as [|[name c] l IH]; intros Hsub Hvalid Hrec failures w Hfs.
  - exists w. cbn. by rewrite app_nil_r.
  - apply Forall_cons in Hvalid as [Hname Hvalid]. apply Forall_cons in Hrec as [Hc Hrec].
    assert (Hin : (name, c) ∈ es) by (apply Hsub, elem_of_cons; by left).
    assert (Hsub' : l ⊆ es) by (intros e He; apply Hsub, elem_of_cons; by right).
    cbn [fst snd] in Hname, Hc.
    destruct c as [d|sub].
    + destruct (file_step name d failures w Hname Hin (Hc d eq_refl) Hfs) as (w1 & Hstep & Hfs1).
      destruct (IH Hsub' Hvalid Hrec (failures ++ pod_verdict (parent, name, d)) w1 Hfs1)
        as (w2 & Hloop & Hfs2).
      exists w2. split; [|done].
      change (Fs.filenames ((name, Fs.File d) :: l)) with (name :: Fs.filenames l).
      rewrite for_each_cons, (bind_ok _ _ _ _ _ Hstep), Hloop, <- app_assoc.
      reflexivity.
    + by apply IH.
Qed.

(** The subdirectories of the directory, each walked in turn, given the
    statement for each of them. *)
Lemma subdirs_loop (l : list (string * Fs.node)) :
  l ⊆ es ->
  Forall (fun e => valid_name e.1 = true) l ->
  Forall (fun e => wf e.2 = true) l ->
  Forall (fun e =>
            forall failures w,
              finished_are_records e.1 e.2 -> fs w = disk ->
              exists w',
                for_each (Fs.walk_dir ((pre +:+ "/" +:+ parent) +:+ "/" +:+ e.1) e.2)
                  (fun failures '(root, dirs, files) =>
                     for_each files (scan_finished_json root) failures) failures w =
                  (Ok (failures ++ pod_failures_of e.1 e.2), w') /\
                fs w' = disk) l ->
  Forall (fun '(dir, name, d) =>
            name = "finished.json" -> exists members, d = JsonDoc (Json.Obj members))
    (flat_map (fun e => match e.2 with
                        | Fs.Dir _ => files_below e.1 e.2
                        | Fs.File _ => []
                        end) l) ->
  forall failures w, fs w = disk ->
  exists w',
    for_each (flat_map (fun e => match e.2 with
                                 | Fs.Dir _ =>
                                     Fs.walk_dir (OsPath.join (pre +:+ "/" +:+ parent) e.1) e.2
                                 | Fs.File _ => []
                                 end) l)
      (fun failures '(root, dirs, files) =>
         for_each files (scan_finished_json root) failures) failures w =
      (Ok (failures ++
           flat_map pod_verdict
             (flat_map (fun e => match e.2 with
                                 | Fs.Dir _ => files_below e.1 e.2
                                 | Fs.File _ => []
                                 end) l)), w') /\
    fs w' = disk.
Proof using Hparent Hdir Hnodup.
  induction l as [|[name c] l IH]; intros Hsub Hvalid Hwf Hsubs Hrec failures w Hfs.
  - exists w. cbn. by rewrite app_nil_r.
  - apply Forall_cons in Hvalid as [Hname Hvalid]. apply Forall_cons in Hwf as [Hc Hwf].
    apply Forall_cons in Hsubs as [Hthis Hsubs].
    cbn [flat_map fst snd] in *. apply Forall_app in Hrec as [Hrec1 Hrec2].
    assert (Hsub' : l ⊆ es) by (intros e He; apply Hsub, elem_of_cons; by right).
    destruct c as [d|sub].
    + cbn [app]. by apply IH.
    + rewrite (join_rooted pre parent name Hparent Hname).
      destruct (Hthis failures w Hrec1 Hfs) as (w1 & Hwalk & Hfs1).
      destruct (IH Hsub' Hvalid Hwf Hsubs Hrec2 (failures ++ pod_failures_of name (Fs.Dir sub))
                  w1 Hfs1) as (w2 & Hloop & Hfs2).
      exists w2. split; [|done].
      rewrite for_each_app, (bind_ok _ _ _ _ _ Hwalk), Hloop.
      by rewrite flat_map_app, <- app_assoc.
Qed.

End Directory.

Lemma direct_records (parent : string) (es : list (string * Fs.node)) :
  Forall (fun '(dir, name, d) =>
            name = "finished.json" -> exists members, d = JsonDoc (Json.Obj members))
    (omap (fun e => match e.2 with
                    | Fs.File d => Some (parent, e.1, d)
                    | Fs.Dir _ => None
                    end) es) ->
  Forall (fun e => forall d, e.2 = Fs.File d -> e.1 = "finished.json" ->
                   exists members, d = JsonDoc (Json.Obj members)) es.
Proof.
  induction es as [|[name c] es IH]; [constructor|].
  destruct c as [d|sub]; cbn.
  - intros [Hd Hes]%Forall_cons. constructor; [|by apply IH].
    cbn. by intros d' [= <-].
  - intros Hes. constructor; [|by apply IH]. by cbn.
Qed.

(** The walk of a well-formed tree whose [finished.json] files hold
    records yields the pod failures of the tree, in walk order, and leaves
    the file system alone. *)
Lemma walk_loop n : forall disk pre parent failures w,
  valid_name parent = true -> wf n = true -> finished_are_records parent n ->
  Fs.resolve (Fs.segments (pre +:+ "/" +:+ parent)) disk = Some n -> fs w = disk ->
  exists w',
    for_each (Fs.walk_dir (pre +:+ "/" +:+ parent) n)
      (fun failures '(root, dirs, files) =>
         for_each files (scan_finished_json root) failures) failures w =
      (Ok (failures ++ pod_failures_of parent n), w') /\
    fs w' = disk.
Proof.
  induction n as [d|es IH] using node_ind';
    intros disk pre parent failures w Hparent Hwf Hrec Hdir Hfs.
  - exists w. cbn. by rewrite app_nil_r.
  - destruct (wf_Dir es Hwf) as (Hnodup & Hvalid & Hwfs).
    unfold finished_are_records in Hrec. rewrite files_below_Dir in Hrec.
    apply Forall_app in Hrec as [Hdirect Hbelow].
    destruct (files_loop disk pre parent es Hparent Hdir Hnodup es)
      with (failures := failures) (w := w) as (w1 & Hfiles & Hfs1);
      [done|done|by apply (direct_records parent)|done|].
    destruct (subdirs_loop disk pre parent es Hparent Hdir Hnodup es)
      with (w := w1)
           (failures := failures ++ flat_map pod_verdict
              (omap (fun e => match e.2 with
                              | Fs.File d => Some (parent, e.1, d)
                              | Fs.Dir _ => None
                              end) es))
      as (w2 & Hsubs & Hfs2); [done|done|done| |done|done|].
    { rewrite Forall_forall in IH, Hvalid, Hwfs. apply Forall_forall.
      intros [name c] He failures' w' Hrec' Hfs'.
      apply (IH _ He disk (pre +:+ "/" +:+ parent) name); [by apply (Hvalid _ He)|
        by apply (Hwfs _ He)|done| |done].
      rewrite <- (join_rooted pre parent name Hparent (Hvalid _ He)).
      by apply (resolve_entry disk pre parent es Hparent Hdir Hnodup name c (Hvalid _ He)). }
    exists w2. split; [|done].
    rewrite walk_dir_Dir, for_each_cons.
    erewrite bind_ok; [|exact Hfiles].
    rewrite Hsubs. unfold pod_failures_of.
    by rewrite files_below_Dir, flat_map_app, <- app_assoc.
Qed.

(** C4: on a well-formed logs tree whose [finished.json] files hold
    records, pod scanning returns, for each such file in walk order, one
    pod failure attributed to the name of the directory that holds it when
    [passed] is absent or false, and nothing when it is true (or any other
    value); files of another name contribute nothing. *)
Theorem pod_scan_fails_closed downloads_directory w n :
  let logs_dir := downloads_directory +:+ "/logs" in
  Fs.resolve (Fs.segments logs_dir) (fs w) = Some n ->
  wf n = true ->
  finished_are_records "logs" n ->
  (exists w', _find_pod_failures logs_dir w = (Ok (pod_failures_of "logs" n), w') /\
              fs w' = fs w) /\
  (forall dir members,
     pod_verdict (dir, "finished.json", JsonDoc (Json.Obj members)) =
     match Json.lookup "passed" members with
     | None | Some (Json.Bool false) => [new_Failure dir "pod_failure" None None]
     | Some _ => []
     end) /\
  (forall dir members,
     Json.lookup "passed" members = Some (Json.Bool true) ->
     pod_verdict (dir, "finished.json", JsonDoc (Json.Obj members)) = []).
Proof.
  intros logs_dir Hdir Hwf Hrec. split; [|split].
  - destruct (walk_loop n (fs w) downloads_directory "logs" [] w)
      as (w' & Hloop & Hfs); [done..|].
    exists w'. split; [|done].
    unfold _find_pod_failures, bind, os_walk, Fs.walk. fold logs_dir. rewrite Hdir.
    exact Hloop.
  - reflexivity.
  - intros dir members Hpassed. unfold pod_verdict, emitted. cbn. by rewrite Hpassed.
Qed.

Lemma pod_scan_witness :
  exists w',
    _find_pod_failures ("/tmp/77" +:+ "/logs") Sample.logs_disk =
      (Ok [new_Failure "build" "pod_failure" None None;
           new_Failure "test" "pod_failure" None None], w') /\
    fs w' = fs Sample.logs_disk.
Proof.
  refine (proj1 (pod_scan_fails_closed "/tmp/77" Sample.logs_disk Sample.logs_tree _ _ _)).
  - reflexivity.
  - reflexivity.
  - unfold finished_are_records.
    let l := eval vm_compute in (files_below "logs" Sample.logs_tree) in
    change (files_below "logs" Sample.logs_tree) with l.
    repeat (apply Forall_cons; split; [first [by intros [=]|by intros _; eexists]|]).
    constructor.
Defined.

End PodScan.

(** ** The download passes ([_download_junit], [_download_logs]) *)

Module Download.

Import Job Spec MonadFacts StringFacts PathFacts PodScan.

Lemma sep_app (x : string) : "/" +:+ x = String "/" x.
Proof. reflexivity. Qed.

Lemma prefix_app (a b : string) : String.prefix a (a +:+ b) = true.
Proof.
  induction a as [|x a IH]; [by destruct b|].
  rewrite sapp_cons. cbn. by destruct (ascii_dec x x).
Qed.

Lemma first_segment_below_app (prefix rest : string) :
  first_segment_below prefix (prefix +:+ "/" +:+ rest) = head (Py.split "/" rest).
Proof.
  unfold first_segment_below, Py.startswith.
  rewrite <- sapp_assoc, prefix_app, sapp_assoc.
  by rewrite (drop_app prefix ("/" +:+ rest) 1).
Qed.

(** The segments of a key under the non-rehearsal prefix: five for the
    prefix, then those of the rest. *)
Lemma split_key_non_rehearsal (job build safe rest : string) :
  has_char "/" job = false -> has_char "/" build = false -> has_char "/" safe = false ->
  Py.split "/" (("logs/" +:+ job +:+ "/" +:+ build +:+ "/artifacts/" +:+ safe) +:+
                "/" +:+ rest) =
  ["logs"; job; build; "artifacts"; safe] ++ Py.split "/" rest.
Proof.
  intros Hj Hb Hs. rewrite !sapp_assoc.
  change ("logs/" +:+ ?x) with ("logs" +:+ String "/" x).
  rewrite split_app_sep.
  rewrite !sep_app.
  change ("/artifacts/" +:+ ?x) with (String "/" ("artifacts" +:+ String "/" x)).
  rewrite (split_app_sep _ job), (split_app_sep _ build),
    (split_app_sep _ "artifacts"), (split_app_sep _ safe).
  by rewrite (split_no_sep _ job), (split_no_sep _ build), (split_no_sep _ safe).
Qed.

(** The same under the rehearsal prefix: eight segments for the prefix. *)
Lemma split_key_rehearsal (pr job build safe rest : string) :
  has_char "/" pr = false -> has_char "/" job = false ->
  has_char "/" build = false -> has_char "/" safe = false ->
  Py.split "/" (("pr-logs/pull/openshift_release/" +:+ pr +:+ "/" +:+ job +:+ "/" +:+
                 build +:+ "/artifacts/" +:+ safe) +:+ "/" +:+ rest) =
  ["pr-logs"; "pull"; "openshift_release"; pr; job; build; "artifacts"; safe] ++
  Py.split "/" rest.
Proof.
  intros Hp Hj Hb Hs. rewrite !sapp_assoc.
  change ("pr-logs/pull/openshift_release/" +:+ ?x)
    with ("pr-logs" +:+ String "/" ("pull" +:+ String "/"
            ("openshift_release" +:+ String "/" x))).
  rewrite (split_app_sep _ "pr-logs"), (split_app_sep _ "pull"),
    (split_app_sep _ "openshift_release").
  rewrite !sep_app.
  change ("/artifacts/" +:+ ?x) with (String "/" ("artifacts" +:+ String "/" x)).
  rewrite (split_app_sep _ pr), (split_app_sep _ job), (split_app_sep _ build),
    (split_app_sep _ "artifacts"), (split_app_sep _ safe).
  by rewrite (split_no_sep _ pr), (split_no_sep _ job), (split_no_sep _ build),
    (split_no_sep _ safe).
Qed.

(** A key the storage lists continues the prefix. *)
Lemma prefix_drop (p : string) : forall k,
  String.prefix p k = true -> k = p +:+ Py.drop (String.length p) k.
Proof.
  induction p as [|a p IH]; intros [|b k] Hk; try done.
  cbn in Hk. destruct (ascii_dec a b) as [->|]; [|discriminate].
  rewrite sapp_cons. cbn. by rewrite <- IH.
Qed.

(** The segments of a key that goes on after [.../artifacts/]: four for
    what is before when the job is not a rehearsal, seven when it is. *)
Lemma split_below_logs (job build tail : string) :
  has_char "/" job = false -> has_char "/" build = false ->
  Py.split "/" ("logs/" +:+ job +:+ "/" +:+ build +:+ "/artifacts/" +:+ tail) =
  ["logs"; job; build; "artifacts"] ++ Py.split "/" tail.
Proof.
  intros Hj Hb.
  change ("logs/" +:+ ?x) with ("logs" +:+ String "/" x).
  rewrite split_app_sep.
  rewrite !sep_app.
  change ("/artifacts/" +:+ ?x) with (String "/" ("artifacts" +:+ String "/" x)).
  rewrite (split_app_sep _ job), (split_app_sep _ build), (split_app_sep _ "artifacts").
  by rewrite (split_no_sep _ job), (split_no_sep _ build).
Qed.

Lemma split_below_pr_logs (pr job build tail : string) :
  has_char "/" pr = false -> has_char "/" job = false -> has_char "/" build = false ->
  Py.split "/" ("pr-logs/pull/openshift_release/" +:+ pr +:+ "/" +:+ job +:+ "/" +:+
                build +:+ "/artifacts/" +:+ tail) =
  ["pr-logs"; "pull"; "openshift_release"; pr; job; build; "artifacts"] ++
  Py.split "/" tail.
Proof.
  intros Hp Hj Hb.
  change ("pr-logs/pull/openshift_release/" +:+ ?x)
    with ("pr-logs" +:+ String "/" ("pull" +:+ String "/"
            ("openshift_release" +:+ String "/" x))).
  rewrite (split_app_sep _ "pr-logs"), (split_app_sep _ "pull"),
    (split_app_sep _ "openshift_release").
  rewrite !sep_app.
  change ("/artifacts/" +:+ ?x) with (String "/" ("artifacts" +:+ String "/" x)).
  rewrite (split_app_sep _ pr), (split_app_sep _ job), (split_app_sep _ build),
    (split_app_sep _ "artifacts").
  by rewrite (split_no_sep _ pr), (split_no_sep _ job), (split_no_sep _ build).
Qed.

(** [blob.name.split("/")[5]] of a key that starts with the prefix of the
    listing: the build id for a rehearsal; otherwise the second segment of
    the safe job name followed by what the key has after the prefix. *)
Lemma listed_key_step (rehearsal : bool) job build safe (pr key : string) :
  has_char "/" pr = false -> has_char "/" (fmt job) = false ->
  has_char "/" (fmt build) = false ->
  let prefix := artifact_prefix rehearsal job build safe pr in
  Py.startswith key prefix = true ->
  key = prefix +:+ Py.drop (String.length prefix) key /\
  Py.index (Py.split "/" key) 5 =
  if rehearsal then Some (fmt build)
  else Py.index (Py.split "/" (fmt safe +:+ Py.drop (String.length prefix) key)) 1.
Proof.
  intros Hp Hj Hb prefix Hkey%prefix_drop. split; [done|].
  rewrite Hkey at 1. generalize (Py.drop (String.length prefix) key). intros tail.
  unfold prefix, artifact_prefix. destruct rehearsal.
  - rewrite !sapp_assoc. by rewrite split_below_pr_logs.
  - rewrite !sapp_assoc. by rewrite split_below_logs.
Qed.

(** The segment of index 5 of a key that continues the prefix with a
    slash: for a job that is not a rehearsal it is the first segment below
    the prefix, for a rehearsal it is the build id. *)
Lemma report_step_by_rehearsal (rehearsal : bool) job build safe (pr rest : string) :
  has_char "/" pr = false -> has_char "/" (fmt job) = false ->
  has_char "/" (fmt build) = false -> has_char "/" (fmt safe) = false ->
  let prefix := artifact_prefix rehearsal job build safe pr in
  Py.index (Py.split "/" (prefix +:+ "/" +:+ rest)) 5 =
  if rehearsal then Some (fmt build) else first_segment_below prefix (prefix +:+ "/" +:+ rest).
Proof.
  intros Hp Hj Hb Hs prefix. rewrite first_segment_below_app.
  unfold prefix, artifact_prefix. destruct rehearsal.
  - by rewrite split_key_rehearsal.
  - rewrite split_key_non_rehearsal by done.
    pose proof (split_length_pos "/" rest). by destruct (Py.split "/" rest).
Qed.

(** *** The suffix loop finds a free name *)

Lemma has_char_app c (a b : string) :
  has_char c (a +:+ b) = has_char c a || has_char c b.
Proof.
  induction a as [|x a IH]; [done|]. rewrite sapp_cons. cbn. by rewrite IH, orb_assoc.
Qed.

Lemma digits_no_sep d : has_char "/" (NilEmpty.string_of_uint d) = false.
Proof. induction d; cbn; done. Qed.

Lemma to_uint_not_Nil n : Nat.to_uint n <> Decimal.Nil.
Proof.
  intros H. assert (Hn : n = O) by (by rewrite <- (Unsigned.of_to n), H).
  subst n. discriminate H.
Qed.

Lemma str_digits n : Py.str n = NilEmpty.string_of_uint (Nat.to_uint n).
Proof.
  unfold Py.str, NilZero.string_of_uint.
  pose proof (to_uint_not_Nil n). by destruct (Nat.to_uint n).
Qed.

Lemma str_no_sep n : has_char "/" (Py.str n) = false.
Proof. rewrite str_digits. apply digits_no_sep. Qed.

Lemma str_inj n m : Py.str n = Py.str m -> n = m.
Proof.
  rewrite !str_digits. intros H. apply Unsigned.to_uint_inj.
  assert (Some (Nat.to_uint n) = Some (Nat.to_uint m)) as [= ->]; [|done].
  by rewrite <- !NilEmpty.usu, H.
Qed.

Lemma sapp_inv_head (a x y : string) : a +:+ x = a +:+ y -> x = y.
Proof. induction a as [|c a IH]; [done|]. rewrite !sapp_cons. intros [= H]. auto. Qed.

Lemma sapp_inv_tail (c : string) : forall x y : string, x +:+ c = y +:+ c -> x = y.
Proof.
  assert (Hlen : forall x : string, String.length (x +:+ c) =
                   (String.length x + String.length c)%nat)
    by (intros x; apply (sapp_length x c)).
  induction x as [|a x IH]; intros [|b y] H; [done| | |].
  - apply (f_equal String.length) in H. rewrite sapp_nil_l, Hlen in H. cbn in H. lia.
  - apply (f_equal String.length) in H. rewrite sapp_nil_l, Hlen in H. cbn in H. lia.
  - rewrite !sapp_cons in H. injection H as -> H. by rewrite (IH y H).
Qed.

Lemma entries_count_length es : (length es <= entries_count (Fs.Dir es))%nat.
Proof.
  induction es as [|[name c] es IH]; [done|]. cbn in *. lia.
Qed.

Lemma entries_count_entry name c es :
  Fs.entry name es = Some c -> (entries_count c <= entries_count (Fs.Dir es))%nat.
Proof.
  induction es as [|[n c'] es IH]; [done|]. cbn.
  case_bool_decide; [intros [= ->]; lia|]. intros Hc. specialize (IH Hc). cbn in IH. lia.
Qed.

Lemma resolve_Dir_bound segs : forall n es,
  Fs.resolve segs n = Some (Fs.Dir es) -> (length es <= entries_count n)%nat.
Proof.
  induction segs as [|s segs IH]; intros n es; cbn.
  - intros [= ->]. apply entries_count_length.
  - destruct n as [d|es0]; [done|].
    destruct (Fs.entry s es0) as [c|] eqn:Hc; [|done].
    intros H. pose proof (IH _ _ H). pose proof (entries_count_entry _ _ _ Hc). lia.
Qed.

Lemma entry_some_elem name (es : list (string * Fs.node)) :
  is_Some (Fs.entry name es) -> name ∈ map fst es.
Proof.
  induction es as [|[n c] es IH]; cbn; [by intros [? ?]|].
  case_bool_decide as Hn.
  - subst n. intros _. apply elem_of_cons. by left.
  - intros H. apply elem_of_cons. right. by apply IH.
Qed.

(** The entry [name] of the directory [dir] exists only if [dir] is a
    directory that lists it. *)
Lemma exists_entry_inv disk (dir name : string) :
  valid_name name = true ->
  Fs.exists_ (dir +:+ "/" +:+ name) disk = true ->
  exists es, Fs.resolve (Fs.segments dir) disk = Some (Fs.Dir es) /\ name ∈ map fst es.
Proof.
  intros Hname. unfold Fs.exists_. intros Hex%bool_decide_eq_true.
  rewrite segments_app_sep, (segments_valid_name name Hname), resolve_app in Hex.
  destruct (Fs.resolve (Fs.segments dir) disk) as [[d|es]|]; cbn in Hex.
  - by destruct Hex.
  - exists es. split; [done|]. apply entry_some_elem.
    by destruct (Fs.entry name es); [eexists|destruct Hex].
  - by destruct Hex.
Qed.

(** No more distinct entries of one directory exist than the disk has
    entries. *)
Lemma existing_entries_bounded disk (dir : string) (names : list string) :
  NoDup names ->
  (forall name, name ∈ names ->
     valid_name name = true /\ Fs.exists_ (dir +:+ "/" +:+ name) disk = true) ->
  (length names <= entries_count disk)%nat.
Proof.
  intros Hnodup Hall. destruct names as [|name0 names]; [cbn; lia|].
  destruct (Hall name0) as [Hv0 Hex0]; [by apply elem_of_cons; left|].
  destruct (exists_entry_inv disk dir name0 Hv0 Hex0) as (es & Hdir & _).
  etransitivity; [|apply (resolve_Dir_bound _ _ _ Hdir)].
  rewrite <- (length_map fst es).
  apply submseteq_length, NoDup_submseteq; [done|].
  intros name Hin. destruct (Hall name Hin) as [Hv Hex].
  destruct (exists_entry_inv disk dir name Hv Hex) as (es' & Hdir' & Hin').
  rewrite Hdir in Hdir'. by injection Hdir' as <-.
Qed.

Section SuffixLoop.

Variables (disk : Fs.node) (dir filename extension : string).
Hypothesis Hfilename : has_char "/" filename = false.
Hypothesis Hextension : has_char "/" extension = false.

Lemma suffixed_valid n : valid_name (suffixed filename extension n) = true.
Proof using Hfilename Hextension.
  unfold valid_name, suffixed. apply andb_true_iff. split.
  - apply negb_true_iff, bool_decide_eq_false. by destruct filename.
  - rewrite !has_char_app, Hfilename, Hextension, str_no_sep. done.
Qed.

Lemma suffixed_inj n m :
  suffixed filename extension n = suffixed filename extension m -> n = m.
Proof.
  unfold suffixed. intros H%sapp_inv_head%sapp_inv_head%sapp_inv_tail.
  by apply str_inj.
Qed.

(** The loop at its round [k]: the names of the rounds before the last
    were found taken, so that the fuel left suffices. *)
Lemma free_path_loop fuel : forall k p w,
  fs w = disk ->
  (forall i, (1 <= i)%nat -> (S i < k)%nat ->
     Fs.exists_ (dir +:+ "/" +:+ suffixed filename extension i) disk = true) ->
  ((1 < k)%nat -> p = dir +:+ "/" +:+ suffixed filename extension (k - 1)) ->
  (entries_count disk + 3 <= fuel + k)%nat ->
  exists q w',
    free_path fuel dir filename extension p k w = (Ok q, w') /\
    Fs.exists_ q disk = false /\ fs w' = disk.
Proof using Hfilename Hextension.
  induction fuel as [|fuel IH]; intros k p w Hfs Htaken Hp Hfuel.
  - exfalso.
    pose proof (existing_entries_bounded disk dir
                  (map (suffixed filename extension) (seq 1 (k - 2)))) as Hbound.
    rewrite length_map, length_seq in Hbound.
    assert (k - 2 <= entries_count disk)%nat; [|lia].
    apply Hbound.
    + apply NoDup_fmap_2_strong; [|apply NoDup_seq].
      intros i j _ _. apply suffixed_inj.
    + intros name (i & -> & Hi)%list_elem_of_fmap. apply elem_of_seq in Hi.
      split; [apply suffixed_valid|]. apply Htaken; lia.
  - cbn [free_path]. unfold bind at 1. unfold path_exists. rewrite Hfs.
    destruct (Fs.exists_ p disk) eqn:Hex.
    + unfold bind at 1. cbn [logger].
      apply IH.
      * done.
      * intros i Hi Hlt. destruct (decide (S i < k)%nat) as [|Hlast]; [by apply Htaken|].
        assert (i = (k - 1)%nat) as -> by lia.
        rewrite <- Hp by lia. done.
      * intros _. by replace (S k - 1)%nat with k by lia.
      * lia.
    + exists p, w. by rewrite <- Hfs at 2.
Qed.

(** X1: the loop as [_download_junit] runs it, for a file name and an
    extension without a slash: it returns a path that names nothing on the
    disk, and leaves the disk as it is. *)
Lemma free_path_finds (file_path : string) w :
  fs w = disk ->
  exists q w',
    free_path (S (S (entries_count (fs w)))) dir filename extension file_path 1 w =
      (Ok q, w') /\
    Fs.exists_ q disk = false /\ fs w' = disk.
Proof using Hfilename Hextension.
  intros Hfs. apply free_path_loop; [done| | |rewrite Hfs]; lia.
Qed.

End SuffixLoop.

(** *** No pass overwrites a file *)

Lemma entry_app_l name c (es l : list (string * Fs.node)) :
  Fs.entry name es = Some c -> Fs.entry name (es ++ l) = Some c.
Proof.
  induction es as [|[n c'] es IH]; [done|]. cbn. by case_bool_decide.
Qed.

Lemma entry_set_entry_eq name c c' (es : list (string * Fs.node)) :
  Fs.entry name es = Some c -> Fs.entry name (Fs.set_entry name c' es) = Some c'.
Proof.
  induction es as [|[n c0] es IH]; [done|]. cbn.
  case_bool_decide as Hn; cbn; [by rewrite bool_decide_true|].
  by rewrite bool_decide_false.
Qed.

Lemma entry_set_entry_ne name other c' (es : list (string * Fs.node)) :
  name <> other -> Fs.entry name (Fs.set_entry other c' es) = Fs.entry name es.
Proof.
  intros Hne. induction es as [|[n c0] es IH]; [done|]. cbn.
  case_bool_decide as Hn; cbn.
  - subst n. by rewrite bool_decide_false by done.
  - by rewrite IH.
Qed.

(** Creating an entry leaves the files of the tree in place. *)
Lemma create_keeps_files segs : forall name new n n',
  Fs.create segs name new n = Ok n' ->
  forall q d, Fs.resolve q n = Some (Fs.File d) -> Fs.resolve q n' = Some (Fs.File d).
Proof.
  induction segs as [|s0 segs IH]; intros name new [d0|es] n'; cbn; try done.
  - destruct (Fs.entry name es) eqn:Hname; [done|]. intros [= <-] [|s q] d; [done|].
    cbn. destruct (Fs.entry s es) as [c|] eqn:Hs; [|done].
    by rewrite (entry_app_l _ _ _ _ Hs).
  - destruct (Fs.entry s0 es) as [c0|] eqn:Hs0; [|done].
    destruct (Fs.create segs name new c0) as [c0'| | |] eqn:Hc; try done.
    intros [= <-] [|s q] d; [done|]. cbn.
    destruct (decide (s = s0)) as [->|Hne].
    + rewrite Hs0, (entry_set_entry_eq _ _ _ _ Hs0). by apply (IH name new c0).
    + by rewrite (entry_set_entry_ne _ _ _ _ Hne).
Qed.

Lemma keeps_files_ret {A} (a : A) : keeps_files (ret a).
Proof. by intros w q d. Qed.

Lemma keeps_files_raise {A} e : keeps_files (@raise A e).
Proof. by intros w q d. Qed.

Lemma keeps_files_diverge {A} : keeps_files (@diverge A).
Proof. by intros w q d. Qed.

Lemma keeps_files_bind {A B} (m : M A) (k : A -> M B) :
  keeps_files m -> (forall a, keeps_files (k a)) -> keeps_files (bind m k).
Proof.
  intros Hm Hk w q d Hq. unfold bind. specialize (Hm w q d Hq).
  destruct (m w) as [[a|e|c|] w1]; cbn in *; try done. by apply Hk.
Qed.

Lemma keeps_files_for_each {A S} (l : list A) (body : S -> A -> M S) :
  (forall acc x, keeps_files (body acc x)) -> forall acc, keeps_files (for_each l body acc).
Proof.
  intros Hbody. induction l as [|x l IH]; intros acc; cbn.
  - apply keeps_files_ret.
  - by apply keeps_files_bind.
Qed.

Lemma keeps_files_or_raise {A} e (o : option A) : keeps_files (or_raise e o).
Proof. destruct o; [apply keeps_files_ret|apply keeps_files_raise]. Qed.

Lemma keeps_files_logger l msg : keeps_files (logger l msg).
Proof. by intros w q d. Qed.

Lemma keeps_files_path_exists p : keeps_files (path_exists p).
Proof. by intros w q d. Qed.

Lemma keeps_files_create_path p new : keeps_files (lift_fs (Fs.create_path p new)).
Proof.
  intros w q d Hq. unfold lift_fs, Fs.create_path.
  destruct (Fs.segments p) as [|s r]; [done|].
  destruct (Fs.create _ _ _ _) as [root'| | |] eqn:Hc; try done.
  cbn. by eapply create_keeps_files.
Qed.

Lemma keeps_files_when c (body : M unit) : keeps_files body -> keeps_files (when c body).
Proof. intros H. destruct c; [done|apply keeps_files_ret]. Qed.

Lemma keeps_files_if {A} (c : bool) (m1 m2 : M A) :
  keeps_files m1 -> keeps_files m2 -> keeps_files (if c then m1 else m2).
Proof. by destruct c. Qed.

Lemma keeps_files_free_path fuel : forall dir filename extension file_path file_counter,
  keeps_files (free_path fuel dir filename extension file_path file_counter).
Proof.
  induction fuel as [|fuel IH]; intros; cbn; [apply keeps_files_diverge|].
  apply keeps_files_bind; [apply keeps_files_path_exists|]. intros [|].
  - apply keeps_files_bind; [apply keeps_files_logger|]. intros _. apply IH.
  - apply keeps_files_ret.
Qed.

Create HintDb keeps_files.

#[local] Hint Resolve keeps_files_ret keeps_files_raise keeps_files_diverge
  keeps_files_or_raise keeps_files_logger keeps_files_path_exists
  keeps_files_create_path : keeps_files.

(** Goals [keeps_files m], by the structure of [m]. *)
Ltac keep_files :=
  repeat first
    [ solve [auto with keeps_files]
    | apply keeps_files_bind; [|intros ?]
    | apply keeps_files_for_each; intros ? ?
    | apply keeps_files_when
    | apply keeps_files_if
    | match goal with
      | |- keeps_files (match ?x with _ => _ end) => destruct x
      end ].

(** Neither pass overwrites or removes a file, whatever the listing and
    however the pass ends. *)
Lemma download_logs_keeps_files r dir st bucket job_name build_id job_name_safe pr :
  keeps_files (_download_logs r dir st bucket job_name build_id job_name_safe pr).
Proof. unfold _download_logs, mkdir, download_to_new_file. keep_files. Qed.

Lemma download_junit_keeps_files r dir st bucket job_name build_id job_name_safe pr :
  keeps_files (_download_junit r dir st bucket job_name build_id job_name_safe pr).
Proof.
  unfold _download_junit, mkdir, download_to_new_file. keep_files.
  intros w q d. apply keeps_files_free_path.
Qed.

(** C5, evaluated on the code: for a rehearsal job the segment of index 5
    of the key is the build id, not the step.  The report of step [step1]
    is stored under [artifacts/99], and no directory [artifacts/step1] is
    made. *)
Theorem rehearsal_report_stored_under_build_id :
  let prefix := artifact_prefix true (Some "rehearse-123-foo") (Some "99") (Some "foo") "123" in
  let pass := _download_junit true "/tmp/99" Sample.rehearsal_storage "origin-ci-test"
               (Some "rehearse-123-foo") (Some "99") (Some "foo") "123" Sample.disk_99 in
  first_segment_below prefix Sample.rehearsal_report_key = Some "step1" /\
  Py.index (Py.split "/" Sample.rehearsal_report_key) 5 = Some "99" /\
  pass.1 = Ok "/tmp/99/artifacts" /\
  at_path "/tmp/99/artifacts/99/junit_report.xml" pass.2 =
    Some (Fs.File Sample.one_failing_report) /\
  at_path "/tmp/99/artifacts/step1" pass.2 = None.
Proof. vm_compute. repeat split; reflexivity. Qed.

(** C8, evaluated on the code: two [finished.json] objects whose parent
    directories are both named [build] make the log pass raise
    FileExistsError at the second, with the first file in place; the report
    pass, on two reports of one destination, keeps both, the second under
    the suffix [_1]. *)
Theorem log_pass_raises_on_collision :
  let logs := _download_logs false "/tmp/99" Sample.nested_storage "origin-ci-test"
                (Some "periodic-ci-foo") (Some "99") (Some "foo") "" Sample.disk_99 in
  let reports := _download_junit false "/tmp/99" Sample.nested_storage "origin-ci-test"
                   (Some "periodic-ci-foo") (Some "99") (Some "foo") "" Sample.disk_99 in
  logs.1 = Raise FileExistsError /\
  at_path "/tmp/99/logs/build/finished.json" logs.2 =
    Some (Fs.File (JsonDoc (Json.Obj [("passed", Json.Bool false)]))) /\
  at_path "/tmp/99/logs/build/finished_1.json" logs.2 = None /\
  reports.1 = Ok "/tmp/99/artifacts" /\
  at_path "/tmp/99/artifacts/build/junit_a.xml" reports.2 =
    Some (Fs.File Sample.one_failing_report) /\
  at_path "/tmp/99/artifacts/build/junit_a_1.xml" reports.2 =
    Some (Fs.File Sample.one_failing_report).
Proof. vm_compute. repeat split; reflexivity. Qed.

End Download.

(** ** The whole analysis: what the disk keeps, when the process ends *)

Module Passes.

Import Job Spec MonadFacts StringFacts PathFacts PodScan Download.

Lemma free_path_finds_witness :
  exists q w',
    free_path (S (S (entries_count (fs Sample.report_disk)))) "/tmp/77/artifacts/build"
      "junit_a" ".xml" "/tmp/77/artifacts/build/junit_a.xml" 1 Sample.report_disk =
      (Ok q, w') /\
    Fs.exists_ q (fs Sample.report_disk) = false /\ fs w' = fs Sample.report_disk.
Proof.
  apply (free_path_finds (fs Sample.report_disk) "/tmp/77/artifacts/build" "junit_a" ".xml"
           eq_refl eq_refl "/tmp/77/artifacts/build/junit_a.xml" Sample.report_disk eq_refl).
Defined.

#[local] Hint Resolve keeps_files_ret keeps_files_raise keeps_files_diverge
  keeps_files_or_raise keeps_files_logger keeps_files_path_exists
  keeps_files_create_path : keeps_files.

Lemma keeps_files_exit {A} c : keeps_files (@exit A c).
Proof. by intros w q d. Qed.

Lemma keeps_files_os_walk p : keeps_files (os_walk p).
Proof. by intros w q d. Qed.

Lemma keeps_files_read_file p : keeps_files (read_file p).
Proof.
  intros w q d Hq. unfold read_file.
  by destruct (Fs.resolve (Fs.segments p) (fs w)) as [[]|].
Qed.

#[local] Hint Resolve keeps_files_exit keeps_files_os_walk keeps_files_read_file
  : keeps_files.

(** X3: the construction of a job never overwrites or removes a file of
    the disk, whatever the storage holds and however the construction ends
    (a job, an exception or the end of the process). *)
Theorem init_keeps_files getenv st name name_safe build_id bucket config pr_id :
  keeps_files (__init__ getenv st name name_safe build_id bucket config pr_id).
Proof.
  unfold __init__.
  apply keeps_files_bind; [unfold _check_is_rehearsal; keep_files|]. intros r.
  apply keeps_files_bind; [unfold derive_pr_id; keep_files|]. intros pr.
  apply keeps_files_bind; [unfold _get_steps; keep_files|]. intros steps.
  apply keeps_files_bind; [unfold _get_download_path, mkdir; keep_files|]. intros dp.
  apply keeps_files_bind; [apply download_logs_keeps_files|]. intros ld.
  apply keeps_files_bind; [apply download_junit_keeps_files|]. intros jd.
  apply keeps_files_bind; [|intros fl; apply keeps_files_ret].
  unfold _find_failures, _find_pod_failures, scan_finished_json, json_load, get_passed,
    _find_test_failures, record_test_failure, reported_name.
  keep_files.
Qed.

End Passes.

(** ** What the scans and the classifier return *)

Module Results.

Import Job Spec MonadFacts Classify Discovery TestScan.

(** One round of the file loop of the pod scan, when it returns: the list
    is the old one, or the old one and one pod failure. *)
Lemma scan_finished_json_ok_inv root failures file_name w failures' w' :
  scan_finished_json root failures file_name w = (Ok failures', w') ->
  fs w' = fs w /\
  (failures' = failures \/
   exists s, failures' = failures ++ [new_Failure s "pod_failure" None None]).
Proof.
  unfold scan_finished_json. case_bool_decide as Hname;
    [|intros [= <- <-]; by split; [|left]].
  intros (file & w1 & [-> _]%read_file_ok_inv & Hrest)%bind_ok_inv.
  apply bind_ok_inv in Hrest as (data & w2 & Hload & Hrest).
  assert (w2 = w) as ->
    by (unfold json_load, ret, raise in Hload; destruct file; congruence).
  apply bind_ok_inv in Hrest as (passed & w3 & Hget & Hrest).
  assert (w3 = w) as ->
    by (unfold get_passed, ret, raise in Hget; destruct data; congruence).
  destruct (Json.is_False passed).
  - apply bind_ok_inv in Hrest as ([] & w4 & [= <-] & [= <- <-]). split; [done|]. eauto.
  - injection Hrest as <- <-. by split; [|left].
Qed.

(** A property of the list that adding a pod failure keeps holds of what
    the pod scan returns; the scan leaves the disk as it is. *)
Lemma find_pod_failures_inv (P : list Failure -> Prop) logs_dir w failures w' :
  (forall l s, P l -> P (l ++ [new_Failure s "pod_failure" None None])) ->
  P [] ->
  _find_pod_failures logs_dir w = (Ok failures, w') ->
  P failures /\ fs w' = fs w.
Proof.
  intros Hadd Hnil. unfold _find_pod_failures.
  intros (tree & w0 & [= <- <-] & Hrun)%bind_ok_inv.
  revert Hrun.
  apply (for_each_inv (fun acc w1 => P acc /\ fs w1 = fs w)); [|done].
  intros acc [[root dirs] files] w1 acc1 w1' _ HQ.
  apply (for_each_inv (fun acc w1 => P acc /\ fs w1 = fs w)); [|done].
  intros acc2 file w2 acc3 w2' _ [HP Hfs] [Hfs' Hcase]%scan_finished_json_ok_inv.
  split; [|congruence]. destruct Hcase as [->|[s ->]]; [done|by apply Hadd].
Qed.

(** X4: every failure the pod scan returns is a pod failure with no test
    name, no report path and the ignore flag off, and the scan leaves the
    disk as it found it. *)
Theorem pod_failures_are_bare logs_dir w failures w' :
  _find_pod_failures logs_dir w = (Ok failures, w') ->
  fs w' = fs w /\
  forall f, f ∈ failures ->
    failure_type f = "pod_failure" /\ failed_test_name f = None /\
    failed_test_junit_path f = None /\ ignore f = false.
Proof.
  intros [Hall Hfs]%(find_pod_failures_inv
    (Forall (fun f => failure_type f = "pod_failure" /\ failed_test_name f = None /\
                      failed_test_junit_path f = None /\ ignore f = false))).
  - split; [done|]. by apply Forall_forall.
  - intros l s Hl. apply Forall_app. split; [done|]. by apply Forall_singleton.
  - constructor.
Qed.

Lemma pod_failures_are_bare_witness :
  fs (_find_pod_failures "/tmp/77/logs" Sample.logs_disk).2 = fs Sample.logs_disk /\
  forall f, f ∈ [new_Failure "build" "pod_failure" None None;
                 new_Failure "test" "pod_failure" None None] ->
    failure_type f = "pod_failure" /\ failed_test_name f = None /\
    failed_test_junit_path f = None /\ ignore f = false.
Proof.
  apply (pod_failures_are_bare "/tmp/77/logs" Sample.logs_disk). reflexivity.
Defined.

(** X5: with verbose reporting off, the test scan returns at most one
    failure per step: the steps of its failures are pairwise distinct, each
    failure is a test failure that carries only its step, and the step is
    the directory of a report of the tree that holds a failure or an error. *)
Theorem plain_test_failures_one_per_step config junit_dir w failures w' :
  verbose_test_failure_reporting config = false ->
  _find_test_failures config junit_dir w = (Ok failures, w') ->
  NoDup (map step failures) /\
  forall f, f ∈ failures ->
    f = new_Failure (step f) "test_failure" None None /\
    exists path doc name,
      step f = OsPath.basename (OsPath.dirname path) /\
      report_at junit_dir (fs w) path doc /\ reported_in doc name.
Proof.
  intros Hplain Hscan.
  set (good := fun d : failure_dict =>
    d = mkDict (d_step d) "test_failure" None None /\
    exists path doc name,
      d_step d = OsPath.basename (OsPath.dirname path) /\
      report_at junit_dir (fs w) path doc /\ reported_in doc name).
  destruct (find_test_failures_inv config junit_dir
              (fun l => NoDup (map d_step l) /\ Forall good l) w failures w')
    as (fl & [Hnodup Hfl] & -> & _); [|by split; constructor|exact Hscan|].
  - intros path name doc l w1 l' w1' _ Hat Hin [Hnodup Hl] Hrec.
    rewrite Hplain in Hrec.
    apply record_ok_inv in Hrec as (reported & -> & _ & [(_ & -> & _)|(Hnew & ->)]);
      [done|].
    split.
    + rewrite map_app. apply NoDup_app. split; [done|].
      split; [|apply NoDup_singleton].
      intros s (d & -> & Hd)%list_elem_of_fmap Hs%list_elem_of_singleton.
      cbn in Hs. apply Hnew. rewrite Forall_forall in Hl.
      destruct (Hl d Hd) as [Hd' _]. rewrite Hd' in Hd. by rewrite Hs in Hd.
    + apply Forall_app. split; [done|]. apply Forall_singleton.
      split; [done|]. by exists path, doc, name.
  - split.
    + by rewrite map_map.
    + intros f (d & -> & Hd)%list_elem_of_fmap.
      rewrite Forall_forall in Hfl. destruct (Hfl d Hd) as [Hd' Hrep].
      split; [|done]. destruct d as [s k n p]. injection Hd' as -> -> ->. done.
Qed.

Lemma plain_test_failures_witness :
  NoDup (map step [new_Failure "build" "test_failure" None None]) /\
  forall f, f ∈ [new_Failure "build" "test_failure" None None] ->
    f = new_Failure (step f) "test_failure" None None /\
    exists path doc name,
      step f = OsPath.basename (OsPath.dirname path) /\
      report_at "/tmp/77/artifacts" (fs Sample.report_disk) path doc /\
      reported_in doc name.
Proof.
  apply (plain_test_failures_one_per_step Sample.plain_reporting "/tmp/77/artifacts"
           Sample.report_disk _
           ((_find_test_failures Sample.plain_reporting "/tmp/77/artifacts"
               Sample.report_disk).2)); reflexivity.
Defined.

(** What [_find_failures] returns, by what the two scans returned. *)
Lemma find_failures_ok_inv config logs_dir junit_dir w r w' :
  _find_failures config logs_dir junit_dir w = (Ok r, w') ->
  exists pods tests w1,
    _find_pod_failures logs_dir w = (Ok pods, w1) /\
    _find_test_failures config junit_dir w1 = (Ok tests, w') /\
    r = match (combine (failure_rules config) (tests ++ pods)).1 with
        | [] => None
        | out => Some out
        end.
Proof.
  unfold _find_failures.
  intros (pods & w1 & Hpods & (tests & w2 & Htests & Hret)%bind_ok_inv)%bind_ok_inv.
  exists pods, tests, w1. split; [done|].
  destruct (combine _ _).1; injection Hret as <- <-; by split.
Qed.

(** The kind of every failure of the test scan, in both reporting modes. *)
Lemma test_failures_kind config junit_dir w failures w' :
  _find_test_failures config junit_dir w = (Ok failures, w') ->
  Forall (fun f => failure_type f = "test_failure") failures.
Proof.
  intros Hscan.
  destruct (find_test_failures_inv config junit_dir
              (Forall (fun d => d_failure_type d = "test_failure")) w failures w')
    as (fl & Hfl & -> & _); [|constructor|exact Hscan|].
  - intros path name doc l w1 l' w1' _ _ _ Hl
      (reported & _ & _ & [(_ & -> & _)|(_ & ->)])%record_ok_inv; [done|].
    apply Forall_app. split; [done|]. by apply Forall_singleton.
  - by apply Forall_fmap.
Qed.

(** A failure of the combined list is a failure of the input with the
    rules applied. *)
Lemma combine_from_input rules all g :
  g ∈ (combine rules all).1 -> exists f, f ∈ all /\ g = apply_rules rules f.
Proof.
  rewrite combine_first_of_step.
  intros (f & -> & (i & Hi & _)%first_of_step_first)%list_elem_of_fmap.
  exists f. split; [|done]. by eapply list_elem_of_lookup_2.
Qed.

(** The fields of a constructed job that hold the failures. *)
Lemma init_failures getenv st name name_safe build_id bucket config pr_id w job w' :
  __init__ getenv st name name_safe build_id bucket config pr_id w = (Ok job, w') ->
  firewatch_config job = config /\
  has_test_failures job = any_of_type "test_failure" (failures job) /\
  has_pod_failures job = any_of_type "pod_failure" (failures job) /\
  has_failures job = bool_decide (is_Some (failures job)) /\
  exists w0,
    _find_failures config (logs_dir job) (junit_dir job) w0 = (Ok (failures job), w').
Proof.
  unfold __init__.
  intros (r & w1 & _ & Hk)%bind_ok_inv.
  apply bind_ok_inv in Hk as (pr & w2 & _ & Hk).
  apply bind_ok_inv in Hk as (steps & w3 & _ & Hk).
  apply bind_ok_inv in Hk as (dl & w4 & _ & Hk).
  apply bind_ok_inv in Hk as (logs & w5 & _ & Hk).
  apply bind_ok_inv in Hk as (junit & w6 & _ & Hk).
  apply bind_ok_inv in Hk as (fl & w7 & Hfind & Hk).
  injection Hk as <- <-. cbn. repeat split. by exists w6.
Qed.

(** X6: the failure fields of every job the constructor returns agree:
    the failure list is absent or not empty, never empty; the job has
    failures exactly when the list is there, and then it has test failures
    or pod failures; the steps of the listed failures are pairwise distinct
    and every listed failure is a test failure or a pod failure. *)
Theorem job_failure_flags_agree
    getenv st name name_safe build_id bucket config pr_id w job w' :
  __init__ getenv st name name_safe build_id bucket config pr_id w = (Ok job, w') ->
  failures job <> Some [] /\
  (has_failures job = true <-> is_Some (failures job)) /\
  has_failures job = has_test_failures job || has_pod_failures job /\
  forall l, failures job = Some l ->
    NoDup (map step l) /\
    forall f, f ∈ l ->
      failure_type f = "test_failure" \/ failure_type f = "pod_failure".
Proof.
  intros (_ & -> & -> & -> & w0 & Hfind)%init_failures.
  apply find_failures_ok_inv in Hfind as (pods & tests & w1 & Hpods & Htests & Hr).
  apply test_failures_kind in Htests.
  apply (find_pod_failures_inv (Forall (fun f => failure_type f = "pod_failure")))
    in Hpods as [Hpods _]; [| |constructor].
  2: { intros l s Hl. apply Forall_app. split; [done|]. by apply Forall_singleton. }
  assert (Hkind : forall g, g ∈ (combine (failure_rules config) (tests ++ pods)).1 ->
            failure_type g = "test_failure" \/ failure_type g = "pod_failure").
  { intros g (f & [Hf|Hf]%elem_of_app & ->)%combine_from_input;
      destruct (apply_rules_fields (failure_rules config) f) as (_ & -> & _).
    - left. rewrite Forall_forall in Htests. by apply Htests.
    - right. rewrite Forall_forall in Hpods. by apply Hpods. }
  assert (Hnodup : NoDup (map step (combine (failure_rules config) (tests ++ pods)).1)).
  { rewrite combine_first_of_step, map_map.
    erewrite map_ext; [apply first_of_step_NoDup|].
    intros f. apply step_apply_rules. }
  rewrite Hr. destruct (combine _ _).1 as [|g out] eqn:Hout.
  - split; [done|]. split; [|split; [done|done]].
    split; [by intros ?%bool_decide_eq_true%is_Some_None|by intros ?%is_Some_None].
  - split; [done|]. split; [|split].
    + split; [done|]. intros _. by apply bool_decide_eq_true.
    + rewrite bool_decide_true by done. unfold any_of_type. cbn.
      destruct (Hkind g) as [-> | ->]; [by left|done|].
      by rewrite orb_true_r.
    + intros l [= <-]. done.
Qed.

Lemma job_failure_flags_witness :
  let job := {|
    name := Some "periodic-ci-foo"; name_safe := Some "foo"; build_id := Some "77";
    is_rehearsal := false; pr_id := ""; firewatch_config := Sample.no_rules;
    gcs_bucket := "origin-ci-test"; steps := ["build"; "build"];
    download_path := "/tmp/77"; logs_dir := "/tmp/77/logs";
    junit_dir := "/tmp/77/artifacts";
    failures := Some [new_Failure "build" "pod_failure" None None];
    has_test_failures := false; has_pod_failures := true; has_failures := true |} in
  failures job <> Some [] /\
  (has_failures job = true <-> is_Some (failures job)) /\
  has_failures job = has_test_failures job || has_pod_failures job /\
  forall l, failures job = Some l ->
    NoDup (map step l) /\
    forall f, f ∈ l ->
      failure_type f = "test_failure" \/ failure_type f = "pod_failure".
Proof.
  intros job.
  apply (job_failure_flags_agree Sample.no_env Sample.periodic_storage
           "periodic-ci-foo" "foo" (Some "77") "origin-ci-test" Sample.no_rules None
           Sample.empty_disk job
           ((__init__ Sample.no_env Sample.periodic_storage
               "periodic-ci-foo" "foo" (Some "77") "origin-ci-test" Sample.no_rules None
               Sample.empty_disk).2)).
  vm_compute. reflexivity.
Defined.

Lemma bind_exit_inv {A B} (m : M A) (k : A -> M B) w code w' :
  bind m k w = (Exit code, w') ->
  m w = (Exit code, w') \/ exists a w1, m w = (Ok a, w1) /\ k a w1 = (Exit code, w').
Proof.
  unfold bind. destruct (m w) as [[a| | |] w1]; intros Hk; try discriminate.
  - right. eauto.
  - left. by injection Hk as -> ->.
Qed.

Lemma never_exits_run {A} (m : M A) w code w' :
  never_exits m -> m w = (Exit code, w') -> False.
Proof. intros Hm Hex. apply (Hm w code). by rewrite Hex. Qed.

(** X7: the constructor ends the process in one case only: the job is not
    a rehearsal and step discovery lists no object.  The exit code is then 1
    and all that happened before is the error record in the log; no
    download, scan or classification ends the process. *)
Theorem init_exits_only_without_steps
    getenv st name name_safe build_id bucket config pr_id w code w' :
  __init__ getenv st name name_safe build_id bucket config pr_id w = (Exit code, w') ->
  code = 1 /\
  exists n,
    resolved_name getenv name = Some n /\
    Py.startswith n "rehearse" = false /\
    list_blobs st bucket
      (steps_prefix (Some n) (resolved_build_id getenv build_id)
         (resolved_name_safe getenv name_safe)) = [] /\
    w' = logged w ERROR ("No steps found for job " +:+ n).
Proof.
  unfold __init__.
  fold (resolved_name getenv name) (resolved_name_safe getenv name_safe)
    (resolved_build_id getenv build_id).
  intros [Hex|(r & w1 & Hcheck & Hk)]%bind_exit_inv.
  { by apply never_exits_run in Hex; [|apply check_is_rehearsal_never_exits]. }
  apply bind_exit_inv in Hk as [Hex|(pr & w2 & Hpr & Hk)].
  { destruct r.
    - by apply never_exits_run in Hex; [|apply derive_pr_id_never_exits].
    - discriminate. }
  apply bind_exit_inv in Hk as [Hex|(steps & w3 & _ & Hk)].
  - destruct (resolved_name getenv name) as [n|] eqn:Hn; [|discriminate].
    destruct r.
    { by apply never_exits_run in Hex; [|apply get_steps_rehearsal_never_exits]. }
    injection Hpr as <- <-.
    unfold _check_is_rehearsal in Hcheck. cbn in Hcheck. unfold bind, ret in Hcheck.
    cbn in Hcheck.
    destruct (Py.startswith n "rehearse") eqn:Hr; [discriminate|].
    injection Hcheck as <-.
    destruct (get_steps_outcome false (Some n) (resolved_name_safe getenv name_safe)
                (resolved_build_id getenv build_id) st bucket w)
      as (steps & Hsteps & Hrun).
    rewrite Hrun in Hex. rewrite orb_false_r in Hex.
    destruct (list_blobs _ _ _) as [|b blobs] eqn:Hblobs; [|discriminate].
    injection Hex as <- <-. split; [done|]. by exists n.
  - exfalso. revert Hk. apply never_exits_run.
    apply never_exits_bind; [apply get_download_path_never_exits|]. intros dp.
    apply never_exits_bind; [apply download_logs_never_exits|]. intros ld.
    apply never_exits_bind; [apply download_junit_never_exits|]. intros jd.
    apply never_exits_bind; [apply find_failures_never_exits|]. intros fl.
    apply never_exits_ret.
Qed.

Lemma init_exits_witness :
  (1 = 1)%Z /\
  exists n,
    resolved_name Sample.no_env "periodic-ci-foo" = Some n /\
    Py.startswith n "rehearse" = false /\
    list_blobs Sample.empty_storage "origin-ci-test"
      (steps_prefix (Some n) (resolved_build_id Sample.no_env (Some "77"))
         (resolved_name_safe Sample.no_env "foo")) = [] /\
    logged Sample.empty_disk ERROR "No steps found for job periodic-ci-foo" =
    logged Sample.empty_disk ERROR ("No steps found for job " +:+ n).
Proof.
  apply (init_exits_only_without_steps Sample.no_env Sample.empty_storage
           "periodic-ci-foo" "foo" (Some "77") "origin-ci-test" Sample.no_rules None
           Sample.empty_disk).
  reflexivity.
Defined.

Lemma combine_nil_inv rules all : (combine rules all).1 = [] -> all = [].
Proof.
  rewrite combine_first_of_step. intros Hnil%fmap_nil_inv.
  destruct all as [|f all]; [done|].
  destruct (first_of_step_covers (f :: all) ∅ f) as [Hin|Hin].
  - apply elem_of_cons. by left.
  - by apply elem_of_empty in Hin.
  - rewrite Hnil in Hin. by apply elem_of_nil in Hin.
Qed.

(** X8: when both scans return, the classifier returns too, and it returns
    no list exactly when neither scan found a failure; it leaves the disk
    as the scans found it. *)
Theorem find_failures_none_iff config logs_dir junit_dir w pods w1 tests w2 :
  _find_pod_failures logs_dir w = (Ok pods, w1) ->
  _find_test_failures config junit_dir w1 = (Ok tests, w2) ->
  exists r,
    _find_failures config logs_dir junit_dir w = (Ok r, w2) /\
    (r = None <-> pods = [] /\ tests = []) /\
    fs w2 = fs w.
Proof.
  intros Hpods Htests.
  rewrite (_find_failures_combines _ _ _ _ _ _ _ _ Hpods Htests).
  eexists. split; [done|]. split.
  - destruct (combine _ _).1 as [|g out] eqn:Hout.
    + apply combine_nil_inv in Hout as [-> ->]%app_eq_nil. done.
    + split; [done|]. intros [-> ->]. discriminate Hout.
  - apply (find_pod_failures_inv (fun _ => True)) in Hpods as [_ Hfs1]; [|done..].
    apply (find_test_failures_inv _ _ (fun _ => True)) in Htests as (_ & _ & _ & Hfs2);
      [congruence|done..].
Qed.

Lemma find_failures_none_iff_witness :
  exists r,
    _find_failures Sample.no_rules "/tmp/77/logs" "/tmp/77/artifacts" Sample.logs_disk =
      (Ok r, (_find_failures Sample.no_rules "/tmp/77/logs" "/tmp/77/artifacts"
                Sample.logs_disk).2) /\
    (r = None <->
     [new_Failure "build" "pod_failure" None None;
      new_Failure "test" "pod_failure" None None] = [] /\ @nil Failure = []) /\
    fs (_find_failures Sample.no_rules "/tmp/77/logs" "/tmp/77/artifacts"
          Sample.logs_disk).2 = fs Sample.logs_disk.
Proof.
  apply (find_failures_none_iff Sample.no_rules "/tmp/77/logs" "/tmp/77/artifacts"
           Sample.logs_disk _
           ((_find_pod_failures "/tmp/77/logs" Sample.logs_disk).2)); reflexivity.
Defined.

Lemma walk_not_directory top w :
  (forall es, at_path top w <> Some (Fs.Dir es)) -> Fs.walk top (fs w) = [].
Proof.
  unfold at_path, Fs.walk. intros Hno.
  destruct (Fs.resolve _ _) as [[d|es]|]; [done| |done]. by destruct (Hno es).
Qed.

(** X9: a scan of a path that names no directory (nothing is there, or a
    file is) finds nothing and raises nothing, and the classifier then
    returns no list; nothing is read, written or logged. *)
Theorem scans_of_missing_directories_find_nothing config logs_dir junit_dir w :
  (forall es, at_path logs_dir w <> Some (Fs.Dir es)) ->
  (forall es, at_path junit_dir w <> Some (Fs.Dir es)) ->
  _find_pod_failures logs_dir w = (Ok [], w) /\
  _find_test_failures config junit_dir w = (Ok [], w) /\
  _find_failures config logs_dir junit_dir w = (Ok None, w).
Proof.
  intros Hlogs%walk_not_directory Hjunit%walk_not_directory.
  assert (Hpods : _find_pod_failures logs_dir w = (Ok [], w)).
  { unfold _find_pod_failures, os_walk, bind. by rewrite Hlogs. }
  assert (Htests : _find_test_failures config junit_dir w = (Ok [], w)).
  { unfold _find_test_failures, os_walk, bind. by rewrite Hjunit. }
  split; [done|]. split; [done|].
  by rewrite (_find_failures_combines _ _ _ _ _ _ _ _ Hpods Htests).
Qed.

Lemma scans_of_missing_directories_witness :
  _find_pod_failures "/tmp/77/logs" Sample.empty_disk = (Ok [], Sample.empty_disk) /\
  _find_test_failures Sample.no_rules "/tmp/77/artifacts" Sample.empty_disk =
    (Ok [], Sample.empty_disk) /\
  _find_failures Sample.no_rules "/tmp/77/logs" "/tmp/77/artifacts" Sample.empty_disk =
    (Ok None, Sample.empty_disk).
Proof.
  apply scans_of_missing_directories_find_nothing; intros es; vm_compute; discriminate.
Defined.

End Results.

(** ** What the passes leave on the disk *)

Module Stored.

Import Job Spec MonadFacts StringFacts PathFacts PodScan Download TestScan.

Lemma entry_app_new name new (es : list (string * Fs.node)) :
  Fs.entry name es = None -> Fs.entry name (es ++ [(name, new)]) = Some new.
Proof.
  induction es as [|[n c] es IH]; cbn.
  - by rewrite bool_decide_true.
  - by case_bool_decide.
Qed.

(** The entry created is there afterwards, and was not there before. *)
Lemma create_resolve segs : forall name new n n',
  Fs.create segs name new n = Ok n' ->
  Fs.resolve (segs ++ [name]) n' = Some new /\ Fs.resolve (segs ++ [name]) n = None.
Proof.
  induction segs as [|s segs IH]; intros name new [d|es] n'; cbn; try done.
  - destruct (Fs.entry name es) eqn:Hname; [done|]. intros [= <-]. cbn.
    by rewrite (entry_app_new _ _ _ Hname).
  - destruct (Fs.entry s es) as [c|] eqn:Hs; [|done].
    destruct (Fs.create segs name new c) as [c'| | |] eqn:Hc; try done.
    intros [= <-]. cbn. rewrite (entry_set_entry_eq _ _ _ _ Hs).
    by apply IH.
Qed.

(** [FileExistsError] is raised for an entry that is there only. *)
Lemma create_exists segs : forall name new n,
  Fs.create segs name new n = Raise FileExistsError ->
  is_Some (Fs.resolve (segs ++ [name]) n).
Proof.
  induction segs as [|s segs IH]; intros name new [d|es]; cbn; try done.
  - by destruct (Fs.entry name es) eqn:Hname.
  - destruct (Fs.entry s es) as [c|] eqn:Hs; [|done].
    destruct (Fs.create segs name new c) as [c'|e| |] eqn:Hc; try done.
    intros [= ->]. by eapply IH.
Qed.

Lemma segments_removelast_last s (r : list string) :
  removelast (s :: r) ++ [List.last (s :: r) s] = s :: r.
Proof. symmetry. by apply app_removelast_last. Qed.

Lemma create_path_resolve p new root root' :
  Fs.create_path p new root = Ok root' ->
  Fs.resolve (Fs.segments p) root' = Some new /\ Fs.exists_ p root = false.
Proof.
  unfold Fs.create_path, Fs.exists_.
  destruct (Fs.segments p) as [|s r]; [done|].
  intros [Hnew Hold]%create_resolve.
  rewrite segments_removelast_last in Hnew, Hold. split; [done|].
  rewrite Hold. apply bool_decide_eq_false. by intros ?%is_Some_None.
Qed.

Lemma create_path_exists p new root :
  Fs.create_path p new root = Raise FileExistsError -> Fs.exists_ p root = true.
Proof.
  unfold Fs.create_path, Fs.exists_.
  destruct (Fs.segments p) as [|s r]; [intros _; by apply bool_decide_eq_true|].
  intros Hc%create_exists. rewrite segments_removelast_last in Hc.
  by apply bool_decide_eq_true.
Qed.

Lemma lift_fs_ok_inv f w u w' :
  lift_fs f w = (Ok u, w') -> f (fs w) = Ok (fs w') /\ log w' = log w.
Proof.
  unfold lift_fs. destruct (f (fs w)) as [root| | |]; try done.
  by intros [= _ <-].
Qed.

Lemma lift_fs_raise_inv f w e w' :
  lift_fs f w = (Raise e, w') -> f (fs w) = Raise e /\ w' = w.
Proof.
  unfold lift_fs. destruct (f (fs w)) as [root| | |]; try done.
  by intros [= <- <-].
Qed.

Lemma exists_at_path p w : Fs.exists_ p (fs w) = bool_decide (is_Some (at_path p w)).
Proof. reflexivity. Qed.

Lemma get_download_path_there build_id w :
  Fs.exists_ ("/tmp/" +:+ fmt build_id) (fs w) = true ->
  _get_download_path build_id w = (Ok ("/tmp/" +:+ fmt build_id), w).
Proof. intros Hex. unfold _get_download_path, bind, path_exists. by rewrite Hex. Qed.

Lemma get_download_path_missing build_id w :
  Fs.exists_ ("/tmp/" +:+ fmt build_id) (fs w) = false ->
  _get_download_path build_id w =
  match mkdir ("/tmp/" +:+ fmt build_id)
          (logged w INFO ("Download path " +:+ ("/tmp/" +:+ fmt build_id) +:+
                          " does not exist, creating directory.")) with
  | (Ok _, w1) => (Ok ("/tmp/" +:+ fmt build_id), w1)
  | (Raise e, w1) => (Raise e, w1)
  | (Exit c, w1) => (Exit c, w1)
  | (Diverge, w1) => (Diverge, w1)
  end.
Proof.
  intros Hex. unfold _get_download_path, bind at 1, path_exists. rewrite Hex.
  cbn [negb when]. unfold bind, logger, logged.
  by destruct (mkdir _ _) as [[u|e|c|] w1].
Qed.

(** X10: when [_get_download_path] returns, its result is the directory
    of the build under [/tmp], which is on the disk from then on; a directory
    that was there is left alone, with nothing logged, so that a second call
    changes nothing. *)
Theorem get_download_path_ensures build_id w p w' :
  _get_download_path build_id w = (Ok p, w') ->
  p = "/tmp/" +:+ fmt build_id /\
  Fs.exists_ p (fs w') = true /\
  (Fs.exists_ p (fs w) = true -> w' = w) /\
  _get_download_path build_id w' = (Ok p, w').
Proof.
  destruct (Fs.exists_ ("/tmp/" +:+ fmt build_id) (fs w)) eqn:Hex.
  - rewrite (get_download_path_there _ _ Hex).
    intros [= <- <-]. repeat split; try done.
    by apply get_download_path_there.
  - rewrite (get_download_path_missing _ _ Hex).
    destruct (mkdir _ _) as [[u|e|c|] w1] eqn:Hmk; cbn; try done.
    intros [= <- <-].
    apply lift_fs_ok_inv in Hmk as [[Hnew _]%create_path_resolve _].
    assert (Hex' : Fs.exists_ ("/tmp/" +:+ fmt build_id) (fs w1) = true).
    { unfold Fs.exists_. rewrite Hnew. by apply bool_decide_eq_true. }
    repeat split; try done; [congruence|].
    by apply get_download_path_there.
Qed.

Lemma get_download_path_witness :
  let w' := (_get_download_path (Some "77") Sample.empty_disk).2 in
  "/tmp/77" = "/tmp/" +:+ fmt (Some "77") /\
  Fs.exists_ "/tmp/77" (fs w') = true /\
  (Fs.exists_ "/tmp/77" (fs Sample.empty_disk) = true -> w' = Sample.empty_disk) /\
  _get_download_path (Some "77") w' = (Ok "/tmp/77", w').
Proof.
  intros w'.
  apply (get_download_path_ensures (Some "77") Sample.empty_disk "/tmp/77" w').
  reflexivity.
Defined.

#[local] Hint Resolve keeps_files_ret keeps_files_raise keeps_files_diverge
  keeps_files_or_raise keeps_files_logger keeps_files_path_exists
  keeps_files_create_path : keeps_files.

(** What holds of the world after the round of an element holds at the
    end of the loop, when every round keeps it. *)
Lemma for_each_each {A S} (Q : A -> World -> Prop) (body : S -> A -> M S)
    (l : list A) :
  (forall acc x w acc' w', body acc x w = (Ok acc', w') -> Q x w') ->
  (forall acc x y w acc' w', Q x w -> body acc y w = (Ok acc', w') -> Q x w') ->
  forall acc w acc' w',
    for_each l body acc w = (Ok acc', w') -> forall x, x ∈ l -> Q x w'.
Proof.
  intros Hest Hkeep. induction l as [|y l IH]; intros acc w acc' w' Hrun x Hx.
  - by apply elem_of_nil in Hx.
  - rewrite for_each_cons in Hrun.
    apply bind_ok_inv in Hrun as (acc1 & w1 & Hbody & Hrest).
    apply elem_of_cons in Hx as [->|Hx]; [|by eapply IH].
    revert Hrest. apply (for_each_inv (fun _ w0 => Q y w0)); [|by eapply Hest].
    intros acc2 z w2 acc3 w3 _. apply Hkeep.
Qed.

Lemma or_raise_ok_inv {A} e (o : option A) w a w' :
  or_raise e o w = (Ok a, w') -> o = Some a /\ w' = w.
Proof. destruct o; [|done]. by intros [= <- <-]. Qed.

Lemma read_file_at p w d :
  at_path p w = Some (Fs.File d) -> read_file p w = (Ok d, w).
Proof. unfold at_path, read_file. by intros ->. Qed.

Lemma keeps_files_run {A} (m : M A) w a w' p d :
  keeps_files m -> m w = (Ok a, w') ->
  at_path p w = Some (Fs.File d) -> at_path p w' = Some (Fs.File d).
Proof. intros Hm Hrun Hp. specialize (Hm w _ _ Hp). by rewrite Hrun in Hm. Qed.

Lemma download_ok_inv p b w u w' :
  download_to_new_file p b w = (Ok u, w') ->
  at_path p w' = Some (Fs.File (Blob.data b)) /\ Fs.exists_ p (fs w) = false.
Proof. by intros [?%create_path_resolve _]%lift_fs_ok_inv. Qed.

(** X11: when the log pass returns, every listed object whose last key
    segment is [finished.json] or [build-log.txt] is a file of the logs
    directory, under its second-to-last key segment and its own name, and
    reading that file gives the content of the object. *)
Theorem downloaded_logs_are_on_disk
    r dir st bucket job_name build_id job_name_safe pr w p w' :
  _download_logs r dir st bucket job_name build_id job_name_safe pr w = (Ok p, w') ->
  p = dir +:+ "/logs" /\
  forall blob bname bstep,
    blob ∈ list_blobs st bucket (artifact_prefix r job_name build_id job_name_safe pr) ->
    Py.index (Py.split "/" (Blob.name blob)) (-1) = Some bname ->
    Py.index (Py.split "/" (Blob.name blob)) (-2) = Some bstep ->
    bname ∈ ["finished.json"; "build-log.txt"] ->
    read_file (p +:+ "/" +:+ bstep +:+ "/" +:+ bname) w' = (Ok (Blob.data blob), w').
Proof.
  unfold _download_logs.
  intros ([] & w1 & _ & Hk)%bind_ok_inv.
  apply bind_ok_inv in Hk as (there & w2 & _ & Hk).
  apply bind_ok_inv in Hk as ([] & w3 & _ & Hk).
  apply bind_ok_inv in Hk as ([] & w4 & Hloop & Hret).
  injection Hret as <- <-. split; [done|].
  intros blob bname bstep Hin Hname Hstep Hallow. apply read_file_at.
  revert Hloop blob Hin bname bstep Hname Hstep Hallow.
  apply (for_each_each (fun blob w0 => forall bname bstep,
    Py.index (Py.split "/" (Blob.name blob)) (-1) = Some bname ->
    Py.index (Py.split "/" (Blob.name blob)) (-2) = Some bstep ->
    bname ∈ ["finished.json"; "build-log.txt"] ->
    at_path ((dir +:+ "/logs") +:+ "/" +:+ bstep +:+ "/" +:+ bname) w0 =
    Some (Fs.File (Blob.data blob)))).
  - intros [] blob w5 [] w6 Hbody bname bstep Hname Hstep Hallow.
    apply bind_ok_inv in Hbody as (blob_name & w7 & [Hn ->]%or_raise_ok_inv & Hbody).
    apply bind_ok_inv in Hbody as (blob_step & w8 & [Hs ->]%or_raise_ok_inv & Hbody).
    rewrite Hname in Hn. injection Hn as <-.
    rewrite Hstep in Hs. injection Hs as <-.
    rewrite bool_decide_true in Hbody by done.
    apply bind_ok_inv in Hbody as (there' & w9 & _ & Hbody).
    apply bind_ok_inv in Hbody as ([] & w10 & _ & Hbody).
    apply bind_ok_inv in Hbody as ([] & w11 & [Hfile _]%download_ok_inv & Hlog).
    by injection Hlog as <-.
  - intros [] blob other w5 [] w6 HQ Hbody bname bstep Hname Hstep Hallow.
    eapply keeps_files_run; [|exact Hbody|by apply HQ].
    unfold mkdir, download_to_new_file. keep_files.
Qed.

Lemma downloaded_logs_witness :
  let pass := _download_logs false "/tmp/77" Sample.periodic_storage "origin-ci-test"
                (Some "periodic-ci-foo") (Some "77") (Some "foo") ""
                (_get_download_path (Some "77") Sample.empty_disk).2 in
  read_file ("/tmp/77/logs" +:+ "/" +:+ "build" +:+ "/" +:+ "finished.json") pass.2 =
  (Ok (JsonDoc (Json.Obj [("passed", Json.Bool false)])), pass.2).
Proof.
  intros pass.
  refine (proj2 (downloaded_logs_are_on_disk false "/tmp/77" Sample.periodic_storage
           "origin-ci-test" (Some "periodic-ci-foo") (Some "77") (Some "foo") ""
           (_get_download_path (Some "77") Sample.empty_disk).2 "/tmp/77/logs" pass.2 _)
           {| Blob.name := "logs/periodic-ci-foo/77/artifacts/foo/build/finished.json";
              Blob.data := JsonDoc (Json.Obj [("passed", Json.Bool false)]) |}
           "finished.json" "build" _ _ _ _).
  - reflexivity.
  - vm_compute. apply elem_of_cons. by left.
  - reflexivity.
  - reflexivity.
  - apply elem_of_cons. by left.
Defined.

(** What the suffix loop returns: the path it was given or a suffixed
    one, which names nothing on the disk; the disk is as it was. *)
Lemma free_path_ok_inv fuel : forall dir filename extension p k w q w',
  free_path fuel dir filename extension p k w = (Ok q, w') ->
  fs w' = fs w /\ Fs.exists_ q (fs w) = false /\
  (q = p \/ exists n, q = dir +:+ "/" +:+ suffixed filename extension n).
Proof.
  induction fuel as [|fuel IH]; intros dir filename extension p k w q w'; [done|].
  cbn [free_path]. unfold bind at 1, path_exists.
  destruct (Fs.exists_ p (fs w)) eqn:Hex.
  - unfold bind at 1, logger. intros (Hfs & Hq & Hform)%IH. cbn in Hfs, Hq.
    split; [done|]. split; [done|]. right.
    destruct Hform as [->|[n ->]]; [by exists k|by exists n].
  - intros [= <- <-]. split; [done|]. split; [done|]. by left.
Qed.

(** Where the report pass leaves the objects it downloads. *)
Lemma report_pass_stores
    r dir st bucket job_name build_id job_name_safe pr w p w' :
  _download_junit r dir st bucket job_name build_id job_name_safe pr w = (Ok p, w') ->
  p = dir +:+ "/artifacts" /\
  forall blob bname,
    blob ∈ list_blobs st bucket (artifact_prefix r job_name build_id job_name_safe pr) ->
    Py.index (Py.split "/" (Blob.name blob)) (-1) = Some bname ->
    Py.contains "junit" bname = true ->
    exists bstep file_path,
      Py.index (Py.split "/" (Blob.name blob)) 5 = Some bstep /\
      (file_path = p +:+ "/" +:+ bstep +:+ "/" +:+
                   (OsPath.splitext bname).1 +:+ (OsPath.splitext bname).2 \/
       exists n, file_path = (p +:+ "/" +:+ bstep) +:+ "/" +:+
                   suffixed (OsPath.splitext bname).1 (OsPath.splitext bname).2 n) /\
      read_file file_path w' = (Ok (Blob.data blob), w').
Proof.
  unfold _download_junit.
  intros ([] & w1 & _ & Hk)%bind_ok_inv.
  apply bind_ok_inv in Hk as (there & w2 & _ & Hk).
  apply bind_ok_inv in Hk as ([] & w3 & _ & Hk).
  apply bind_ok_inv in Hk as ([] & w4 & Hloop & Hret).
  injection Hret as <- <-. split; [done|].
  intros blob bname Hin Hname Hjunit.
  cut (exists bstep file_path,
      Py.index (Py.split "/" (Blob.name blob)) 5 = Some bstep /\
      (file_path = (dir +:+ "/artifacts") +:+ "/" +:+ bstep +:+ "/" +:+
                   (OsPath.splitext bname).1 +:+ (OsPath.splitext bname).2 \/
       exists n, file_path = ((dir +:+ "/artifacts") +:+ "/" +:+ bstep) +:+ "/" +:+
                   suffixed (OsPath.splitext bname).1 (OsPath.splitext bname).2 n) /\
      at_path file_path w4 = Some (Fs.File (Blob.data blob))).
  { intros (bstep & file_path & H5 & Hform & Hat).
    exists bstep, file_path. by split; [|split; [|apply read_file_at]]. }
  revert Hloop blob Hin bname Hname Hjunit.
  apply (for_each_each (fun blob w0 => forall bname,
    Py.index (Py.split "/" (Blob.name blob)) (-1) = Some bname ->
    Py.contains "junit" bname = true ->
    exists bstep file_path,
      Py.index (Py.split "/" (Blob.name blob)) 5 = Some bstep /\
      (file_path = (dir +:+ "/artifacts") +:+ "/" +:+ bstep +:+ "/" +:+
                   (OsPath.splitext bname).1 +:+ (OsPath.splitext bname).2 \/
       exists n, file_path = ((dir +:+ "/artifacts") +:+ "/" +:+ bstep) +:+ "/" +:+
                   suffixed (OsPath.splitext bname).1 (OsPath.splitext bname).2 n) /\
      at_path file_path w0 = Some (Fs.File (Blob.data blob)))).
  - intros [] blob w5 [] w6 Hbody bname Hname Hjunit.
    apply bind_ok_inv in Hbody as (blob_name & w7 & [Hn ->]%or_raise_ok_inv & Hbody).
    rewrite Hname in Hn. injection Hn as <-. rewrite Hjunit in Hbody.
    apply bind_ok_inv in Hbody as (blob_step & w8 & [Hs ->]%or_raise_ok_inv & Hbody).
    apply bind_ok_inv in Hbody as (there' & w9 & _ & Hbody).
    apply bind_ok_inv in Hbody as ([] & w10 & _ & Hbody).
    destruct (OsPath.splitext bname) as [filename extension].
    apply bind_ok_inv in Hbody as (file_path & w11 & Hfree & Hbody).
    apply free_path_ok_inv in Hfree as (_ & _ & Hform).
    apply bind_ok_inv in Hbody as ([] & w12 & [Hfile _]%download_ok_inv & Hlog).
    injection Hlog as <-.
    exists blob_step, file_path. by split; [|split].
  - intros [] blob other w5 [] w6 HQ Hbody bname Hname Hjunit.
    destruct (HQ bname Hname Hjunit) as (bstep & file_path & H5 & Hform & Hat).
    exists bstep, file_path. split; [done|]. split; [done|].
    eapply keeps_files_run; [|exact Hbody|exact Hat].
    unfold mkdir, download_to_new_file. keep_files.
    intros w0 q d. apply keeps_files_free_path.
Qed.

(** X12: when the report pass returns, every listed object whose last
    key segment holds [junit] is a file of the artifacts directory, under
    the segment of index 5 of its key, named as the object or, when that
    name was taken, with a numbered suffix before the extension; reading
    that file gives the content of the object. *)
Theorem downloaded_reports_are_on_disk
    r dir st bucket job_name build_id job_name_safe pr w p w' :
  _download_junit r dir st bucket job_name build_id job_name_safe pr w = (Ok p, w') ->
  p = dir +:+ "/artifacts" /\
  forall blob bname,
    blob ∈ list_blobs st bucket (artifact_prefix r job_name build_id job_name_safe pr) ->
    Py.index (Py.split "/" (Blob.name blob)) (-1) = Some bname ->
    Py.contains "junit" bname = true ->
    exists bstep file_path,
      Py.index (Py.split "/" (Blob.name blob)) 5 = Some bstep /\
      (file_path = p +:+ "/" +:+ bstep +:+ "/" +:+
                   (OsPath.splitext bname).1 +:+ (OsPath.splitext bname).2 \/
       exists n, file_path = (p +:+ "/" +:+ bstep) +:+ "/" +:+
                   suffixed (OsPath.splitext bname).1 (OsPath.splitext bname).2 n) /\
      read_file file_path w' = (Ok (Blob.data blob), w').
Proof. apply report_pass_stores. Qed.

Lemma downloaded_reports_witness :
  let pass := _download_junit true "/tmp/99" Sample.rehearsal_storage "origin-ci-test"
                (Some "rehearse-123-foo") (Some "99") (Some "foo") "123" Sample.disk_99 in
  exists bstep file_path,
    Py.index (Py.split "/" Sample.rehearsal_report_key) 5 = Some bstep /\
    (file_path = "/tmp/99/artifacts" +:+ "/" +:+ bstep +:+ "/" +:+
                 (OsPath.splitext "junit_report.xml").1 +:+
                 (OsPath.splitext "junit_report.xml").2 \/
     exists n, file_path = ("/tmp/99/artifacts" +:+ "/" +:+ bstep) +:+ "/" +:+
                 suffixed (OsPath.splitext "junit_report.xml").1
                   (OsPath.splitext "junit_report.xml").2 n) /\
    read_file file_path pass.2 = (Ok Sample.one_failing_report, pass.2).
Proof.
  intros pass.
  refine (proj2 (downloaded_reports_are_on_disk true "/tmp/99" Sample.rehearsal_storage
           "origin-ci-test" (Some "rehearse-123-foo") (Some "99") (Some "foo") "123"
           Sample.disk_99 "/tmp/99/artifacts" pass.2 _)
           {| Blob.name := Sample.rehearsal_report_key;
              Blob.data := Sample.one_failing_report |}
           "junit_report.xml" _ _ _).
  - reflexivity.
  - vm_compute. apply elem_of_cons. by left.
  - reflexivity.
  - reflexivity.
Defined.

(** *** The report pass comes to an end *)

Lemma ends_bind {A B} (m : M A) (k : A -> M B) w :
  ends (m w) -> (forall a w1, m w = (Ok a, w1) -> ends (k a w1)) ->
  ends (bind m k w).
Proof.
  unfold ends, bind. intros Hd Hk.
  destruct (m w) as [[a|e|c|] w1]; cbn in *; [by apply Hk|done..].
Qed.

Lemma ends_for_each {A S} (l : list A) (body : S -> A -> M S) :
  (forall acc x w, ends (body acc x w)) ->
  forall acc w, ends (for_each l body acc w).
Proof.
  intros Hbody. induction l as [|x l IH]; intros acc w; [done|].
  rewrite for_each_cons. apply ends_bind; [apply Hbody|]. intros; apply IH.
Qed.

Lemma ends_or_raise {A} (o : option A) w : ends (or_raise IndexError o w).
Proof. by destruct o. Qed.

Lemma create_never_diverges segs : forall name new n,
  Fs.create segs name new n <> Diverge.
Proof.
  induction segs as [|s segs IH]; intros name new [d|es]; cbn; try done.
  - by destruct (Fs.entry name es).
  - destruct (Fs.entry s es) as [c|]; [|done].
    specialize (IH name new c). by destruct (Fs.create segs name new c).
Qed.

Lemma ends_create p new w : ends (lift_fs (Fs.create_path p new) w).
Proof.
  unfold ends, lift_fs.
  destruct (Fs.create_path p new (fs w)) as [root|e|c|] eqn:Hc; cbn; [done..|].
  unfold Fs.create_path in Hc. destruct (Fs.segments p); [done|].
  by apply create_never_diverges in Hc.
Qed.

(** [if not os.path.exists(p): os.mkdir(p)] *)
Lemma ends_ensure_dir {B} p (k : unit -> M B) w :
  (forall w1, ends (k tt w1)) ->
  ends ((let* there := path_exists p in
         run when (negb there) (mkdir p) in k tt) w).
Proof.
  intros Hk. apply ends_bind; [done|]. intros there w1 [= <- <-].
  apply ends_bind; [|by intros []].
  destruct (Fs.exists_ p (fs w)); [done|]. apply ends_create.
Qed.

Lemma split_parts_no_sep sep s :
  Forall (fun x => has_char sep x = false) (Py.split sep s).
Proof.
  induction s as [|c s IH]; [by repeat constructor|].
  rewrite split_cons. destruct (Ascii.eqb c sep) eqn:Hc.
  - by constructor.
  - destruct (Py.split sep s) as [|h t].
    + repeat constructor. cbn. by rewrite Hc.
    + apply Forall_cons in IH as [Hh Ht]. constructor; [|done]. cbn. by rewrite Hc.
Qed.

Lemma index_elem {A} (l : list A) i x : Py.index l i = Some x -> x ∈ l.
Proof.
  unfold Py.index. destruct (i <? 0); [destruct (_ <? 0); [done|]|];
    apply list_elem_of_lookup_2.
Qed.

Lemma has_char_take c n : forall s,
  has_char c s = false -> has_char c (Py.take n s) = false.
Proof.
  induction n as [|n IH]; intros [|a s]; cbn; try done.
  intros [Ha Hs]%orb_false_iff. by rewrite Ha, IH.
Qed.

Lemma has_char_drop c n : forall s,
  has_char c s = false -> has_char c (Py.drop n s) = false.
Proof.
  induction n as [|n IH]; intros [|a s]; cbn; try done.
  intros [Ha Hs]%orb_false_iff. by apply IH.
Qed.

Lemma splitext_scan_parts p dotIndex fuel : forall filenameIndex r,
  OsPath.splitext_scan p filenameIndex dotIndex fuel = Some r ->
  r = (Py.take dotIndex p, Py.drop dotIndex p).
Proof.
  induction fuel as [|fuel IH]; intros filenameIndex r; [done|].
  cbn [OsPath.splitext_scan].
  destruct (filenameIndex <? dotIndex)%nat; [|done].
  destruct (negb _); [by intros [= <-]|apply IH].
Qed.

(** Neither part of a name without a slash has one. *)
Lemma splitext_no_sep p :
  has_char "/" p = false ->
  has_char "/" (OsPath.splitext p).1 = false /\
  has_char "/" (OsPath.splitext p).2 = false.
Proof.
  intros Hp. unfold OsPath.splitext.
  destruct (_ <? _); [|done].
  destruct (OsPath.splitext_scan _ _ _ _) as [r|] eqn:Hscan; [|done].
  apply splitext_scan_parts in Hscan as ->. cbn.
  by split; [apply has_char_take|apply has_char_drop].
Qed.

(** X13: the report pass always comes to an end, whatever the storage
    lists and whatever files and directories are on the disk: the search for
    a free file name, which tries the name of the object and then that name
    with the suffixes [_1], [_2], ... before the extension, stops before it
    has tried more names than the disk has entries, plus two. *)
Theorem report_pass_always_ends
    r dir st bucket job_name build_id job_name_safe pr w :
  ends (_download_junit r dir st bucket job_name build_id job_name_safe pr w).
Proof.
  unfold _download_junit.
  apply ends_bind; [done|]. intros [] w1 _.
  apply (ends_ensure_dir _ (fun _ => _ )). intros w2.
  apply ends_bind; [|done].
  apply ends_for_each. intros [] blob w3.
  apply ends_bind; [apply ends_or_raise|].
  intros blob_name w4 [Hname ->]%or_raise_ok_inv.
  destruct (Py.contains "junit" blob_name); [|done].
  apply ends_bind; [apply ends_or_raise|].
  intros blob_step w5 [Hstep ->]%or_raise_ok_inv.
  apply (ends_ensure_dir _ (fun _ => _)). intros w6.
  assert (Hslash : has_char "/" blob_name = false).
  { apply index_elem in Hname.
    pose proof (split_parts_no_sep "/" (Blob.name blob)) as Hall.
    rewrite Forall_forall in Hall. by apply Hall. }
  apply splitext_no_sep in Hslash as [Hfilename Hextension].
  destruct (OsPath.splitext blob_name) as [filename extension]. cbn in Hfilename, Hextension.
  destruct (free_path_loop (fs w6) ((dir +:+ "/artifacts") +:+ "/" +:+ blob_step)
              filename extension Hfilename Hextension
              (S (S (entries_count (fs w6)))) 1
              ((dir +:+ "/artifacts") +:+ "/" +:+ blob_step +:+ "/" +:+
               filename +:+ extension) w6)
    as (q & w7 & Hfree & Hq & Hfs); [done|lia|lia|lia|].
  apply ends_bind; [by rewrite Hfree|].
  intros file_path w8 Hrun. rewrite Hfree in Hrun. injection Hrun as <- <-.
  apply ends_bind; [|done].
  apply ends_create.
Qed.

(** *** The passes add nothing but what the storage lists *)

Lemma entry_app_r name (es l : list (string * Fs.node)) :
  Fs.entry name es = None -> Fs.entry name (es ++ l) = Fs.entry name l.
Proof.
  induction es as [|[n c] es IH]; [done|]. cbn. by case_bool_decide.
Qed.

(** A file of the tree after an entry was created was there before, or
    is in what was created. *)
Lemma create_new_file_inv segs : forall name new n n',
  Fs.create segs name new n = Ok n' ->
  forall q d, Fs.resolve q n' = Some (Fs.File d) ->
    Fs.resolve q n = Some (Fs.File d) \/
    exists q', q = segs ++ name :: q' /\ Fs.resolve q' new = Some (Fs.File d).
Proof.
  induction segs as [|s0 segs IH]; intros name new [d0|es] n'; cbn; try done.
  - destruct (Fs.entry name es) eqn:Hname; [done|]. intros [= <-] [|s q] d; [done|].
    cbn. destruct (Fs.entry s es) as [c|] eqn:Hs.
    + rewrite (entry_app_l _ _ _ _ Hs). by left.
    + rewrite (entry_app_r _ _ _ Hs). cbn. case_bool_decide as Hn; [|done].
      subst s. intros Hq. right. by exists q.
  - destruct (Fs.entry s0 es) as [c0|] eqn:Hs0; [|done].
    destruct (Fs.create segs name new c0) as [c0'| | |] eqn:Hc; try done.
    intros [= <-] [|s q] d; [done|]. cbn.
    destruct (decide (s = s0)) as [->|Hne].
    + rewrite Hs0, (entry_set_entry_eq _ _ _ _ Hs0).
      intros [Hold|(q' & -> & Hnew)]%(IH name new c0 c0' Hc); [by left|].
      right. by exists q'.
    + rewrite (entry_set_entry_ne _ _ _ _ Hne). by left.
Qed.

Lemma free_path_fs fuel : forall dir filename extension file_path file_counter w,
  fs (free_path fuel dir filename extension file_path file_counter w).2 = fs w.
Proof.
  induction fuel as [|fuel IH]; intros; [done|]. cbn [free_path].
  unfold bind at 1, path_exists. destruct (Fs.exists_ _ _); [|done].
  unfold bind at 1, logger. by rewrite IH.
Qed.

Section AddsOnly.

Variable Q : list string -> payload -> Prop.

Lemma adds_only_fs {A} (m : M A) :
  (forall w, fs (m w).2 = fs w) -> adds_only Q m.
Proof. intros Hm w q d. rewrite Hm. by left. Qed.

Lemma adds_only_bind {A B} (m : M A) (k : A -> M B) :
  adds_only Q m -> (forall a, adds_only Q (k a)) -> adds_only Q (bind m k).
Proof.
  intros Hm Hk w q d. unfold bind. specialize (Hm w q d).
  destruct (m w) as [[a|e|c|] w1]; cbn in *; try done.
  intros [Hq|Hq]%Hk; [by apply Hm|by right].
Qed.

Lemma adds_only_for_each {A S} (l : list A) (body : S -> A -> M S) :
  (forall acc x, x ∈ l -> adds_only Q (body acc x)) ->
  forall acc, adds_only Q (for_each l body acc).
Proof.
  induction l as [|x l IH]; intros Hbody acc; [by apply adds_only_fs|].
  rewrite for_each_cons. apply adds_only_bind.
  - apply Hbody, elem_of_cons. by left.
  - intros acc'. apply IH. intros acc0 y Hy. apply Hbody, elem_of_cons. by right.
Qed.

Lemma adds_only_or_raise {A} e (o : option A) : adds_only Q (or_raise e o).
Proof. apply adds_only_fs. by destruct o. Qed.

Lemma adds_only_bind_or_raise {A B} e (o : option A) (k : A -> M B) :
  (forall a, o = Some a -> adds_only Q (k a)) -> adds_only Q (bind (or_raise e o) k).
Proof.
  intros Hk. destruct o as [a|]; [|by apply adds_only_fs].
  intros w q d. by apply (Hk a).
Qed.

Lemma adds_only_logger l msg : adds_only Q (logger l msg).
Proof. by apply adds_only_fs. Qed.

Lemma adds_only_path_exists p : adds_only Q (path_exists p).
Proof. by apply adds_only_fs. Qed.

Lemma adds_only_ret {A} (a : A) : adds_only Q (ret a).
Proof. by apply adds_only_fs. Qed.

(** A new directory holds no file. *)
Lemma adds_only_mkdir p : adds_only Q (mkdir p).
Proof.
  intros w q d. unfold mkdir, lift_fs, Fs.create_path.
  destruct (Fs.segments p) as [|s r]; [by left|].
  destruct (Fs.create _ _ _ _) as [root| | |] eqn:Hc; cbn; try by left.
  intros [Hold|(q' & _ & Hnew)]%(create_new_file_inv _ _ _ _ _ Hc); [by left|].
  by destruct q'.
Qed.

Lemma adds_only_when c (body : M unit) : adds_only Q body -> adds_only Q (when c body).
Proof. intros Hb. destruct c; [done|apply adds_only_ret]. Qed.

Lemma adds_only_download p b :
  Q (Fs.segments p) (Blob.data b) -> adds_only Q (download_to_new_file p b).
Proof.
  intros HQ w q d. unfold download_to_new_file, lift_fs, Fs.create_path.
  destruct (Fs.segments p) as [|s r] eqn:Hp; [by left|].
  destruct (Fs.create _ _ _ _) as [root| | |] eqn:Hc; cbn; try by left.
  intros [Hold|(q' & -> & Hnew)]%(create_new_file_inv _ _ _ _ _ Hc); [by left|].
  right. destruct q' as [|s' q']; [|done]. injection Hnew as <-.
  by rewrite segments_removelast_last.
Qed.

End AddsOnly.

(** The files the log pass adds are files of [log_file_of]. *)
Lemma log_pass_adds_only
    r dir st bucket job_name build_id job_name_safe pr :
  adds_only
    (log_file_of (list_blobs st bucket
                    (artifact_prefix r job_name build_id job_name_safe pr))
       (dir +:+ "/logs"))
    (_download_logs r dir st bucket job_name build_id job_name_safe pr).
Proof.
  unfold _download_logs.
  apply adds_only_bind; [apply adds_only_logger|]. intros _.
  apply adds_only_bind; [apply adds_only_path_exists|]. intros there.
  apply adds_only_bind; [apply adds_only_when, adds_only_mkdir|]. intros _.
  apply adds_only_bind; [|intros; apply adds_only_ret].
  apply adds_only_for_each. intros [] blob Hblob.
  apply adds_only_bind_or_raise. intros bname Hname.
  apply adds_only_bind_or_raise. intros bstep Hstep.
  case_bool_decide as Hallow; [|apply adds_only_ret].
  apply adds_only_bind; [apply adds_only_path_exists|]. intros there'.
  apply adds_only_bind; [apply adds_only_when, adds_only_mkdir|]. intros _.
  apply adds_only_bind; [|intros; apply adds_only_logger].
  apply adds_only_download. by exists blob, bname, bstep.
Qed.

(** X14: the log pass writes nothing but the listed [finished.json] and
    [build-log.txt] objects: when it returns, a file that is on the disk
    was there before with the same content, or holds the content of a listed
    object with one of the two names, at its step and name under the logs
    directory. *)
Theorem log_pass_adds_listed_files_only
    r dir st bucket job_name build_id job_name_safe pr w p w' :
  _download_logs r dir st bucket job_name build_id job_name_safe pr w = (Ok p, w') ->
  forall q d,
    Fs.resolve q (fs w') = Some (Fs.File d) ->
    Fs.resolve q (fs w) = Some (Fs.File d) \/
    log_file_of (list_blobs st bucket
                   (artifact_prefix r job_name build_id job_name_safe pr))
      (dir +:+ "/logs") q d.
Proof.
  intros Hrun q d Hq.
  apply (log_pass_adds_only r dir st bucket job_name build_id job_name_safe pr w q d).
  by rewrite Hrun.
Qed.

Lemma log_pass_adds_witness :
  let w := (_get_download_path (Some "77") Sample.empty_disk).2 in
  let pass := _download_logs false "/tmp/77" Sample.periodic_storage "origin-ci-test"
                (Some "periodic-ci-foo") (Some "77") (Some "foo") "" w in
  let q := ["tmp"; "77"; "logs"; "build"; "build-log.txt"] in
  let d := Opaque "error: build failed" in
  Fs.resolve q (fs pass.2) = Some (Fs.File d) /\
  (Fs.resolve q (fs w) = Some (Fs.File d) \/
   log_file_of (list_blobs Sample.periodic_storage "origin-ci-test"
                  (artifact_prefix false (Some "periodic-ci-foo") (Some "77")
                     (Some "foo") ""))
     ("/tmp/77" +:+ "/logs") q d).
Proof.
  intros w pass q d. split; [reflexivity|].
  apply (log_pass_adds_listed_files_only false "/tmp/77" Sample.periodic_storage
           "origin-ci-test" (Some "periodic-ci-foo") (Some "77") (Some "foo") "" w
           "/tmp/77/logs" pass.2); reflexivity.
Defined.

Lemma adds_only_bind_post {A B} Q (P : A -> Prop) (m : M A) (k : A -> M B) :
  (forall w a w', m w = (Ok a, w') -> P a) ->
  adds_only Q m -> (forall a, P a -> adds_only Q (k a)) -> adds_only Q (bind m k).
Proof.
  intros HP Hm Hk w q d. unfold bind. specialize (Hm w q d). specialize (HP w).
  destruct (m w) as [[a|e|c|] w1]; cbn in *; try done.
  intros [Hq|Hq]%(Hk a); [by apply Hm|by right|by eapply HP].
Qed.

(** The files the report pass adds are files of [report_file_of]. *)
Lemma report_pass_adds_only
    r dir st bucket job_name build_id job_name_safe pr :
  adds_only
    (report_file_of (list_blobs st bucket
                       (artifact_prefix r job_name build_id job_name_safe pr))
       (dir +:+ "/artifacts"))
    (_download_junit r dir st bucket job_name build_id job_name_safe pr).
Proof.
  unfold _download_junit.
  apply adds_only_bind; [apply adds_only_logger|]. intros _.
  apply adds_only_bind; [apply adds_only_path_exists|]. intros there.
  apply adds_only_bind; [apply adds_only_when, adds_only_mkdir|]. intros _.
  apply adds_only_bind; [|intros; apply adds_only_ret].
  apply adds_only_for_each. intros [] blob Hblob.
  apply adds_only_bind_or_raise. intros bname Hname.
  destruct (Py.contains "junit" bname) eqn:Hjunit; [|apply adds_only_ret].
  apply adds_only_bind_or_raise. intros bstep Hstep.
  apply adds_only_bind; [apply adds_only_path_exists|]. intros there'.
  apply adds_only_bind; [apply adds_only_when, adds_only_mkdir|]. intros _.
  destruct (OsPath.splitext bname) as [filename extension].
  apply (adds_only_bind_post _ (fun file_path => exists leaf,
           file_path = ((dir +:+ "/artifacts") +:+ "/" +:+ bstep) +:+ "/" +:+ leaf)).
  - intros w file_path w' (_ & _ & [->|[n ->]])%free_path_ok_inv.
    + exists (filename +:+ extension). by rewrite !sapp_assoc.
    + by exists (suffixed filename extension n).
  - apply adds_only_fs. intros w. apply free_path_fs.
  - intros file_path [leaf ->].
    apply adds_only_bind; [|intros; apply adds_only_logger].
    apply adds_only_download. by exists blob, bname, bstep, leaf.
Qed.

(** X15: the report pass writes nothing but listed reports: when it
    returns, a file that is on the disk was there before with the same
    content, or holds the content of a listed object whose last key segment
    holds [junit], in the directory of the artifacts directory named by the
    segment of index 5 of the key. *)
Theorem report_pass_adds_listed_files_only
    r dir st bucket job_name build_id job_name_safe pr w p w' :
  _download_junit r dir st bucket job_name build_id job_name_safe pr w = (Ok p, w') ->
  forall q d,
    Fs.resolve q (fs w') = Some (Fs.File d) ->
    Fs.resolve q (fs w) = Some (Fs.File d) \/
    report_file_of (list_blobs st bucket
                      (artifact_prefix r job_name build_id job_name_safe pr))
      (dir +:+ "/artifacts") q d.
Proof.
  intros Hrun q d Hq.
  apply (report_pass_adds_only r dir st bucket job_name build_id job_name_safe pr w q d).
  by rewrite Hrun.
Qed.

Lemma report_pass_adds_witness :
  let pass := _download_junit true "/tmp/99" Sample.rehearsal_storage "origin-ci-test"
                (Some "rehearse-123-foo") (Some "99") (Some "foo") "123" Sample.disk_99 in
  let q := ["tmp"; "99"; "artifacts"; "99"; "junit_report.xml"] in
  let d := Sample.one_failing_report in
  Fs.resolve q (fs pass.2) = Some (Fs.File d) /\
  (Fs.resolve q (fs Sample.disk_99) = Some (Fs.File d) \/
   report_file_of (list_blobs Sample.rehearsal_storage "origin-ci-test"
                     (artifact_prefix true (Some "rehearse-123-foo") (Some "99")
                        (Some "foo") "123"))
     ("/tmp/99" +:+ "/artifacts") q d).
Proof.
  intros pass q d. split; [reflexivity|].
  apply (report_pass_adds_listed_files_only true "/tmp/99" Sample.rehearsal_storage
           "origin-ci-test" (Some "rehearse-123-foo") (Some "99") (Some "foo") "123"
           Sample.disk_99 "/tmp/99/artifacts" pass.2); reflexivity.
Defined.

(** X2: the directory a report is stored in, [blob.name.split("/")[5]]:
    when the report pass returns, every listed object whose last key segment
    holds [junit] is a file of a directory of the artifacts directory; for a
    rehearsal that directory is named after the build id, whatever the key;
    for another job it is named after the second segment of the safe job name
    followed by what the key has after the prefix of the listing, which is the
    first segment below the prefix when the key goes on with a slash there. *)
Theorem report_directory_by_rehearsal
    r dir st bucket job_name build_id job_name_safe pr w p w' :
  has_char "/" pr = false -> has_char "/" (fmt job_name) = false ->
  has_char "/" (fmt build_id) = false ->
  _download_junit r dir st bucket job_name build_id job_name_safe pr w = (Ok p, w') ->
  forall blob bname,
    blob ∈ list_blobs st bucket (artifact_prefix r job_name build_id job_name_safe pr) ->
    Py.index (Py.split "/" (Blob.name blob)) (-1) = Some bname ->
    Py.contains "junit" bname = true ->
    let prefix := artifact_prefix r job_name build_id job_name_safe pr in
    let rest := Py.drop (String.length prefix) (Blob.name blob) in
    exists bstep leaf,
      Blob.name blob = prefix +:+ rest /\
      (if r then bstep = fmt build_id
       else Py.index (Py.split "/" (fmt job_name_safe +:+ rest)) 1 = Some bstep /\
            (has_char "/" (fmt job_name_safe) = false ->
             forall below, rest = "/" +:+ below ->
             first_segment_below prefix (Blob.name blob) = Some bstep)) /\
      read_file (p +:+ "/" +:+ bstep +:+ "/" +:+ leaf) w' = (Ok (Blob.data blob), w').
Proof.
  intros Hp Hj Hb Hrun blob bname Hin Hname Hjunit prefix rest.
  destruct (report_pass_stores _ _ _ _ _ _ _ _ _ _ _ Hrun) as [-> Hstored].
  destruct (Hstored blob bname Hin Hname Hjunit) as (bstep & file_path & H5 & Hform & Hread).
  apply list_elem_of_filter in Hin as [Hstart%Is_true_eq_true _].
  destruct (listed_key_step r job_name build_id job_name_safe pr (Blob.name blob)
              Hp Hj Hb Hstart) as [Hkey Hstep].
  fold prefix in Hkey, Hstep. fold rest in Hkey, Hstep.
  rewrite H5 in Hstep.
  assert (Hleaf : exists leaf,
            file_path = (dir +:+ "/artifacts") +:+ "/" +:+ bstep +:+ "/" +:+ leaf).
  { destruct Hform as [->|[n ->]].
    - by eexists.
    - exists (suffixed (OsPath.splitext bname).1 (OsPath.splitext bname).2 n).
      by rewrite (sapp_assoc (dir +:+ "/artifacts")), (sapp_assoc "/"). }
  destruct Hleaf as [leaf ->].
  exists bstep, leaf. split; [done|]. split; [|done].
  destruct r; [congruence|]. split; [done|].
  intros Hs below Hrest. rewrite Hkey, Hrest, first_segment_below_app.
  rewrite Hrest, sep_app, split_app_sep, (split_no_sep _ _ Hs) in Hstep.
  pose proof (split_length_pos "/" below). by destruct (Py.split "/" below).
Qed.


Lemma report_directory_witness :
  let pass := _download_junit false "/tmp/99" Sample.nested_storage "origin-ci-test"
                (Some "periodic-ci-foo") (Some "99") (Some "foo") "" Sample.disk_99 in
  let prefix := artifact_prefix false (Some "periodic-ci-foo") (Some "99") (Some "foo") "" in
  let key := "logs/periodic-ci-foo/99/artifacts/foo/build/retry/junit_a.xml" in
  let rest := Py.drop (String.length prefix) key in
  exists bstep leaf,
    key = prefix +:+ rest /\
    (Py.index (Py.split "/" (fmt (Some "foo") +:+ rest)) 1 = Some bstep /\
     (has_char "/" (fmt (Some "foo")) = false ->
      forall below, rest = "/" +:+ below ->
      first_segment_below prefix key = Some bstep)) /\
    read_file ("/tmp/99/artifacts" +:+ "/" +:+ bstep +:+ "/" +:+ leaf) pass.2 =
      (Ok Sample.one_failing_report, pass.2).
Proof.
  intros pass prefix key rest.
  refine (report_directory_by_rehearsal false "/tmp/99" Sample.nested_storage
            "origin-ci-test" (Some "periodic-ci-foo") (Some "99") (Some "foo") ""
            Sample.disk_99 "/tmp/99/artifacts" pass.2 _ _ _ _
            {| Blob.name := key; Blob.data := Sample.one_failing_report |}
            "junit_a.xml" _ _ _).
  - reflexivity.
  - reflexivity.
  - reflexivity.
  - reflexivity.
  - vm_compute. do 3 (apply elem_of_cons; right). apply elem_of_cons. by left.
  - reflexivity.
  - reflexivity.
Defined.

End Stored.

(** ** The test scan misses no failure *)

Module Coverage.

Import Job Spec MonadFacts TestScan.

Section Rounds.

Variable w : World.

Lemma grows_for_each {A} (l : list A) (body : list failure_dict -> A -> M (list failure_dict)) :
  (forall x, grows w (fun acc => body acc x)) -> grows w (for_each l body).
Proof.
  intros Hbody acc w1 acc' w1' Hfs.
  apply (for_each_inv (fun a w0 => fs w0 = fs w /\ acc ⊆ a)); [|done].
  intros a x w0 a' w0' _ [Hfs0 Hsub] Hrun.
  destruct (Hbody x a w0 a' w0' Hfs0 Hrun) as [Hfs' Hsub']. split; [done|].
  by etrans.
Qed.

Lemma grows_ret : grows w ret.
Proof. by intros acc w1 acc' w1' Hfs [= <- <-]. Qed.

Lemma grows_record verbose s path name :
  grows w (record_test_failure verbose s path name).
Proof.
  intros acc w1 acc' w1' Hfs
    (reported & _ & Hfs' & [(_ & -> & _)|(_ & ->)])%record_ok_inv.
  - split; [congruence|done].
  - split; [congruence|]. intros d Hd. apply elem_of_app. by left.
Qed.

(** The round of an element of the list is run, and what it recorded is
    kept by the rounds after it. *)
Lemma records_for_each {A} d (l : list A)
    (body : list failure_dict -> A -> M (list failure_dict)) x :
  x ∈ l ->
  (forall y, grows w (fun acc => body acc y)) ->
  records w d (fun acc => body acc x) ->
  records w d (for_each l body).
Proof.
  intros Hx Hgrow Hrec. induction l as [|y l IH]; [by apply elem_of_nil in Hx|].
  intros acc w1 acc' w1' Hfs. rewrite for_each_cons.
  intros (acc1 & w2 & Hbody & Hrest)%bind_ok_inv.
  destruct (Hgrow y acc w1 acc1 w2 Hfs Hbody) as [Hfs2 _].
  apply elem_of_cons in Hx as [->|Hx].
  - destruct (grows_for_each l body Hgrow acc1 w2 acc' w1' Hfs2 Hrest) as [_ Hsub].
    apply (Hsub d). exact (Hrec acc w1 acc1 w2 Hfs Hbody).
  - by eapply IH.
Qed.

Lemma records_record verbose s path name :
  records w (expected_dict verbose s path name)
    (record_test_failure verbose s path name).
Proof.
  intros acc w1 acc' w1' _ (reported & Hrep & _ & Hcase)%record_ok_inv.
  assert (mkDict s "test_failure" reported (if verbose then Some path else None) =
          expected_dict verbose s path name) as <-.
  { unfold expected_dict. destruct verbose; [|by subst].
    by destruct Hrep as (raw & -> & ->). }
  destruct Hcase as [(Hin & -> & _)|(_ & ->)]; [done|].
  apply elem_of_app. right. by apply list_elem_of_singleton.
Qed.

End Rounds.

(** The rounds of the loops of the scan drop nothing. *)
Lemma grows_results w verbose s path name result :
  grows w (fun failures_list =>
    if JUnit.is_failure_or_error result then
      record_test_failure verbose s path name failures_list
    else ret failures_list).
Proof. destruct (JUnit.is_failure_or_error result); [apply grows_record|apply grows_ret]. Qed.

Lemma grows_case w verbose s path suite case :
  grows w (fun failures_list =>
    match case with
    | JUnit.Case case_name results =>
        if JUnit.nonempty results then
          for_each results (fun failures_list result =>
            if JUnit.is_failure_or_error result then
              record_test_failure verbose s path case_name failures_list
            else ret failures_list) failures_list
        else ret failures_list
    | JUnit.Bare r =>
        if JUnit.is_failure_or_error r then
          record_test_failure verbose s path (JUnit.suite_name suite) failures_list
        else ret failures_list
    end).
Proof.
  destruct case as [case_name results|r].
  - destruct (JUnit.nonempty results); [|apply grows_ret].
    apply grows_for_each. intros result. apply grows_results.
  - apply grows_results.
Qed.

Lemma grows_file w verbose root file :
  grows w (fun failures_list =>
    let file_path := OsPath.join root file in
    let* content := read_file file_path in
    match content with
    | JUnitDoc junit_xml =>
        let step := OsPath.basename (OsPath.dirname file_path) in
        for_each junit_xml (fun failures_list suite =>
          for_each (JUnit.suite_items suite) (fun failures_list case =>
            match case with
            | JUnit.Case case_name results =>
                if JUnit.nonempty results then
                  for_each results (fun failures_list result =>
                    if JUnit.is_failure_or_error result then
                      record_test_failure verbose step file_path case_name failures_list
                    else ret failures_list) failures_list
                else ret failures_list
            | JUnit.Bare r =>
                if JUnit.is_failure_or_error r then
                  record_test_failure verbose step file_path
                    (JUnit.suite_name suite) failures_list
                else ret failures_list
            end) failures_list) failures_list
    | _ =>
        run logger WARNING
          ("Attempted to parse " +:+ file_path +:+
           ", but it doesn't seem to be a JUnit results file.") in
        ret failures_list
    end).
Proof.
  intros acc w1 acc' w1' Hfs. cbn zeta.
  intros (content & w2 & [-> _]%read_file_ok_inv & Hrun)%bind_ok_inv.
  destruct content as [j|doc|raw].
  1,3: by injection Hrun as <- <-.
  revert Hrun. apply grows_for_each; [|done]. intros suite.
  apply grows_for_each. intros case. apply grows_case.
Qed.

(** What the scan records: the failure of every failing case of every report
    the walk lists. *)
Lemma scan_records config junit_dir w failures w' :
  _find_test_failures config junit_dir w = (Ok failures, w') ->
  forall root dirs files file doc name,
    (root, dirs, files) ∈ Fs.walk junit_dir (fs w) ->
    file ∈ files ->
    Py.contains "junit" file = true -> Py.contains "xml" file = true ->
    at_path (OsPath.join root file) w = Some (Fs.File (JUnitDoc doc)) ->
    reported_in doc name ->
    to_Failure
      (expected_dict (verbose_test_failure_reporting config)
         (OsPath.basename (OsPath.dirname (OsPath.join root file)))
         (OsPath.join root file) name) ∈ failures.
Proof.
  unfold _find_test_failures.
  intros (tree & w0 & [= <- <-] & Hrun)%bind_ok_inv.
  apply bind_ok_inv in Hrun as (failures_list & w2 & Hscan & Hconv).
  rewrite materialize_loop in Hconv. injection Hconv as <- <-.
  intros root dirs files file doc name Htree Hfile Hjunit Hxml Hat Hrep.
  apply list_elem_of_fmap. eexists. split; [reflexivity|].
  set (verbose := verbose_test_failure_reporting config) in *.
  set (path := OsPath.join root file) in *.
  set (d := expected_dict verbose (OsPath.basename (OsPath.dirname path)) path name).
  refine (records_for_each w d _ _ (root, dirs, files) Htree _ _ [] w _ _ eq_refl Hscan).
  { intros [[root' dirs'] files']. apply grows_for_each. intros file'.
    apply grows_file. }
  apply (records_for_each w d _ _ file).
  { apply list_elem_of_filter. split; [|done]. by rewrite Hjunit, Hxml. }
  { intros file'. apply grows_file. }
  intros acc w1 acc' w1' Hfs. cbn zeta. fold path.
  intros (content & w3 & [-> Hres]%read_file_ok_inv & Hdoc)%bind_ok_inv.
  unfold at_path in Hat. rewrite Hfs, Hat in Hres. injection Hres as <-.
  destruct Hrep as (suite & Hsuite & Hcase).
  revert Hdoc. apply (records_for_each w d _ _ suite Hsuite); [| |done].
  { intros suite'. apply grows_for_each. intros case. apply grows_case. }
  destruct Hcase as [(results & r & Hcase & Hr & Hfail)|(r & Hcase & Hfail & ->)].
  - apply (records_for_each w d _ _ _ Hcase); [intros case; apply grows_case|].
    assert (JUnit.nonempty results = true) as -> by (by destruct results; [apply elem_of_nil in Hr|]).
    apply (records_for_each w d _ _ _ Hr); [intros result; apply grows_results|].
    rewrite Hfail. apply records_record.
  - apply (records_for_each w d _ _ _ Hcase); [intros case; apply grows_case|].
    rewrite Hfail. apply records_record.
Qed.

(** X16: the test scan misses no failure: when it returns, for every
    file the walk of the artifacts directory lists whose name holds [junit]
    and [xml] and that holds a report, and every case of the report with a
    failure or an error among its results (or suite with a bare failure or
    error element), the failure of the step of that file (with the name,
    spaces replaced, and the path of the file in verbose mode) is in the
    list returned. *)
Theorem failing_cases_are_recorded config junit_dir w failures w' :
  _find_test_failures config junit_dir w = (Ok failures, w') ->
  forall root dirs files file doc name,
    (root, dirs, files) ∈ Fs.walk junit_dir (fs w) ->
    file ∈ files ->
    Py.contains "junit" file = true -> Py.contains "xml" file = true ->
    at_path (OsPath.join root file) w = Some (Fs.File (JUnitDoc doc)) ->
    reported_in doc name ->
    to_Failure
      (expected_dict (verbose_test_failure_reporting config)
         (OsPath.basename (OsPath.dirname (OsPath.join root file)))
         (OsPath.join root file) name) ∈ failures.
Proof. apply scan_records. Qed.

Lemma failing_cases_are_recorded_witness :
  to_Failure
    (expected_dict true
       (OsPath.basename (OsPath.dirname (OsPath.join "/tmp/77/artifacts/build" "junit_a.xml")))
       (OsPath.join "/tmp/77/artifacts/build" "junit_a.xml") (Some "test x")) ∈
  [new_Failure "build" "test_failure" (Some "test_x")
     (Some "/tmp/77/artifacts/build/junit_a.xml")].
Proof.
  refine (failing_cases_are_recorded Sample.no_rules "/tmp/77/artifacts" Sample.report_disk
            _ (_find_test_failures Sample.no_rules "/tmp/77/artifacts" Sample.report_disk).2
            _ "/tmp/77/artifacts/build" [] ["junit_a.xml"] "junit_a.xml" _ (Some "test x")
            _ _ _ _ _ _).
  - reflexivity.
  - vm_compute. apply elem_of_cons. right. apply elem_of_cons. by left.
  - apply elem_of_cons. by left.
  - reflexivity.
  - reflexivity.
  - reflexivity.
  - eexists. split; [apply elem_of_cons; by left|]. left.
    exists [JUnit.Error], JUnit.Error. split; [|split; [|reflexivity]].
    + apply elem_of_cons. right. apply elem_of_cons. by left.
    + apply elem_of_cons. by left.
Defined.

Lemma filter_none {A} (P : A -> Prop) `{!forall x, Decision (P x)} (l : list A) :
  (forall y, y ∈ l -> ~ P y) -> filter P l = [].
Proof.
  induction l as [|a l IH]; [done|]. intros Hno.
  rewrite filter_cons_False by (apply Hno, elem_of_cons; by left).
  apply IH. intros y Hy. apply Hno, elem_of_cons. by right.
Qed.

Lemma NoDup_key_count {A B} `{EqDecision B} (k : A -> B) (l : list A) x :
  NoDup (map k l) -> x ∈ l -> length (filter (fun y => k y = k x) l) = 1%nat.
Proof.
  induction l as [|a l IH]; [by intros _ ?%elem_of_nil|].
  cbn [map]. intros [Ha Hl]%NoDup_cons [->|Hx]%elem_of_cons.
  - rewrite filter_cons_True by done. rewrite filter_none; [done|].
    intros y Hy Hk. apply Ha. rewrite <- Hk. apply list_elem_of_fmap. by exists y.
  - rewrite filter_cons_False; [by apply IH|].
    intros Hk. apply Ha. rewrite Hk. apply list_elem_of_fmap. by exists x.
Qed.

Lemma record_expected verbose s path name l w l' w' :
  record_test_failure verbose s path name l w = (Ok l', w') ->
  let d := expected_dict verbose s path name in
  (d ∈ l /\ l' = l /\ w' = w) \/ ((d ∉ l) /\ l' = l ++ [d]).
Proof.
  intros (reported & Hrep & _ & Hcase)%record_ok_inv. unfold expected_dict.
  destruct verbose.
  - destruct Hrep as (raw & -> & ->). exact Hcase.
  - subst reported. exact Hcase.
Qed.

(** C9: a test failure whose (step, kind, test name, report path) tuple
    is in the list is not recorded again, and one whose tuple is not is
    appended: recording leaves the list and the log as they are in the first
    case, and recording the same failure a second time is a no-op.  So the
    failures the scan returns have pairwise distinct tuples, and every failing
    case of a report of the tree, however often the reports hold it with that
    name and path, has exactly one failure in the list returned. *)
Theorem test_failure_recorded_exactly_once config junit_dir w failures w' :
  _find_test_failures config junit_dir w = (Ok failures, w') ->
  NoDup (map failure_key failures) /\
  (forall root dirs files file doc name,
     (root, dirs, files) ∈ Fs.walk junit_dir (fs w) ->
     file ∈ files ->
     Py.contains "junit" file = true -> Py.contains "xml" file = true ->
     at_path (OsPath.join root file) w = Some (Fs.File (JUnitDoc doc)) ->
     reported_in doc name ->
     length
       (filter
          (fun f => failure_key f =
             failure_key
               (to_Failure
                  (expected_dict (verbose_test_failure_reporting config)
                     (OsPath.basename (OsPath.dirname (OsPath.join root file)))
                     (OsPath.join root file) name)))
          failures) = 1%nat) /\
  (forall verbose s path name l w0 l1 w1,
     record_test_failure verbose s path name l w0 = (Ok l1, w1) ->
     (expected_dict verbose s path name ∈ l -> l1 = l /\ w1 = w0) /\
     (expected_dict verbose s path name ∉ l ->
        l1 = l ++ [expected_dict verbose s path name]) /\
     record_test_failure verbose s path name l1 w1 = (Ok l1, w1)).
Proof.
  intros Hscan.
  destruct (scan_keys_distinct _ _ _ _ _ Hscan) as [Hnodup Hagain].
  split; [done|]. split.
  - intros root dirs files file doc name Htree Hfile Hjunit Hxml Hat Hrep.
    apply NoDup_key_count; [done|].
    exact (scan_records _ _ _ _ _ Hscan _ _ _ _ _ _ Htree Hfile Hjunit Hxml Hat Hrep).
  - intros verbose s path name l w0 l1 w1 Hrec.
    split; [|split; [|by eapply Hagain]].
    + intros Hin. by destruct (record_expected _ _ _ _ _ _ _ _ Hrec) as [(_ & -> & ->)|[Hnew _]].
    + intros Hnew. by destruct (record_expected _ _ _ _ _ _ _ _ Hrec) as [(Hin & _)|[_ ->]].
Qed.

Lemma test_failure_recorded_exactly_once_witness :
  let failures :=
    [new_Failure "build" "test_failure" (Some "test_x")
       (Some "/tmp/77/artifacts/build/junit_a.xml")] in
  NoDup (map failure_key failures) /\
  (forall root dirs files file doc name,
     (root, dirs, files) ∈ Fs.walk "/tmp/77/artifacts" (fs Sample.report_disk) ->
     file ∈ files ->
     Py.contains "junit" file = true -> Py.contains "xml" file = true ->
     at_path (OsPath.join root file) Sample.report_disk = Some (Fs.File (JUnitDoc doc)) ->
     reported_in doc name ->
     length
       (filter
          (fun f => failure_key f =
             failure_key
               (to_Failure
                  (expected_dict (verbose_test_failure_reporting Sample.no_rules)
                     (OsPath.basename (OsPath.dirname (OsPath.join root file)))
                     (OsPath.join root file) name)))
          failures) = 1%nat) /\
  (forall verbose s path name l w0 l1 w1,
     record_test_failure verbose s path name l w0 = (Ok l1, w1) ->
     (expected_dict verbose s path name ∈ l -> l1 = l /\ w1 = w0) /\
     (expected_dict verbose s path name ∉ l ->
        l1 = l ++ [expected_dict verbose s path name]) /\
     record_test_failure verbose s path name l1 w1 = (Ok l1, w1)).
Proof.
  intros failures.
  apply (test_failure_recorded_exactly_once Sample.no_rules "/tmp/77/artifacts"
           Sample.report_disk failures
           (_find_test_failures Sample.no_rules "/tmp/77/artifacts" Sample.report_disk).2).
  reflexivity.
Defined.

End Coverage.

(** ** What the rules make of the failures found *)

Module Verdict.

Import Job Spec MonadFacts Classify TestScan Results.

Lemma set_ignore_back b g : set_ignore (ignore g) (set_ignore b g) = g.
Proof. by destruct g. Qed.

(** The flag of a failure as the scans return it. *)
Lemma scans_leave_flag_off config logs_dir junit_dir w pods w1 tests w2 :
  _find_pod_failures logs_dir w = (Ok pods, w1) ->
  _find_test_failures config junit_dir w1 = (Ok tests, w2) ->
  Forall (fun f => ignore f = false) (tests ++ pods).
Proof.
  intros Hpods Htests. apply Forall_app. split.
  - apply (find_test_failures_inv _ _ (fun _ => True)) in Htests
      as (fl & _ & -> & _); [|done..].
    apply Forall_fmap. by apply Forall_true.
  - apply (find_pod_failures_inv (Forall (fun f => ignore f = false))) in Hpods
      as [Hpods _]; [done| |constructor].
    intros l s Hl. apply Forall_app. split; [done|]. by apply Forall_singleton.
Qed.

Lemma set_ignore_apply_rules b rules f :
  set_ignore b (apply_rules rules f) = set_ignore b f.
Proof.
  destruct (apply_rules_fields rules f) as (Hs & Ht & Hn & Hp).
  unfold set_ignore. by rewrite Hs, Ht, Hn, Hp.
Qed.

(** X17: the ignore flag of a failure [_find_failures] returns is the
    work of the last rule alone.  Every failure returned is a failure [f0] of
    the scans, found with its flag off; with no rule it is returned as found,
    and otherwise it is [f0] with the flag on exactly when the last rule
    directs ignore and matches [f0] as the rules before it left it, that is
    [apply_rules rules f0]. *)
Theorem last_rule_alone_sets_ignore config logs_dir junit_dir w l w' :
  _find_failures config logs_dir junit_dir w = (Ok (Some l), w') ->
  exists pods tests w1,
    _find_pod_failures logs_dir w = (Ok pods, w1) /\
    _find_test_failures config junit_dir w1 = (Ok tests, w') /\
    forall f, f ∈ l ->
      exists f0, f0 ∈ tests ++ pods /\ ignore f0 = false /\
        (failure_rules config = [] -> f = f0) /\
        (forall rules r, failure_rules config = rules ++ [r] ->
           f = set_ignore (matches_failure r (apply_rules rules f0) && rule_ignore r) f0).
Proof.
  intros (pods & tests & w1 & Hpods & Htests & Hr)%find_failures_ok_inv.
  exists pods, tests, w1. split; [done|]. split; [done|]. intros f Hf.
  pose proof (scans_leave_flag_off _ _ _ _ _ _ _ _ Hpods Htests) as Hoff.
  rewrite Forall_forall in Hoff.
  assert (Hin : f ∈ (combine (failure_rules config) (tests ++ pods)).1).
  { destruct (combine _ _).1; [done|]. by injection Hr as ->. }
  apply combine_from_input in Hin as (f0 & Hf0 & ->).
  exists f0. split; [done|]. split; [by apply Hoff|]. split.
  - intros ->. by rewrite apply_rules_nil.
  - intros rules r ->. by rewrite apply_rules_snoc, set_ignore_apply_rules.
Qed.

Lemma last_rule_alone_witness :
  exists pods tests w1,
    _find_pod_failures "/tmp/77/logs" Sample.logs_disk = (Ok pods, w1) /\
    _find_test_failures Sample.two_rules "/tmp/77/artifacts" w1 =
      (Ok tests, (_find_failures Sample.two_rules "/tmp/77/logs" "/tmp/77/artifacts"
                    Sample.logs_disk).2) /\
    forall f, f ∈ [new_Failure "build" "pod_failure" None None;
                   new_Failure "test" "pod_failure" None None] ->
      exists f0, f0 ∈ tests ++ pods /\ ignore f0 = false /\
        (failure_rules Sample.two_rules = [] -> f = f0) /\
        (forall rules r, failure_rules Sample.two_rules = rules ++ [r] ->
           f = set_ignore (matches_failure r (apply_rules rules f0) && rule_ignore r) f0).
Proof.
  apply (last_rule_alone_sets_ignore Sample.two_rules "/tmp/77/logs" "/tmp/77/artifacts"
           Sample.logs_disk). reflexivity.
Defined.

Lemma NoDup_fmap_key {A B} (k : A -> B) (l : list A) x y :
  NoDup (map k l) -> x ∈ l -> y ∈ l -> k x = k y -> x = y.
Proof.
  intros Hnodup (i & Hi)%list_elem_of_lookup_1 (j & Hj)%list_elem_of_lookup_1 Hk.
  assert (i = j) as ->; [|congruence].
  apply (NoDup_lookup (map k l) i j (k x)); [done| |].
  - by rewrite list_lookup_fmap, Hi.
  - by rewrite list_lookup_fmap, Hj, Hk.
Qed.

(** C2: [_find_failures] goes through the failures of the test scan, then
    those of the pod scan, and keeps one failure per step, the first of that
    step in this order (with its flag set by the rules); a later failure of a
    step already kept is dropped.  A step with a test failure and a pod
    failure is represented by one failure, and that is a test failure. *)
Theorem find_failures_tests_first_one_per_step
    config logs_dir junit_dir w pods w1 tests w2 :
  _find_pod_failures logs_dir w = (Ok pods, w1) ->
  _find_test_failures config junit_dir w1 = (Ok tests, w2) ->
  exists out,
    _find_failures config logs_dir junit_dir w =
      (Ok (match out with [] => None | kept => Some kept end), w2) /\
    NoDup (map step out) /\
    (forall f, f ∈ tests ++ pods -> step f ∈ map step out) /\
    (forall g, g ∈ out ->
       exists i f, (tests ++ pods) !! i = Some f /\
         g = apply_rules (failure_rules config) f /\
         forall j f', (j < i)%nat -> (tests ++ pods) !! j = Some f' -> step f' <> step f) /\
    (forall t p, t ∈ tests -> p ∈ pods -> step t = step p ->
       failure_type t = "test_failure" /\ failure_type p = "pod_failure" /\
       exists g, g ∈ out /\ step g = step t /\ failure_type g = "test_failure" /\
         forall g', g' ∈ out -> step g' = step t -> g' = g).
Proof.
  intros Hpods Htests.
  exists (combine (failure_rules config) (tests ++ pods)).1.
  split.
  { rewrite (_find_failures_combines _ _ _ _ _ _ _ _ Hpods Htests).
    by destruct (combine _ _).1. }
  destruct (combine_first_wins (failure_rules config) tests pods)
    as (Hnodup & Hcover & Hfirst & _).
  split; [done|]. split; [done|]. split; [done|].
  intros t p Ht Hp Hstep.
  pose proof (test_failures_kind _ _ _ _ _ Htests) as Hkt.
  apply (find_pod_failures_inv (Forall (fun f => failure_type f = "pod_failure")))
    in Hpods as [Hkp _]; [| |constructor].
  2: { intros l s Hl. apply Forall_app. split; [done|]. by apply Forall_singleton. }
  rewrite Forall_forall in Hkt, Hkp.
  split; [by apply Hkt|]. split; [by apply Hkp|].
  assert (Hin : step t ∈ map step (combine (failure_rules config) (tests ++ pods)).1).
  { apply Hcover, elem_of_app. by left. }
  apply list_elem_of_fmap in Hin as (g & Hg & Hgout).
  exists g. split; [done|]. split; [done|]. split.
  - destruct (Hfirst g Hgout) as (i & f & Hi & -> & Hlt).
    destruct (apply_rules_fields (failure_rules config) f) as (Hs & -> & _).
    rewrite Hs in Hg.
    apply list_elem_of_lookup_1 in Ht as (j & Hj).
    destruct (decide (i < length tests)%nat) as [Hlen|Hlen].
    + rewrite lookup_app_l in Hi by done. apply Hkt. by eapply list_elem_of_lookup_2.
    + exfalso. apply (Hlt j t); [|by apply lookup_app_l_Some|done].
      apply lookup_lt_Some in Hj. lia.
  - intros g' Hg' Hstep'.
    apply (NoDup_fmap_key step _ g' g Hnodup); [done|done|congruence].
Qed.

Lemma find_failures_tests_first_witness :
  exists out,
    _find_failures Sample.no_rules "/tmp/77/logs" "/tmp/77/artifacts" Sample.mixed_disk =
      (Ok (match out with [] => None | kept => Some kept end),
       (_find_failures Sample.no_rules "/tmp/77/logs" "/tmp/77/artifacts"
          Sample.mixed_disk).2) /\
    NoDup (map step out) /\
    (forall f, f ∈ [new_Failure "build" "test_failure" (Some "test_x")
                      (Some "/tmp/77/artifacts/build/junit_a.xml")] ++
                   [new_Failure "build" "pod_failure" None None] ->
       step f ∈ map step out) /\
    (forall g, g ∈ out ->
       exists i f,
         ([new_Failure "build" "test_failure" (Some "test_x")
             (Some "/tmp/77/artifacts/build/junit_a.xml")] ++
          [new_Failure "build" "pod_failure" None None]) !! i = Some f /\
         g = apply_rules (failure_rules Sample.no_rules) f /\
         forall j f', (j < i)%nat ->
           ([new_Failure "build" "test_failure" (Some "test_x")
               (Some "/tmp/77/artifacts/build/junit_a.xml")] ++
            [new_Failure "build" "pod_failure" None None]) !! j = Some f' ->
           step f' <> step f) /\
    (forall t p,
       t ∈ [new_Failure "build" "test_failure" (Some "test_x")
              (Some "/tmp/77/artifacts/build/junit_a.xml")] ->
       p ∈ [new_Failure "build" "pod_failure" None None] -> step t = step p ->
       failure_type t = "test_failure" /\ failure_type p = "pod_failure" /\
       exists g, g ∈ out /\ step g = step t /\ failure_type g = "test_failure" /\
         forall g', g' ∈ out -> step g' = step t -> g' = g).
Proof.
  apply (find_failures_tests_first_one_per_step Sample.no_rules "/tmp/77/logs"
           "/tmp/77/artifacts" Sample.mixed_disk _
           (_find_pod_failures "/tmp/77/logs" Sample.mixed_disk).2); reflexivity.
Defined.

End Verdict.

(** ** Where a job keeps its files *)

Module Layout.

Import Job Spec MonadFacts Discovery TestScan Download Stored.

(** *** Computations that take the disk along an order *)

Section Evolution.

Variable R : relation Fs.node.
Context `{!PreOrder R}.
Hypothesis R_create : forall segs name new n n',
  Fs.create segs name new n = Ok n' -> R n n'.

Lemma evolves_fs {A} (m : M A) : (forall w, fs (m w).2 = fs w) -> evolves R m.
Proof. intros Hm w. by rewrite Hm. Qed.

Lemma evolves_bind {A B} (m : M A) (k : A -> M B) :
  evolves R m -> (forall a, evolves R (k a)) -> evolves R (bind m k).
Proof.
  intros Hm Hk w. unfold bind. specialize (Hm w).
  destruct (m w) as [[a|e|c|] w1]; cbn in *; try done.
  etrans; [exact Hm|apply Hk].
Qed.

Lemma evolves_for_each {A S} (l : list A) (body : S -> A -> M S) :
  (forall acc x, evolves R (body acc x)) -> forall acc, evolves R (for_each l body acc).
Proof.
  intros Hbody. induction l as [|x l IH]; intros acc; [by apply evolves_fs|].
  rewrite for_each_cons. by apply evolves_bind.
Qed.

Lemma evolves_create_path p new : evolves R (lift_fs (Fs.create_path p new)).
Proof.
  intros w. unfold lift_fs, Fs.create_path.
  destruct (Fs.segments p) as [|s r]; [done|].
  destruct (Fs.create _ _ _ _) as [root| | |] eqn:Hc; cbn; try done.
  by eapply R_create.
Qed.

Lemma evolves_when c (body : M unit) : evolves R body -> evolves R (when c body).
Proof. intros Hb. destruct c; [done|by apply evolves_fs]. Qed.

Lemma evolves_if {A} (c : bool) (m1 m2 : M A) :
  evolves R m1 -> evolves R m2 -> evolves R (if c then m1 else m2).
Proof. by destruct c. Qed.

Lemma evolves_or_raise {A} e (o : option A) : evolves R (or_raise e o).
Proof. apply evolves_fs. by destruct o. Qed.

Lemma evolves_read_file p : evolves R (read_file p).
Proof.
  apply evolves_fs. intros w. unfold read_file.
  by destruct (Fs.resolve (Fs.segments p) (fs w)) as [[]|].
Qed.

Lemma evolves_run {A} (m : M A) w a w' :
  evolves R m -> m w = (Ok a, w') -> R (fs w) (fs w').
Proof. intros Hm Hrun. specialize (Hm w). by rewrite Hrun in Hm. Qed.

End Evolution.

#[local] Instance paths_kept_preorder : PreOrder paths_kept.
Proof.
  split.
  - by intros n q.
  - intros n1 n2 n3 H12 H23 q Hq. by apply H23, H12.
Qed.

(** Creating an entry removes none. *)
Lemma create_keeps_paths segs : forall name new n n',
  Fs.create segs name new n = Ok n' -> paths_kept n n'.
Proof.
  induction segs as [|s0 segs IH]; intros name new [d0|es] n'; cbn; try done.
  - destruct (Fs.entry name es) eqn:Hname; [done|]. intros [= <-] [|s q]; [done|].
    cbn. destruct (Fs.entry s es) as [c|] eqn:Hs; [|by intros ?%is_Some_None].
    by rewrite (entry_app_l _ _ _ _ Hs).
  - destruct (Fs.entry s0 es) as [c0|] eqn:Hs0; [|done].
    destruct (Fs.create segs name new c0) as [c0'| | |] eqn:Hc; try done.
    intros [= <-] [|s q]; [done|]. cbn.
    destruct (decide (s = s0)) as [->|Hne].
    + rewrite Hs0, (entry_set_entry_eq _ _ _ _ Hs0). by apply (IH name new c0).
    + by rewrite (entry_set_entry_ne _ _ _ _ Hne).
Qed.

Lemma keeps_paths_create_path p new :
  evolves paths_kept (lift_fs (Fs.create_path p new)).
Proof. exact (evolves_create_path paths_kept create_keeps_paths p new). Qed.

(** Goals [evolves paths_kept m], by the structure of [m]. *)
Ltac keep_paths :=
  repeat first
    [ apply keeps_paths_create_path
    | apply (evolves_read_file paths_kept)
    | apply (evolves_or_raise paths_kept)
    | solve [apply (evolves_fs paths_kept); done]
    | apply (evolves_bind paths_kept); [|intros ?]
    | apply (evolves_for_each paths_kept); intros ? ?
    | apply (evolves_when paths_kept)
    | apply (evolves_if paths_kept)
    | match goal with
      | |- evolves _ (match ?x with _ => _ end) => destruct x
      end ].

Lemma exists_kept p w w' :
  paths_kept (fs w) (fs w') -> Fs.exists_ p (fs w) = true -> Fs.exists_ p (fs w') = true.
Proof.
  unfold Fs.exists_. intros Hkept Hex%bool_decide_eq_true.
  by apply bool_decide_eq_true, Hkept.
Qed.

(** [if not os.path.exists(p): os.mkdir(p)], when it returns. *)
Lemma ensured_dir_exists p w u w' :
  when (negb (Fs.exists_ p (fs w))) (mkdir p) w = (Ok u, w') ->
  Fs.exists_ p (fs w') = true.
Proof.
  destruct (Fs.exists_ p (fs w)) eqn:Hex; cbn.
  - by intros [= _ <-].
  - intros [[Hnew _]%create_path_resolve _]%lift_fs_ok_inv.
    unfold Fs.exists_. rewrite Hnew. by apply bool_decide_eq_true.
Qed.

Lemma download_logs_dir r dir st bucket job_name build_id job_name_safe pr w p w' :
  _download_logs r dir st bucket job_name build_id job_name_safe pr w = (Ok p, w') ->
  p = dir +:+ "/logs" /\ Fs.exists_ p (fs w') = true /\ paths_kept (fs w) (fs w').
Proof.
  intros Hrun. split; [|split].
  - revert Hrun. unfold _download_logs.
    intros ([] & w1 & _ & Hk)%bind_ok_inv.
    apply bind_ok_inv in Hk as (there & w2 & _ & Hk).
    apply bind_ok_inv in Hk as ([] & w3 & _ & Hk).
    apply bind_ok_inv in Hk as ([] & w4 & _ & Hret). by injection Hret as <- _.
  - revert Hrun. unfold _download_logs.
    intros ([] & w1 & _ & Hk)%bind_ok_inv.
    apply bind_ok_inv in Hk as (there & w2 & [= <- <-] & Hk).
    apply bind_ok_inv in Hk as ([] & w3 & Hdir%ensured_dir_exists & Hk).
    apply bind_ok_inv in Hk as ([] & w4 & Hloop & Hret). injection Hret as <- <-.
    eapply exists_kept; [|exact Hdir].
    eapply (evolves_run paths_kept); [|exact Hloop].
    unfold mkdir, download_to_new_file. keep_paths.
  - eapply (evolves_run paths_kept); [|exact Hrun].
    unfold _download_logs, mkdir, download_to_new_file. keep_paths.
Qed.

Lemma download_junit_dir r dir st bucket job_name build_id job_name_safe pr w p w' :
  _download_junit r dir st bucket job_name build_id job_name_safe pr w = (Ok p, w') ->
  p = dir +:+ "/artifacts" /\ Fs.exists_ p (fs w') = true /\ paths_kept (fs w) (fs w').
Proof.
  assert (Hfree : forall b_step filename extension p0,
    evolves paths_kept (fun w0 : World =>
      free_path (S (S (entries_count (fs w0)))) b_step filename extension p0 1 w0)).
  { intros. apply (evolves_fs paths_kept). intros w0. apply free_path_fs. }
  intros Hrun. split; [|split].
  - revert Hrun. unfold _download_junit.
    intros ([] & w1 & _ & Hk)%bind_ok_inv.
    apply bind_ok_inv in Hk as (there & w2 & _ & Hk).
    apply bind_ok_inv in Hk as ([] & w3 & _ & Hk).
    apply bind_ok_inv in Hk as ([] & w4 & _ & Hret). by injection Hret as <- _.
  - revert Hrun. unfold _download_junit.
    intros ([] & w1 & _ & Hk)%bind_ok_inv.
    apply bind_ok_inv in Hk as (there & w2 & [= <- <-] & Hk).
    apply bind_ok_inv in Hk as ([] & w3 & Hdir%ensured_dir_exists & Hk).
    apply bind_ok_inv in Hk as ([] & w4 & Hloop & Hret). injection Hret as <- <-.
    eapply exists_kept; [|exact Hdir].
    eapply (evolves_run paths_kept); [|exact Hloop].
    unfold mkdir, download_to_new_file. keep_paths; apply Hfree.
  - eapply (evolves_run paths_kept); [|exact Hrun].
    unfold _download_junit, mkdir, download_to_new_file. keep_paths; apply Hfree.
Qed.

Lemma get_download_path_dir build_id w p w' :
  _get_download_path build_id w = (Ok p, w') ->
  p = "/tmp/" +:+ fmt build_id /\ Fs.exists_ p (fs w') = true.
Proof.
  destruct (Fs.exists_ ("/tmp/" +:+ fmt build_id) (fs w)) eqn:Hex.
  - rewrite (get_download_path_there _ _ Hex). by intros [= <- <-].
  - rewrite (get_download_path_missing _ _ Hex).
    destruct (mkdir _ _) as [[u|e|c|] w1] eqn:Hmk; try done.
    intros [= <- <-]. split; [done|].
    apply lift_fs_ok_inv in Hmk as [[Hnew _]%create_path_resolve _].
    unfold Fs.exists_. rewrite Hnew. by apply bool_decide_eq_true.
Qed.

Lemma find_failures_fs config logs_dir junit_dir w r w' :
  _find_failures config logs_dir junit_dir w = (Ok r, w') -> fs w' = fs w.
Proof.
  unfold _find_failures.
  intros (pods & w1 & Hpods & (tests & w2 & Htests & Hret)%bind_ok_inv)%bind_ok_inv.
  apply (Results.find_pod_failures_inv (fun _ => True)) in Hpods as [_ Hfs1]; [|done..].
  apply (find_test_failures_inv _ _ (fun _ => True)) in Htests as (_ & _ & _ & Hfs2);
    [|done..].
  destruct (_ <? _)%nat; injection Hret as _ <-; congruence.
Qed.

(** X18: the directories of a job the constructor returns: the download
    path is [/tmp/<build id>] (with [None] for a build id that neither the
    argument nor the environment gives), the logs and the artifacts
    directories are its [logs] and [artifacts], and all three are on the
    disk the construction leaves. *)
Theorem job_directories_exist
    getenv st name name_safe build_id bucket config pr_id w job w' :
  __init__ getenv st name name_safe build_id bucket config pr_id w = (Ok job, w') ->
  Job.build_id job = resolved_build_id getenv build_id /\
  download_path job = "/tmp/" +:+ fmt (Job.build_id job) /\
  logs_dir job = download_path job +:+ "/logs" /\
  junit_dir job = download_path job +:+ "/artifacts" /\
  Fs.exists_ (download_path job) (fs w') = true /\
  Fs.exists_ (logs_dir job) (fs w') = true /\
  Fs.exists_ (junit_dir job) (fs w') = true.
Proof.
  unfold __init__. fold (resolved_build_id getenv build_id).
  intros (r & w1 & _ & Hk)%bind_ok_inv.
  apply bind_ok_inv in Hk as (pr & w2 & _ & Hk).
  apply bind_ok_inv in Hk as (steps & w3 & _ & Hk).
  apply bind_ok_inv in Hk as (dp & w4 & [-> Hdp]%get_download_path_dir & Hk).
  apply bind_ok_inv in Hk as (ld & w5 & (-> & Hld & Hkept5)%download_logs_dir & Hk).
  apply bind_ok_inv in Hk as (jd & w6 & (-> & Hjd & Hkept6)%download_junit_dir & Hk).
  apply bind_ok_inv in Hk as (fl & w7 & Hfs%find_failures_fs & Hret).
  injection Hret as <- <-. cbn. rewrite !Hfs.
  repeat split; try done.
  - eapply exists_kept; [exact Hkept6|]. by eapply exists_kept.
  - by eapply exists_kept.
Qed.

Lemma job_directories_witness :
  let w' := (__init__ Sample.no_env Sample.periodic_storage "periodic-ci-foo" "foo"
               (Some "77") "origin-ci-test" Sample.no_rules None Sample.empty_disk).2 in
  Some "77" = resolved_build_id Sample.no_env (Some "77") /\
  "/tmp/77" = "/tmp/" +:+ fmt (Some "77") /\
  "/tmp/77/logs" = "/tmp/77" +:+ "/logs" /\
  "/tmp/77/artifacts" = "/tmp/77" +:+ "/artifacts" /\
  Fs.exists_ "/tmp/77" (fs w') = true /\
  Fs.exists_ "/tmp/77/logs" (fs w') = true /\
  Fs.exists_ "/tmp/77/artifacts" (fs w') = true.
Proof.
  intros w'.
  apply (job_directories_exist Sample.no_env Sample.periodic_storage
           "periodic-ci-foo" "foo" (Some "77") "origin-ci-test" Sample.no_rules None
           Sample.empty_disk
           {| name := Some "periodic-ci-foo"; name_safe := Some "foo"; build_id := Some "77";
              is_rehearsal := false; pr_id := ""; firewatch_config := Sample.no_rules;
              gcs_bucket := "origin-ci-test"; steps := ["build"; "build"];
              download_path := "/tmp/77"; logs_dir := "/tmp/77/logs";
              junit_dir := "/tmp/77/artifacts";
              failures := Some [new_Failure "build" "pod_failure" None None];
              has_test_failures := false; has_pod_failures := true;
              has_failures := true |} w').
  vm_compute. reflexivity.
Defined.

Lemma or_else_l a b : Py.truthy a = true -> Py.or_else a b = a.
Proof. unfold Py.or_else. by intros ->. Qed.

Lemma or_else_r a b : Py.truthy a = false -> Py.or_else a b = b.
Proof. unfold Py.or_else. by intros ->. Qed.

(** What [derive_pr_id] returns: the first of the argument, the
    environment's [PULL_NUMBER] and the second token of the name that is
    there and not empty, or ["1"]. *)
Lemma derive_pr_id_ok getenv n pr_id w p w' :
  derive_pr_id getenv n pr_id w = (Ok p, w') ->
  match Py.or_else (Py.or_else pr_id (getenv "PULL_NUMBER"))
          (Py.index (Py.split "-" n) 1) with
  | Some q => p = q
  | None => p = "1"
  end.
Proof.
  unfold derive_pr_id.
  intros (q & w1 & Hq & Hk)%bind_ok_inv.
  apply bind_ok_inv in Hk as ([] & w2 & _ & [= <- _]).
  destruct (Py.or_else _ _) as [q'|].
  - by injection Hq as <- _.
  - apply bind_ok_inv in Hq as ([] & w3 & _ & [= <- _]). done.
Qed.

(** X19: the pull-request id of a job the constructor returns: empty for
    a job that is not a rehearsal, whatever the argument and the environment
    say; for a rehearsal, the [pr_id] argument when it is not empty, and
    otherwise the [PULL_NUMBER] of the environment when that is not empty. *)
Theorem pr_id_precedence
    getenv st name name_safe build_id bucket config pr_id w job w' :
  __init__ getenv st name name_safe build_id bucket config pr_id w = (Ok job, w') ->
  if is_rehearsal job then
    (Py.truthy pr_id = true -> Some (Job.pr_id job) = pr_id) /\
    (Py.truthy pr_id = false -> Py.truthy (getenv "PULL_NUMBER") = true ->
     Some (Job.pr_id job) = getenv "PULL_NUMBER")
  else Job.pr_id job = "".
Proof.
  intros (n & w1 & w2 & _ & _ & Hpr)%init_pr_id.
  destruct (is_rehearsal job); [|done].
  apply derive_pr_id_ok in Hpr. split.
  - intros Harg. rewrite (or_else_l pr_id) in Hpr by done.
    rewrite (or_else_l pr_id) in Hpr by done.
    destruct pr_id; [by subst|done].
  - intros Harg Henv. rewrite (or_else_r pr_id) in Hpr by done.
    rewrite or_else_l in Hpr by done.
    destruct (getenv "PULL_NUMBER"); [by subst|done].
Qed.

Lemma pr_id_precedence_witness :
  (Py.truthy (Some "456") = true -> Some "456" = Some "456") /\
  (Py.truthy (Some "456") = false -> Py.truthy (Sample.no_env "PULL_NUMBER") = true ->
   Some "456" = Sample.no_env "PULL_NUMBER").
Proof.
  apply (pr_id_precedence Sample.no_env Sample.rehearsal_storage "rehearse-123-foo" "foo"
           (Some "99") "origin-ci-test" Sample.no_rules (Some "456") Sample.disk_99
           {| name := Some "rehearse-123-foo"; name_safe := Some "foo";
              build_id := Some "99"; is_rehearsal := true; pr_id := "456";
              firewatch_config := Sample.no_rules; gcs_bucket := "origin-ci-test";
              steps := []; download_path := "/tmp/99"; logs_dir := "/tmp/99/logs";
              junit_dir := "/tmp/99/artifacts"; failures := None;
              has_test_failures := false; has_pod_failures := false;
              has_failures := false |}
           (__init__ Sample.no_env Sample.rehearsal_storage "rehearse-123-foo" "foo"
              (Some "99") "origin-ci-test" Sample.no_rules (Some "456")
              Sample.disk_99).2).
  vm_compute. reflexivity.
Defined.

End Layout.
